(** * hnio: the data loading layer of the HotNet2 port in pypathway

    A shallow embedding of [pypathway/hotnet/hotnet2/hnio.py] and the
    properties of its loaders.

    Conventions.
    - Text is [string]; the model covers ASCII text, one [ascii] per
      character.
    - An opened text file is the list of lines that iterating over the file
      object yields: every line keeps its newline, the last one may lack it.
    - A Python exception is a value [Raise e] of [result]; statements run in
      source order and the first exception ends the call.
    - A [dict] is a [gmap], a [set] a [gset]; building one from a generator
      inserts in generator order, so the last binding of a key wins. *)

From Stdlib Require Import ZArith Ascii PrimFloat SpecFloat FloatOps.
From Stdlib Require FloatAxioms.
From stdpp Require Import gmap strings list.

#[local] Open Scope Z_scope.

(** ** Exceptions and the result of a call *)

Inductive exn : Set :=
  | IndexError
  | KeyError
  | ValueError
  | TypeError
  | NameError
  | FileNotFoundError
  | JSONDecodeError.

Inductive result (A : Type) : Type :=
  | Ok (a : A)
  | Raise (e : exn).

Arguments Ok {A} a.
Arguments Raise {A} e.

#[global] Instance result_ret : MRet result := λ A a, Ok a.

#[global] Instance result_bind : MBind result := λ A B k r,
  match r with
  | Ok a => k a
  | Raise e => Raise e
  end.

#[global] Instance result_fmap : FMap result := λ A B f r,
  match r with
  | Ok a => Ok (f a)
  | Raise e => Raise e
  end.

Definition is_ok {A} (r : result A) : bool :=
  match r with Ok _ => true | Raise _ => false end.

(** [EXPR for x in xs ...] inside a list display: the body yields the items
    contributed by one [x] (none when a condition fails, several for a
    nested [for]); the first exception stops the comprehension. *)
Fixpoint for_each {A B} (xs : list A) (body : A → result (list B))
  : result (list B) :=
  match xs with
  | [] => Ok []
  | x :: xs' =>
      ys ← body x;
      zs ← for_each xs' body;
      Ok (ys ++ zs)
  end.

(** [d.update(gen)] and [dict(gen)]: each generated pair is inserted as soon
    as it is produced. *)
Fixpoint dict_update {A V} (d : gmap string V) (xs : list A)
    (item : A → result (option (string * V))) : result (gmap string V) :=
  match xs with
  | [] => Ok d
  | x :: xs' =>
      kv ← item x;
      dict_update (match kv with Some (k, v) => <[k:=v]> d | None => d end)
                  xs' item
  end.

(** Same for integer keys. *)
Fixpoint dict_update_Z {A V} (d : gmap Z V) (xs : list A)
    (item : A → result (Z * V)) : result (gmap Z V) :=
  match xs with
  | [] => Ok d
  | x :: xs' =>
      '(k, v) ← item x;
      dict_update_Z (<[k:=v]> d) xs' item
  end.

(** [set(gen)]. *)
Fixpoint set_of {A} `{Countable K} (xs : list A) (item : A → result K)
  : result (gset K) :=
  match xs with
  | [] => Ok ∅
  | x :: xs' =>
      k ← item x;
      s ← set_of xs' item;
      Ok ({[k]} ∪ s)
  end.

(** [arr[i]] for [i >= 0] and [arr[-1]]. The slices [arr[1:]] and [arr[:n]]
    never raise: they are [drop 1 arr] and [take n arr]. *)
Definition index {A} (arr : list A) (i : nat) : result A :=
  match arr !! i with
  | Some x => Ok x
  | None => Raise IndexError
  end.

Definition index_last {A} (arr : list A) : result A :=
  match last arr with
  | Some x => Ok x
  | None => Raise IndexError
  end.

(** ** Python's [str] methods used by the loaders *)

Module Str.

(** [c.isspace()] on ASCII: tab, newline, vertical tab, form feed, carriage
    return, the four separators 0x1c to 0x1f, and space. *)
Definition isspace (c : ascii) : bool :=
  match c with
  | "009" | "010" | "011" | "012" | "013"
  | "028" | "029" | "030" | "031" | " " => true
  | _ => false
  end%char.

(** [s.startswith(p)]. *)
Fixpoint startswith (p s : string) : bool :=
  match p, s with
  | "", _ => true
  | String a p', String b s' => Ascii.eqb a b && startswith p' s'
  | String _ _, "" => false
  end.

(** [s.endswith(suf)]: some tail of [s] is [suf]. *)
Fixpoint endswith (suf s : string) : bool :=
  String.eqb s suf ||
  match s with
  | "" => false
  | String _ s' => endswith suf s'
  end.

(** [s.rstrip()]. *)
Fixpoint rstrip (s : string) : string :=
  match s with
  | "" => ""
  | String c s' =>
      match rstrip s' with
      | "" => if isspace c then "" else String c ""
      | r => String c r
      end
  end.

(** [s.lstrip()]. *)
Fixpoint lstrip (s : string) : string :=
  match s with
  | "" => ""
  | String c s' => if isspace c then lstrip s' else s
  end.

(** [s.strip()]. *)
Definition strip (s : string) : string := lstrip (rstrip s).

(** The pieces of [s] between the characters satisfying [sep]; never
    empty, and a piece may be the empty string. *)
Fixpoint split_by (sep : ascii → bool) (s : string) : list string :=
  match s with
  | "" => [""]
  | String c s' =>
      if sep c then "" :: split_by sep s'
      else match split_by sep s' with
           | piece :: rest => String c piece :: rest
           | [] => [String c ""]
           end
  end.

(** [s.split(sep)] for a separator of one character. *)
Definition split_on (sep : ascii) (s : string) : list string :=
  split_by (Ascii.eqb sep) s.

Definition nonempty (s : string) : bool :=
  match s with "" => false | _ => true end.

(** [s.split()]: the maximal runs of characters that are not whitespace,
    which are the nonempty pieces between whitespace characters. *)
Definition split (s : string) : list string :=
  List.filter nonempty (split_by isspace s).

(** The value of a decimal digit: the characters of codes 48 to 57. *)
Definition digit (c : ascii) : option Z :=
  let code := Z.of_N (N_of_ascii c) in
  if (48 <=? code) && (code <=? 57) then Some (code - 48) else None.

(** Decimal digits with single underscores between them; [seen] tells
    whether the previous character was a digit. *)
Fixpoint digits (s : string) (acc : Z) (seen : bool) : option Z :=
  match s with
  | "" => if seen then Some acc else None
  | String c s' =>
      match digit c with
      | Some d => digits s' (10 * acc + d) true
      | None =>
          if Ascii.eqb c "_" && seen then digits s' acc false else None
      end
  end.

(** The whitespace that [int] skips at both ends of an ASCII string: tab,
    newline, vertical tab, form feed, carriage return and space. (It is
    narrower than [isspace]: the separators 0x1c to 0x1f are not skipped.) *)
Definition int_space (c : ascii) : bool :=
  let code := N_of_ascii c in
  ((9 <=? code) && (code <=? 13))%N || (code =? 32)%N.

Fixpoint int_rtrim (s : string) : string :=
  match s with
  | "" => ""
  | String c s' =>
      match int_rtrim s' with
      | "" => if int_space c then "" else String c ""
      | r => String c r
      end
  end.

Fixpoint int_ltrim (s : string) : string :=
  match s with
  | "" => ""
  | String c s' => if int_space c then int_ltrim s' else s
  end.

(** [int(s)] in base ten: surrounding whitespace, an optional sign, then
    digits. [None] stands for [ValueError]. (The interpreter's optional
    cap on the number of digits is not part of the model.) *)
Definition int (s : string) : option Z :=
  match int_ltrim (int_rtrim s) with
  | String "+" r => digits r 0 false
  | String "-" r => Z.opp <$> digits r 0 false
  | t => digits t 0 false
  end.

End Str.

Definition tab : ascii := "009"%char.
Definition lparen : ascii := "("%char.

(** [int(s)] as a call that may raise. *)
Definition int (s : string) : result Z :=
  match Str.int s with
  | Some z => Ok z
  | None => Raise ValueError
  end.

(** [d[k]] on a [dict]. *)
Definition getitem `{Countable K} {V} (d : gmap K V) (k : K) : result V :=
  match d !! k with
  | Some v => Ok v
  | None => Raise KeyError
  end.

(** The lines of an opened file that do not start with [#]:
    [... for l in f if not l.startswith("#")]. *)
Definition uncommented (f : list string) : list string :=
  List.filter (λ l, negb (Str.startswith "#" l)) f.

(** ** Records of [constants.py] *)

(** Modelled from the spec: [constants.py] is not among the sources; the
    mutation kinds are the enumeration [{SNV, INACTIVE_SNV, AMP, DEL}] of the
    data model. *)
Inductive mut_type : Set := SNV | INACTIVE_SNV | AMP | DEL.

(** Modelled from the spec: the record [{sample, gene, mut_type}] built by
    [Mutation(sample, gene, mut_type)]. *)
Record Mutation : Set := mkMutation {
  sample : string;
  gene : string;
  mtype : mut_type
}.

(** Modelled from the spec: the record [{sample, genes}] built by
    [Fusion(sample, (gene1, gene2))]. *)
Record Fusion : Set := mkFusion {
  fsample : string;
  genes : string * string
}.

#[global] Instance mut_type_eq_dec : EqDecision mut_type.
Proof. solve_decision. Defined.
#[global] Instance Mutation_eq_dec : EqDecision Mutation.
Proof. solve_decision. Defined.
#[global] Instance Fusion_eq_dec : EqDecision Fusion.
Proof. solve_decision. Defined.

(** ** Whitelists *)

(** A whitelist argument is [None] or a set of names. *)
Abbreviation whitelist := (option (gset string)).

(** The truth value of a whitelist in a condition ([if whitelist]): [None]
    and the empty set are both false. *)
Definition truthy (w : whitelist) : bool :=
  match w with
  | Some s => bool_decide (s ≠ ∅)
  | None => false
  end.

(** [item in whitelist]; every use is guarded by [truthy], so the case of
    [None] is never reached. *)
Definition mem (item : string) (w : whitelist) : bool :=
  match w with
  | Some s => bool_decide (item ∈ s)
  | None => false
  end.

(** [include] (lines 152-153). *)
Definition include (item : string) (w : whitelist) : bool :=
  if truthy w then mem item w else true.

(** ** Mutation loaders

    Each loader takes the opened file, then the whitelists in the order of
    the source. *)

(** [load_snvs] (lines 155-171). *)
Definition load_snvs (snv_file : list string) (gene_wlst sample_wlst : whitelist)
  : result (list Mutation) :=
  let arrs := (λ l, Str.split_on tab (Str.rstrip l)) <$> uncommented snv_file in
  for_each arrs (λ arr,
    a0 ← index arr 0;
    if include a0 sample_wlst then
      for_each (drop 1 arr) (λ gene,
        if include gene gene_wlst then Ok [mkMutation a0 gene SNV] else Ok [])
    else Ok []).

(** [load_inactivating_snvs] (lines 173-190). *)
Definition load_inactivating_snvs (inactivating_snvs_file : list string)
    (gene_wlst sample_wlst : whitelist) : result (list Mutation) :=
  let arrs := Str.split <$> uncommented inactivating_snvs_file in
  for_each arrs (λ arr,
    a1 ← index arr 1;
    if include a1 sample_wlst then
      a0 ← index arr 0;
      if include a0 gene_wlst then Ok [mkMutation a1 a0 INACTIVE_SNV] else Ok []
    else Ok []).

(** [get_mut_type] (lines 250-253). *)
Definition get_mut_type (cna : string) : result mut_type :=
  if Str.endswith "(A)" cna then Ok AMP
  else if Str.endswith "(D)" cna then Ok DEL
  else Raise ValueError.

(** [load_cnas] (lines 192-210); [cna.split("(")[0]] is evaluated once here
    and twice in the source, to the same value. *)
Definition load_cnas (cna_file : list string) (gene_wlst sample_wlst : whitelist)
  : result (list Mutation) :=
  let arrs := (λ l, Str.split_on tab (Str.rstrip l)) <$> uncommented cna_file in
  for_each arrs (λ arr,
    a0 ← index arr 0;
    if include a0 sample_wlst then
      for_each (drop 1 arr) (λ cna,
        g ← index (Str.split_on lparen cna) 0;
        if include g gene_wlst then
          ty ← get_mut_type cna;
          Ok [mkMutation a0 g ty]
        else Ok [])
    else Ok []).

(** [include_fusion] (lines 229-237). *)
Definition include_fusion (sample_wlst gene_wlst : whitelist)
    (sample gene1 gene2 : string) : result bool :=
  if truthy sample_wlst && negb (mem sample sample_wlst) then Ok false
  else if negb (truthy gene_wlst) then Ok true
  else if negb (mem gene1 gene_wlst) && negb (mem gene2 gene_wlst) then Ok false
  else if (mem gene1 gene_wlst && negb (mem gene2 gene_wlst))
          || (mem gene2 gene_wlst && negb (mem gene1 gene_wlst))
       then Raise ValueError
  else Ok true.

(** [include_fusion(sample_wlst, gene_wlst, *args)]: the call binds exactly
    three positional arguments after the whitelists. *)
Definition include_fusion_star (sample_wlst gene_wlst : whitelist)
    (args : list string) : result bool :=
  match args with
  | [sample; gene1; gene2] =>
      include_fusion sample_wlst gene_wlst sample gene1 gene2
  | _ => Raise TypeError
  end.

(** [load_fusions] (lines 212-227). *)
Definition load_fusions (fusion_file : list string)
    (gene_wlst sample_wlst : whitelist) : result (list Fusion) :=
  let arrs := Str.split <$> uncommented fusion_file in
  for_each arrs (λ arr,
    keep ← include_fusion_star sample_wlst gene_wlst (take 4 arr);
    if keep : bool then
      a0 ← index arr 0;
      a1 ← index arr 1;
      a2 ← index arr 2;
      Ok [mkFusion a0 (a1, a2)]
    else Ok []).

(** ** Index, edge and order loaders *)

(** [dict(pairs)]: later pairs overwrite earlier ones. *)
Definition dict `{Countable K} {V} (pairs : list (K * V)) : gmap K V :=
  foldl (λ d kv, <[kv.1 := kv.2]> d) ∅ pairs.

(** [load_index] (lines 11-21). *)
Definition load_index (index_file : list string) : result (gmap Z string) :=
  let arrs := Str.split <$> index_file in
  dict_update_Z ∅ arrs (λ arr,
    a0 ← index arr 0;
    i ← int a0;
    a1 ← index arr 1;
    Ok (i, a1)).

(** [load_ppi_edges] (lines 23-38). *)
Definition load_ppi_edges (edge_list_file : list string)
    (index2gene : gmap Z string) : result (gset (string * string)) :=
  let arrs := Str.split <$> edge_list_file in
  set_of arrs (λ arr,
    a0 ← index arr 0;
    i ← int a0;
    g1 ← getitem index2gene i;
    a1 ← index arr 1;
    j ← int a1;
    g2 ← getitem index2gene j;
    Ok (g1, g2)).

(** The body of the loop of [load_gene_order], from line number [cid] on. *)
Fixpoint gene_order_loop (lines : list string) (cid : nat)
    (gene2chromo : gmap string nat) (chromo2genes : gmap nat (list string))
  : gmap string nat * gmap nat (list string) :=
  match lines with
  | [] => (gene2chromo, chromo2genes)
  | line :: rest =>
      let genes := Str.split line in
      gene_order_loop rest (S cid)
        (foldl (λ d gene, <[gene := cid]> d) gene2chromo genes)
        (<[cid := genes]> chromo2genes)
  end.

(** [load_gene_order] (lines 105-127). *)
Definition load_gene_order (gene_order_file : list string)
  : gmap string nat * gmap nat (list string) :=
  gene_order_loop gene_order_file 0%nat ∅ ∅.

(** [load_genes] (lines 83-91). *)
Definition load_genes (gene_file : list string) : gset string :=
  list_to_set (Str.strip <$> gene_file).

(** [load_samples] (lines 141-150). *)
Definition load_samples (sample_file : list string) : result (gset string) :=
  set_of sample_file (λ l, index (Str.split (Str.rstrip l)) 0).

(** ** Numbers *)

(** A Python number: an [int] or a [float] (binary64). *)
Inductive pynum : Set :=
  | PyInt (z : Z)
  | PyFloat (x : float).

(** Whether the float [x] has exactly the value of the integer [z]. *)
Definition float_is_Z (x : float) (z : Z) : bool :=
  match Prim2SF x with
  | S754_zero _ => Z.eqb z 0
  | S754_finite s m e =>
      let v := if s then Z.neg m else Z.pos m in
      if Z.leb 0 e then Z.eqb (v * 2 ^ e) z else Z.eqb v (z * 2 ^ (- e))
  | _ => false
  end.

(** [a == b] on numbers: the comparison of an [int] with a [float] is by
    value. *)
Definition num_eq (a b : pynum) : bool :=
  match a, b with
  | PyInt z1, PyInt z2 => Z.eqb z1 z2
  | PyFloat x1, PyFloat x2 => PrimFloat.eqb x1 x2
  | PyInt z, PyFloat x | PyFloat x, PyInt z => float_is_Z x z
  end.

(** The graph of [networkx.Graph]: each node with the set of its
    neighbours; the node set is the domain. *)
Abbreviation Graph := (gmap string (gset string)).

(** [G.add_edge(u, v)]: both nodes are added and become neighbours. *)
Definition add_edge (G : Graph) (u v : string) : Graph :=
  let G1 := <[u := {[v]} ∪ default ∅ (G !! u)]> G in
  <[v := {[u]} ∪ default ∅ (G1 !! v)]> G1.

(** [G.add_edges_from(ebunch)]. *)
Definition add_edges_from (G : Graph) (ebunch : list (string * string)) : Graph :=
  foldl (λ G e, add_edge G e.1 e.2) G ebunch.

(** [G.nodes()]. *)
Definition nodes_of (G : Graph) : gset string := dom G.

(** A numpy array: its shape and its entries in row-major order. *)
Record ndarray : Set := mkArray {
  shape : list nat;
  entries : list float
}.

(** The dictionary that [load_hdf5] (lines 385-409) returns for a network
    file: under ["nodes"] the node names and under ["network_name"] the
    network name, both decoded to text, under ["edges"] the edges as pairs of
    strings, and the numeric datasets (the influence matrices) by name. *)
Record hdf5 : Type := mkHdf5 {
  h_nodes : list string;
  h_network_name : string;
  h_edges : list (string * string);
  h_arrays : gmap string ndarray
}.

(** [load_network] (lines 373-383), from the dictionary [H] on;
    [infmat_name] names a numeric dataset. *)
Definition load_network (H : hdf5) (infmat_name : string)
  : result (ndarray * gmap nat string * Graph * string) :=
  PPR ← getitem (h_arrays H) infmat_name;
  n ← index (shape PPR) 0;
  let indexToGene := dict (zip (seq 0 n) (h_nodes H)) in
  let G := add_edges_from ∅ (h_edges H) in
  Ok (PPR, indexToGene, G, h_network_name H).

(** ** JSON documents and the file store *)

(** What [json.load] returns. An object keeps its members in file order;
    a repeated key takes its last value. *)
#[warnings="-register-all"]
Inductive json : Set :=
  | JNull
  | JBool (b : bool)
  | JNum (n : pynum)
  | JStr (s : string)
  | JArr (items : list json)
  | JObj (members : list (string * json)).

(** The value of key [k] among the members of an object. *)
Fixpoint member (k : string) (members : list (string * json)) : option json :=
  match members with
  | [] => None
  | (k', v) :: rest =>
      match member k rest with
      | Some v' => Some v'
      | None => if bool_decide (k' = k) then Some v else None
      end
  end.

(** [obj[k]]: only an object can be subscripted by a string. *)
Definition jgetitem (obj : json) (k : string) : result json :=
  match obj with
  | JObj ms => match member k ms with Some v => Ok v | None => Raise KeyError end
  | _ => Raise TypeError
  end.

(** [k in obj], used where [obj] is known to be an object. *)
Definition jcontains (obj : json) (k : string) : bool :=
  match obj with
  | JObj ms => bool_decide (is_Some (member k ms))
  | _ => false
  end.

(** [obj.get(k)]. *)
Definition jget (obj : json) (k : string) : json :=
  match obj with
  | JObj ms => default JNull (member k ms)
  | _ => JNull
  end.

(** [v == s] for a string literal [s]. *)
Definition jeq_str (v : json) (s : string) : bool :=
  match v with
  | JStr t => String.eqb t s
  | _ => false
  end.

(** The truth value of a JSON value in a condition. *)
Definition jtruthy (v : json) : bool :=
  match v with
  | JNull => false
  | JBool b => b
  | JNum (PyInt z) => negb (Z.eqb z 0)
  | JNum (PyFloat x) => negb (PrimFloat.eqb x 0)
  | JStr s => Str.nonempty s
  | JArr items => match items with [] => false | _ => true end
  | JObj ms => match ms with [] => false | _ => true end
  end.

(** A file: the lines that reading it as text yields, and the value that
    [json.load] returns on it, if it holds a JSON document. *)
Record file : Set := mkFile {
  lines : list string;
  document : option json
}.

Abbreviation filesystem := (gmap string file).

(** [open(path)] for reading; [path] comes from a JSON document, and only a
    string names a file. (A number would be taken for a file descriptor;
    the model has none.) *)
Definition open (fs : filesystem) (path : json) : result file :=
  match path with
  | JStr p => match fs !! p with Some f => Ok f | None => Raise FileNotFoundError end
  | _ => Raise TypeError
  end.

(** [json.load(f)]. *)
Definition json_load (f : file) : result json :=
  match document f with
  | Some v => Ok v
  | None => Raise JSONDecodeError
  end.

(** [load_heat_json] (lines 40-50). *)
Definition load_heat_json (fs : filesystem) (heat_file : string)
  : result (json * json) :=
  f ← open fs (JStr heat_file);
  blob ← json_load f;
  heat ← jgetitem blob "heat";
  parameters ← jgetitem blob "parameters";
  Ok (heat, parameters).

(** ** Loaders that read scores *)

Section Scores.

(** [float(s)], the interpreter's conversion of text to binary64; [None]
    stands for [ValueError]. *)
Variable float_of : string → option float.

Definition to_float (s : string) : result float :=
  match float_of s with
  | Some x => Ok x
  | None => Raise ValueError
  end.

(** [load_heat_tsv] (lines 52-61). *)
Definition load_heat_tsv (heat_file : list string) : result (gmap string float) :=
  let arrs := Str.split <$> heat_file in
  dict_update ∅ arrs (λ arr,
    a0 ← index arr 0;
    a1 ← index arr 1;
    x ← to_float a1;
    Ok (Some (a0, x))).

(** [one = lambda: 1], the default of the three [defaultdict]s. *)
Definition one : pynum := PyInt 1.

(** [d[g]] on a [defaultdict(one)]. (The lookup also stores the default
    in [d]; the merge reads each dictionary after its keys were taken, so
    this is not observable.) *)
Definition getdefault (d : gmap string pynum) (g : string) : pynum :=
  default one (d !! g).

(** The parsing stages of [load_oncodrive_data] (lines 262-279): the fm
    scores, and the cis scores of amplifications and of deletions, which are
    read alike. What the function prints is not modelled. *)
Definition oncodrive_fm (fm_scores : list string) : result (gmap string pynum) :=
  let arrs := (λ l, Str.split_on tab (Str.rstrip l)) <$> uncommented fm_scores in
  dict_update ∅ arrs (λ arr,
    a2 ← index arr 2;
    if negb (String.eqb a2 "") && negb (String.eqb a2 "-0")
       && negb (String.eqb a2 "-") then
      a1 ← index arr 1;
      x ← to_float a2;
      Ok (Some (a1, PyFloat x))
    else Ok None).

Definition oncodrive_cis (cis_scores : list string) : result (gmap string pynum) :=
  let arrs := (λ l, Str.split_on tab (Str.rstrip l)) <$> uncommented cis_scores in
  dict_update ∅ arrs (λ arr,
    a0 ← index arr 0;
    an ← index_last arr;
    x ← to_float an;
    Ok (Some (a0, PyFloat x))).

(** The merge at the end of [load_oncodrive_data] (lines 281-289). *)
Definition oncodrive_merge (gene2fm gene2cis_amp gene2cis_del : gmap string pynum)
  : gmap string (gmap string pynum) :=
  let genes : gset string := dom gene2cis_del ∪ dom gene2cis_amp ∪ dom gene2fm in
  foldl (λ gene2heat g,
           <[g := {[ "del" := getdefault gene2cis_del g;
                     "amp" := getdefault gene2cis_amp g;
                     "fm" := getdefault gene2fm g ]}]> gene2heat)
        ∅ (elements genes).

(** [load_oncodrive_data] (lines 255-289); the arguments are the three
    opened files. *)
Definition load_oncodrive_data (fm_scores cis_amp_scores cis_del_scores : list string)
  : result (gmap string (gmap string pynum)) :=
  gene2fm ← oncodrive_fm fm_scores;
  gene2cis_amp ← oncodrive_cis cis_amp_scores;
  gene2cis_del ← oncodrive_cis cis_del_scores;
  Ok (oncodrive_merge gene2fm gene2cis_amp gene2cis_del).

(** *** [load_heat_file] *)

(** The heat of a JSON heat file is the document's value, that of a TSV
    heat file the dictionary of [load_heat_tsv]. *)
Inductive heat_scores : Type :=
  | HeatJson (v : json)
  | HeatTsv (d : gmap string float).

Abbreviation mutation_data :=
  (list Mutation * list Mutation * gmap string string)%type.

(** [X(params[key], ...) if params[key] else dflt]. *)
Definition if_param {A} (fs : filesystem) (heat_params : json) (key : string)
    (load : list string → result A) (dflt : A) : result A :=
  c ← jgetitem heat_params key;
  if jtruthy c then
    path ← jgetitem heat_params key;
    f ← open fs path;
    load (lines f)
  else Ok dflt.

(** [load_heat_file] (lines 456-487). *)
Definition load_heat_file (fs : filesystem) (heat_file : string) (json_heat : bool)
  : result (heat_scores * json * mutation_data) :=
  let mutations : mutation_data := ([], [], ∅) in
  if json_heat then
    IN ← open fs (JStr heat_file);
    obj ← json_load IN;
    heat_params ← jgetitem obj "parameters";
    heat_name ← jgetitem heat_params "name";
    heat ← jgetitem obj "heat";
    heat_fn ← (if jcontains heat_params "heat_fn"
                then jgetitem heat_params "heat_fn" else Ok JNull);
    if jeq_str heat_fn "load_mutation_heat" then
        samples ← if_param fs heat_params "sample_file"
                    (λ f, Some <$> load_samples f) None;
        genes ← if_param fs heat_params "gene_file"
                    (λ f, Ok (Some (load_genes f))) None;
        snvs ← if_param fs heat_params "snv_file"
                    (λ f, load_snvs f genes samples) [];
        cnas ← if_param fs heat_params "cna_file"
                    (λ f, load_cnas f genes samples) [];
        if jtruthy (jget heat_params "sample_type_file") then
          (* line 475 evaluates [heat_parameters], which is not a name of the
             function or of the module *)
          Raise NameError
        else
          let samples : gset string :=
            if truthy samples then default ∅ samples
            else list_to_set (sample <$> snvs) ∪ list_to_set (sample <$> cnas) in
          let sampleToType : gmap string string := gset_to_gmap "Cancer" samples in
          Ok (HeatJson heat, heat_name, (snvs, cnas, sampleToType))
    else Ok (HeatJson heat, heat_name, mutations)
  else
    f ← open fs (JStr heat_file);
    heat ← load_heat_tsv (lines f);
    base ← index_last (Str.split_on "/" heat_file);
    heat_name ← index (Str.split_on "." base) 0;
    Ok (HeatTsv heat, JStr heat_name, mutations).

End Scores.

(** ** Writers *)

Definition newline : string := String "010"%char "".

(** ['\t'.join(fields)]. *)
Fixpoint join_tab (fields : list string) : string :=
  match fields with
  | [] => ""
  | [x] => x
  | x :: rest => x +:+ String tab (join_tab rest)
  end.

(** The lines that [write_components_as_tsv] writes: for each component its
    genes joined by tabs, and a newline. *)
Definition write_components_as_tsv (ccs : list (list string)) : list string :=
  (λ cc, join_tab cc +:+ newline) <$> ccs.

(** ** The loaders with every whitelist test removed

    What each mutation loader computes when no item is filtered out; the
    reference for "no filter at all". *)

Module Unfiltered.

Definition snvs (f : list string) : result (list Mutation) :=
  let arrs := (λ l, Str.split_on tab (Str.rstrip l)) <$> uncommented f in
  for_each arrs (λ arr,
    a0 ← index arr 0;
    for_each (drop 1 arr) (λ gene, Ok [mkMutation a0 gene SNV])).

Definition inactivating_snvs (f : list string) : result (list Mutation) :=
  let arrs := Str.split <$> uncommented f in
  for_each arrs (λ arr,
    a1 ← index arr 1;
    a0 ← index arr 0;
    Ok [mkMutation a1 a0 INACTIVE_SNV]).

Definition cnas (f : list string) : result (list Mutation) :=
  let arrs := (λ l, Str.split_on tab (Str.rstrip l)) <$> uncommented f in
  for_each arrs (λ arr,
    a0 ← index arr 0;
    for_each (drop 1 arr) (λ cna,
      g ← index (Str.split_on lparen cna) 0;
      ty ← get_mut_type cna;
      Ok [mkMutation a0 g ty])).

Definition fusions (f : list string) : result (list Fusion) :=
  let arrs := Str.split <$> uncommented f in
  for_each arrs (λ arr,
    match take 4 arr with
    | [a0; a1; a2] => Ok [mkFusion a0 (a1, a2)]
    | _ => Raise TypeError
    end).

End Unfiltered.

(** * Vocabulary of the statements

    The bodies of the comprehensions, named so that lemmas can speak of one
    line or one token, and the notions the statements are phrased with. *)

(** The body of the comprehension of [load_fusions] on a line of three
    fields. *)
Definition fusion_item (gene_wlst sample_wlst : whitelist) (arr : list string)
  : result (list Fusion) :=
  keep ← include_fusion_star sample_wlst gene_wlst (take 4 arr);
  if keep : bool then
    a0 ← index arr 0; a1 ← index arr 1; a2 ← index arr 2;
    Ok [mkFusion a0 (a1, a2)]
  else Ok [].

(** [c in s] for a character [c]. *)
Fixpoint has_char (c : ascii) (s : string) : bool :=
  match s with
  | "" => false
  | String a s' => Ascii.eqb c a || has_char c s'
  end.

(** The gene of a CNA token: its text before the first parenthesis,
    [cna.split("(")[0]]. *)
Definition cna_gene (cna : string) : string :=
  match Str.split_on lparen cna with
  | g :: _ => g
  | [] => ""
  end.

(** The token written for gene [g] with an amplification or a deletion. *)
Definition cna_token (g : string) (ty : mut_type) : string :=
  g +:+ match ty with AMP => "(A)" | DEL => "(D)" | _ => "" end.

(** The body of the inner comprehension of [load_cnas]. *)
Definition cna_item (gene_wlst : whitelist) (a0 cna : string)
  : result (list Mutation) :=
  g ← index (Str.split_on lparen cna) 0;
  if include g gene_wlst then
    ty ← get_mut_type cna;
    Ok [mkMutation a0 g ty]
  else Ok [].

(** The body of the outer comprehension. *)
Definition cna_row (gene_wlst sample_wlst : whitelist) (arr : list string)
  : result (list Mutation) :=
  a0 ← index arr 0;
  if include a0 sample_wlst then for_each (drop 1 arr) (cna_item gene_wlst a0)
  else Ok [].

(** A well-formed CNA: an amplification or a deletion of a gene whose name
    has no parenthesis. *)
Definition cna_ok (c : string * mut_type) : Prop :=
  (c.2 = AMP ∨ c.2 = DEL) ∧ has_char lparen c.1 = false.

(** The Mutation of sample [s] for the CNA [c]. *)
Definition cna_mutation (s : string) (c : string * mut_type) : Mutation :=
  mkMutation s c.1 c.2.

(** The two indices that a line of an edge list refers to: its first two
    fields, read as integers. *)
Definition edge_indices (line : string) : option (Z * Z) :=
  match Str.split line with
  | a0 :: a1 :: _ =>
      match Str.int a0, Str.int a1 with
      | Some i, Some j => Some (i, j)
      | _, _ => None
      end
  | _ => None
  end.

(** The body of the generator of [load_ppi_edges]. *)
Definition ppi_item (index2gene : gmap Z string) (arr : list string)
  : result (string * string) :=
  a0 ← index arr 0; i ← int a0; g1 ← getitem index2gene i;
  a1 ← index arr 1; j ← int a1; g2 ← getitem index2gene j;
  Ok (g1, g2).

(** The scores of gene [g] in the merged mapping. *)
Definition merged_scores (gene2fm gene2cis_amp gene2cis_del : gmap string pynum)
    (g : string) : gmap string pynum :=
  {[ "del" := getdefault gene2cis_del g;
     "amp" := getdefault gene2cis_amp g;
     "fm" := getdefault gene2fm g ]}.

(** The names that occur in an edge list. *)
Definition endpoints (edges : list (string * string)) : gset string :=
  list_to_set (edges.*1) ∪ list_to_set (edges.*2).

(** The heat function named by the parameters of a JSON heat file. *)
Definition heat_fn_of (heat_params : json) : json := jget heat_params "heat_fn".

(** The document that [output_hotnet2_run] dumps as heat JSON when the heat
    did not come from a JSON file. *)
Definition heat_dict (heat : json) (heat_file : string) : json :=
  JObj [("heat", heat); ("parameters", JObj [("heat_file", JStr heat_file)])].

(** * Example inputs *)

(** Example files, written the way the package writes tab-separated
    lines: an SNV file, an inactivating SNV file, a CNA file and a fusion
    file of one line each. *)
Definition snv_example : list string :=
  write_components_as_tsv [["S1"; "G1"; "G2"]].
Definition inactivating_example : list string :=
  write_components_as_tsv [["G1"; "S1"]].
Definition cna_example : list string :=
  write_components_as_tsv [["S1"; "G1(A)"; "G2(D)"]].
Definition fusion_example : list string :=
  write_components_as_tsv [["S1"; "A"; "B"]].

(** A CNA file whose token has the suffix [(X)]. *)
Definition cna_bad_example : list string :=
  write_components_as_tsv [["S1"; "G3(X)"]].

(** An edge list with the edge between indices [0] and [1]. *)
Definition ppi_example : list string := write_components_as_tsv [["0"; "1"]].

(** Files of one line that begins with [#]: in the layout of a gene index,
    and in the layout of a heat file. *)
Definition comment_example : list string :=
  write_components_as_tsv [["#0"; "A"]].
Definition comment_heat_example : list string :=
  write_components_as_tsv [["#A"; "0.5"]].

(** The values of [float] on the strings of the examples. *)
Definition float_example (s : string) : option float :=
  if String.eqb s "0.5" then Some 0.5%float
  else if String.eqb s "0.25" then Some 0.25%float
  else None.

(** The line of [comment_heat_example]. *)
Definition comment_line : string := join_tab ["#A"; "0.5"] +:+ newline.

(** An fm score file (gene in the second column, score in the third) and a
    cis score file (gene first, score last). *)
Definition fm_example : list string :=
  write_components_as_tsv [["cohort"; "G1"; "0.5"]].
Definition cis_amp_example : list string :=
  write_components_as_tsv [["G2"; "0.25"]].

(** [np.zeros(shape)]. *)
Definition zeros (shape : list nat) : ndarray :=
  mkArray shape (replicate (foldr Nat.mul 1%nat shape) 0%float).

(** A bundle with three genes, one of them without an edge. *)
Definition net_isolated : hdf5 :=
  mkHdf5 ["A"; "B"; "C"] "example" [("A", "B")]
         {[ "PPR" := zeros [3; 3]%nat ]}.

(** A bundle whose edge list names exactly its nodes. *)
Definition net_connected : hdf5 :=
  mkHdf5 ["A"; "B"; "C"] "example" [("A", "B"); ("C", "A")]
         {[ "PPR" := zeros [3; 3]%nat ]}.

(** A bundle whose matrix is not square, with fewer node names than rows
    and an edge between names that are not node names. *)
Definition net_ragged : hdf5 :=
  mkHdf5 ["A"] "example" [("X", "Y")] {[ "PPR" := zeros [2; 3]%nat ]}.

(** A JSON heat file for mutation heat that names a sample type file. *)
Definition heat_doc (sample_type_file : json) : json :=
  JObj [("heat", JObj [("G1", JNum (PyFloat 0.5))]);
        ("parameters",
         JObj [("name", JStr "demo");
               ("heat_fn", JStr "load_mutation_heat");
               ("sample_file", JNull);
               ("gene_file", JNull);
               ("snv_file", JStr "snvs.tsv");
               ("cna_file", JStr "cnas.tsv");
               ("sample_type_file", sample_type_file)])].

(** The files of the example: the heat file (only [json.load] reads it, so
    its text is left out), the mutation files it names, and a sample type
    file. *)
Definition heat_fs (sample_type_file : json) : filesystem :=
  {[ "heat.json" := mkFile [] (Some (heat_doc sample_type_file));
     "snvs.tsv" := mkFile snv_example None;
     "cnas.tsv" := mkFile cna_example None;
     "types.tsv" := mkFile (write_components_as_tsv [["S1"; "Tumor"]]) None ]}.

(** * The other loaders and the writers *)

(** ** Text files *)

(** The text of a file opened with mode ['w'] after the given strings were
    written to it, in order. *)
Definition written (writes : list string) : string :=
  foldr String.append "" writes.

(** The lines that iterating over a file opened for reading yields for its
    text: a line ends with its newline, the last line ends with the text; a
    carriage return, alone or before a line feed, ends a line too and is read
    as the line feed (the universal newlines of [open]). *)
Fixpoint lines_of (text : string) : list string :=
  match text with
  | "" => []
  | String c rest =>
      if Ascii.eqb c "010" then newline :: lines_of rest
      else if Ascii.eqb c "013" then
        newline :: match rest with
                   | String d rest' =>
                       if Ascii.eqb d "010" then lines_of rest' else lines_of rest
                   | "" => lines_of rest
                   end
      else match lines_of rest with
           | [] => [String c ""]
           | l :: ls => String c l :: ls
           end
  end.

(** [write_gene_list] (lines 349-359): the strings it writes. *)
Definition write_gene_list (genelist : list string) : list string :=
  (λ gene, gene +:+ newline) <$> genelist.

(** ** Loaders of two columns *)

(** [load_sample_types] (lines 239-248). *)
Definition load_sample_types (type_file : list string) : result (gmap string string) :=
  let arrs := Str.split <$> type_file in
  dict_update ∅ arrs (λ arr,
    a0 ← index arr 0;
    a1 ← index arr 1;
    Ok (Some (a0, a1))).

(** [load_gene_lengths] (lines 93-103). *)
Definition load_gene_lengths (gene_lengths_file : list string) : result (gmap string Z) :=
  let arrs := Str.split <$> gene_lengths_file in
  dict_update ∅ arrs (λ arr,
    a0 ← index arr 0;
    a1 ← index arr 1;
    n ← int a1;
    Ok (Some (a0, n))).

(** [load_display_name_tsv] (lines 74-81): [dict] takes each item as a key
    and a value and raises [ValueError] for an item that is not of length
    two. *)
Definition load_display_name_tsv (d_name_file : list string)
  : result (gmap string string) :=
  dict_update ∅ d_name_file (λ l,
    match take 2 (Str.split_on tab l) with
    | [k; v] => Ok (Some (k, v))
    | _ => Raise ValueError
    end).

(** [arr[-k]] for [k >= 1]. *)
Definition index_back {A} (arr : list A) (k : nat) : result A :=
  if bool_decide (k ≤ length arr)%nat then index arr (length arr - k) else Raise IndexError.

(** The columns of a MuSiC score file (line 299). *)
Definition FDR_CT : nat := 12.
Definition FDR_LRT : nat := 11.
Definition FDR_FCPT : nat := 10.

Section MoreScores.

(** [float(s)], as for the loaders above. *)
Variable float_of : string → option float.

(** [load_display_score_tsv] (lines 63-72). *)
Definition load_display_score_tsv (d_score_file : list string)
  : result (gmap string float) :=
  let arrs := Str.split <$> d_score_file in
  dict_update ∅ arrs (λ arr,
    a0 ← index arr 0;
    a1 ← index arr 1;
    x ← to_float float_of a1;
    Ok (Some (a0, x))).

(** [load_gene_specific_bmrs] (lines 129-139). *)
Definition load_gene_specific_bmrs (bmr_file : list string)
  : result (gmap string float) :=
  let arrs := Str.split <$> bmr_file in
  dict_update ∅ arrs (λ arr,
    a0 ← index arr 0;
    a1 ← index arr 1;
    x ← to_float float_of a1;
    Ok (Some (a0, x))).

(** [load_mutsig_scores] (lines 291-296); what it prints is not modelled. *)
Definition load_mutsig_scores (scores_file : list string)
  : result (gmap string (gmap string float)) :=
  let arrs := (λ l, Str.split_on tab (Str.rstrip l)) <$> uncommented scores_file in
  dict_update ∅ arrs (λ arr,
    a0 ← index arr 0;
    p ← index_back arr 2;
    pval ← to_float float_of p;
    q ← index_back arr 1;
    qval ← to_float float_of q;
    Ok (Some (a0, {[ "pval" := pval; "qval" := qval ]}))).

(** [load_music_scores] (lines 301-316); what it prints is not modelled. *)
Definition load_music_scores (scores_file : list string)
  : result (gmap string (gmap string float)) :=
  let arrs := (λ l, Str.split_on tab (Str.rstrip l)) <$> uncommented scores_file in
  dict_update ∅ arrs (λ arr,
    a0 ← index arr 0;
    ct ← index arr FDR_CT;
    fdr_ct ← to_float float_of ct;
    fcpt ← index arr FDR_FCPT;
    fdr_fcpt ← to_float float_of fcpt;
    lrt ← index arr FDR_LRT;
    fdr_lrt ← to_float float_of lrt;
    Ok (Some (a0, {[ "FDR_CT" := fdr_ct; "FDR_FCPT" := fdr_fcpt;
                     "FDR_LRT" := fdr_lrt ]}))).

End MoreScores.

(** ** The network file *)

(** A network file as [h5py.File] shows it: the datasets ["nodes"] (an
    array of byte strings), ["network_name"] (a byte string) and ["edges"]
    (an array of pairs of byte strings), each present or not, and the numeric
    datasets under their names, which are other than these three. Byte strings
    are ASCII, so decoding them never fails; a dataset is read with its
    [value] attribute, which h5py has up to its version 2. *)
Record h5file : Type := mkH5 {
  f_nodes : option (list string);
  f_network_name : option string;
  f_edges : option (list (string * string));
  f_arrays : gmap string ndarray
}.

(** Whether [load_hdf5] reads the dataset [key]: [if keys] selects the keys
    of a list that is not empty, and every key otherwise. *)
Definition selected (keys : option (list string)) (key : string) : bool :=
  match keys with
  | Some (k :: ks) => bool_decide (key ∈ k :: ks)
  | _ => true
  end.

(** [load_hdf5] (lines 385-409): the dictionary of the selected datasets,
    then the three entries that are decoded, in the order ["nodes"],
    ["network_name"], ["edges"]. *)
Definition load_hdf5 (f : h5file) (keys : option (list string)) : result hdf5 :=
  let pick {A} (key : string) (v : option A) : result A :=
    match (if selected keys key then v else None) with
    | Some x => Ok x
    | None => Raise KeyError
    end in
  nodes ← pick "nodes" (f_nodes f);
  network_name ← pick "network_name" (f_network_name f);
  edges ← pick "edges" (f_edges f);
  Ok (mkHdf5 nodes network_name edges
             (filter (λ kv, selected keys kv.1 = true) (f_arrays f))).

(** [load_network] (lines 373-383) from the file on. *)
Definition load_network_file (f : h5file) (infmat_name : string)
  : result (ndarray * gmap nat string * Graph * string) :=
  H ← load_hdf5 f None;
  load_network H infmat_name.

(** * Vocabulary of the further statements *)

(** The test of the two whitelists on a mutation. *)
Definition passes (gene_wlst sample_wlst : whitelist) (m : Mutation) : bool :=
  include (sample m) sample_wlst && include (gene m) gene_wlst.

(** Whether a string has a whitespace character, and whether it has a line
    end. *)
Fixpoint has_space (s : string) : bool :=
  match s with
  | "" => false
  | String c s' => Str.isspace c || has_space s'
  end.

Fixpoint has_line_end (s : string) : bool :=
  match s with
  | "" => false
  | String c s' => Ascii.eqb c "010" || Ascii.eqb c "013" || has_line_end s'
  end.

(** A name that survives a whitespace-separated file: not empty and free of
    whitespace. *)
Definition word (s : string) : Prop := s ≠ "" ∧ has_space s = false.

(** The first two fields of a line, if it has two. *)
Definition two_fields (line : string) : option (string * string) :=
  match Str.split line with
  | a0 :: a1 :: _ => Some (a0, a1)
  | _ => None
  end.

(** What a line contributes to a dictionary of two columns: the entry of a
    gene index, of a table of names, of a table of lengths and of a table of
    scores. [None] when the line has fewer than two fields or its number
    cannot be read. *)
Definition index_entry (line : string) : option (Z * string) :=
  match Str.split line with
  | a0 :: a1 :: _ => (λ i, (i, a1)) <$> Str.int a0
  | _ => None
  end.

Definition length_entry (line : string) : option (string * Z) :=
  match Str.split line with
  | a0 :: a1 :: _ => (λ n, (a0, n)) <$> Str.int a1
  | _ => None
  end.

Definition score_entry (float_of : string → option float) (line : string)
  : option (string * float) :=
  match Str.split line with
  | a0 :: a1 :: _ => (λ x, (a0, x)) <$> float_of a1
  | _ => None
  end.

(** The entry of key [k] in a dictionary built from the items [xs] is the
    one of the last item that has an entry for [k]. *)
Definition last_entry {A K V} (entry : A → option (K * V)) (xs : list A)
    (k : K) (v : V) : Prop :=
  ∃ n x, xs !! n = Some x ∧ entry x = Some (k, v)
         ∧ ∀ j y v', (n < j)%nat → xs !! j = Some y → entry y ≠ Some (k, v').

(** The body of the generator of [load_index]. *)
Definition index_item (arr : list string) : result (Z * string) :=
  a0 ← index arr 0; i ← int a0; a1 ← index arr 1; Ok (i, a1).

(** The tab-separated columns of a line of a score file, after
    [l.rstrip()]. *)
Definition columns (line : string) : list string :=
  Str.split_on tab (Str.rstrip line).

(** The line of a table of names with key [k] and value [v]. *)
Definition name_line (kv : string * string) : string :=
  join_tab [kv.1; kv.2] +:+ newline.

(** * Further example inputs *)

(** A JSON heat file whose heat was not computed from mutations. *)
Definition plain_heat_fs : filesystem :=
  {[ "heat.json" :=
       mkFile [] (Some (JObj [("heat", JObj [("G1", JNum (PyFloat 0.5))]);
                              ("parameters",
                               JObj [("name", JStr "demo");
                                     ("heat_fn", JStr "load_direct_heat")])])) ]}.

(** A network file with three genes and two edges. *)
Definition net_file : h5file :=
  mkH5 (Some ["A"; "B"; "C"]) (Some "example") (Some [("A", "B"); ("C", "A")])
       {[ "PPR" := zeros [3; 3]%nat ]}.

(** * The heat JSON file of a run *)

(** Modelled from the documentation of Python's [json] library, which is not
    part of the repository: the file that [json.dump(obj, fp)] leaves behind,
    as [json.load] reads it. The document read back is [obj] itself: an object
    keeps its keys, which are strings here, a string its characters, an
    integer its value, and a float is written with [repr], the shortest text
    that [float] reads back to the same float (the infinities and NaN under
    the names [Infinity], [-Infinity] and [NaN]). The text, which depends on
    [indent], is left open. *)
Definition json_dump (obj : json) (text : list string) : file :=
  mkFile text (Some obj).

(** A gene-to-score dictionary as the JSON object of its items; a score is
    a Python number. *)
Definition heat_object (heat : gmap string pynum) : json :=
  JObj (map_to_list (JNum <$> heat)).

(** A score that is not negative ([0 <= x]), as the scores of a heat are;
    NaN is not among them. *)
Definition nonnegative (x : pynum) : bool :=
  match x with
  | PyInt z => 0 <=? z
  | PyFloat x => (0 <=? x)%float
  end.

(** The step of [output_hotnet2_run] (lines 505-510) for a heat that did not
    come from a JSON file: [heat_dict] is dumped to the heat file of the output
    directory, here [path]. *)
Definition write_heat_json (fs : filesystem) (path : string) (text : list string)
    (heat : gmap string pynum) (heat_file : string) : filesystem :=
  <[path := json_dump (heat_dict (heat_object heat) heat_file) text]> fs.

(** * Properties *)

(** Closed decidable facts (membership in a concrete set, equality of
    concrete maps) are settled by evaluation. *)
Ltac by_compute := apply (bool_decide_unpack _); vm_compute; exact I.

(** ** Comprehensions *)

Lemma for_each_ext {A B} (xs : list A) (f g : A → result (list B)) :
  (∀ x, x ∈ xs → f x = g x) → for_each xs f = for_each xs g.
Proof.
  induction xs as [|x xs IH]; intros Hfg; simpl; [done|].
  rewrite (Hfg x) by apply list_elem_of_here.
  rewrite IH; [done|]. intros y Hy. apply Hfg. by apply list_elem_of_further.
Qed.

Lemma for_each_app {A B} (xs ys : list A) (f : A → result (list B)) :
  for_each (xs ++ ys) f =
  (r1 ← for_each xs f; r2 ← for_each ys f; Ok (r1 ++ r2)).
Proof.
  induction xs as [|x xs IH]; simpl.
  - by destruct (for_each ys f).
  - destruct (f x) as [r|e]; simpl; [|done]. rewrite IH.
    destruct (for_each xs f) as [r1|e1]; simpl; [|done].
    destruct (for_each ys f) as [r2|e2]; simpl; [|done].
    by rewrite app_assoc.
Qed.

(** A comprehension whose body never raises returns. *)
Lemma for_each_total {A B} (xs : list A) (f : A → result (list B)) :
  (∀ x, x ∈ xs → is_ok (f x) = true) → is_ok (for_each xs f) = true.
Proof.
  induction xs as [|x xs IH]; intros Hf; simpl; [done|].
  pose proof (Hf x (list_elem_of_here _ _)) as Hx.
  destruct (f x) as [r|e]; simpl in *; [|done].
  assert (is_ok (for_each xs f) = true) as Hxs.
  { apply IH. intros y Hy. apply Hf. by apply list_elem_of_further. }
  by destruct (for_each xs f).
Qed.

(** A comprehension raises the exception of the first item whose body
    raises. *)
Lemma for_each_raise {A B} (xs ys : list A) (x : A) (e : exn)
    (f : A → result (list B)) :
  (∀ y, y ∈ xs → is_ok (f y) = true) → f x = Raise e →
  for_each (xs ++ x :: ys) f = Raise e.
Proof.
  intros Hxs Hx. rewrite for_each_app. simpl. rewrite Hx.
  apply for_each_total in Hxs. by destruct (for_each xs f).
Qed.

(** ** Whitelists *)

Lemma truthy_empty : truthy (Some ∅) = false.
Proof. unfold truthy. apply bool_decide_eq_false. intros H. by apply H. Qed.

Lemma include_none item : include item None = true.
Proof. done. Qed.

Lemma include_empty item : include item (Some ∅) = true.
Proof. unfold include. by rewrite truthy_empty. Qed.

Lemma include_fusion_empty_sample gw s g1 g2 :
  include_fusion (Some ∅) gw s g1 g2 = include_fusion None gw s g1 g2.
Proof. unfold include_fusion. by rewrite truthy_empty. Qed.

Lemma include_fusion_empty_gene sw s g1 g2 :
  include_fusion sw (Some ∅) s g1 g2 = include_fusion sw None s g1 g2.
Proof. unfold include_fusion. by rewrite truthy_empty. Qed.

Lemma include_fusion_star_empty_sample gw args :
  include_fusion_star (Some ∅) gw args = include_fusion_star None gw args.
Proof.
  destruct args as [|s [|g1 [|g2 [|]]]]; simpl;
    auto using include_fusion_empty_sample.
Qed.

Lemma include_fusion_star_empty_gene sw args :
  include_fusion_star sw (Some ∅) args = include_fusion_star sw None args.
Proof.
  destruct args as [|s [|g1 [|g2 [|]]]]; simpl;
    auto using include_fusion_empty_gene.
Qed.

(** ** An absent or empty whitelist filters nothing *)

Lemma load_snvs_unfiltered f : load_snvs f None None = Unfiltered.snvs f.
Proof. reflexivity. Qed.

Lemma load_inactivating_snvs_unfiltered f :
  load_inactivating_snvs f None None = Unfiltered.inactivating_snvs f.
Proof. reflexivity. Qed.

Lemma load_cnas_unfiltered f : load_cnas f None None = Unfiltered.cnas f.
Proof. reflexivity. Qed.

Lemma load_fusions_unfiltered f : load_fusions f None None = Unfiltered.fusions f.
Proof.
  unfold load_fusions, Unfiltered.fusions. apply for_each_ext. intros arr _.
  destruct arr as [|a0 [|a1 [|a2 [|a3 arr]]]]; reflexivity.
Qed.

Lemma load_snvs_empty f w :
  load_snvs f (Some ∅) w = load_snvs f None w
  ∧ load_snvs f w (Some ∅) = load_snvs f w None.
Proof. split; reflexivity. Qed.

Lemma load_inactivating_snvs_empty f w :
  load_inactivating_snvs f (Some ∅) w = load_inactivating_snvs f None w
  ∧ load_inactivating_snvs f w (Some ∅) = load_inactivating_snvs f w None.
Proof. split; reflexivity. Qed.

Lemma load_cnas_empty f w :
  load_cnas f (Some ∅) w = load_cnas f None w
  ∧ load_cnas f w (Some ∅) = load_cnas f w None.
Proof. split; reflexivity. Qed.

Lemma load_fusions_empty f w :
  load_fusions f (Some ∅) w = load_fusions f None w
  ∧ load_fusions f w (Some ∅) = load_fusions f w None.
Proof.
  split; unfold load_fusions; apply for_each_ext; intros arr _.
  - by rewrite include_fusion_star_empty_gene.
  - by rewrite include_fusion_star_empty_sample.
Qed.

(** C1: at an empty whitelist the four loaders depart from their docstrings
    ("Genes not in this list will be ignored. If None, all mutated genes will
    be included."), by which only [None] turns the filter off: with an empty
    gene whitelist and an empty sample whitelist each of them returns every
    record of its file, not the empty list. [include] and [include_fusion]
    test the truth value of the whitelist, and an empty set is false. *)
Lemma empty_whitelist_keeps_everything :
  load_snvs snv_example (Some ∅) (Some ∅)
    = Ok [mkMutation "S1" "G1" SNV; mkMutation "S1" "G2" SNV]
  ∧ load_inactivating_snvs inactivating_example (Some ∅) (Some ∅)
    = Ok [mkMutation "S1" "G1" INACTIVE_SNV]
  ∧ load_cnas cna_example (Some ∅) (Some ∅)
    = Ok [mkMutation "S1" "G1" AMP; mkMutation "S1" "G2" DEL]
  ∧ load_fusions fusion_example (Some ∅) (Some ∅)
    = Ok [mkFusion "S1" ("A", "B")].
Proof. repeat split; vm_compute; reflexivity. Qed.

(** The extent of that departure, for each of [load_snvs],
    [load_inactivating_snvs], [load_cnas] and [load_fusions] and every file:
    the call with both whitelists [None] is the loader with no filter at all,
    as the docstrings say, and an empty whitelist in either position gives the
    result of [None] in that position, whatever the other whitelist is, where
    the docstrings ask for the empty result. *)
Theorem whitelist_none_or_empty_filters_nothing (f : list string) (w : whitelist) :
  (load_snvs f None None = Unfiltered.snvs f
   ∧ load_snvs f (Some ∅) w = load_snvs f None w
   ∧ load_snvs f w (Some ∅) = load_snvs f w None)
  ∧ (load_inactivating_snvs f None None = Unfiltered.inactivating_snvs f
     ∧ load_inactivating_snvs f (Some ∅) w = load_inactivating_snvs f None w
     ∧ load_inactivating_snvs f w (Some ∅) = load_inactivating_snvs f w None)
  ∧ (load_cnas f None None = Unfiltered.cnas f
     ∧ load_cnas f (Some ∅) w = load_cnas f None w
     ∧ load_cnas f w (Some ∅) = load_cnas f w None)
  ∧ (load_fusions f None None = Unfiltered.fusions f
     ∧ load_fusions f (Some ∅) w = load_fusions f None w
     ∧ load_fusions f w (Some ∅) = load_fusions f w None).
Proof.
  repeat split;
    first [ apply load_snvs_unfiltered | apply load_inactivating_snvs_unfiltered
          | apply load_cnas_unfiltered | apply load_fusions_unfiltered
          | apply load_snvs_empty | apply load_inactivating_snvs_empty
          | apply load_cnas_empty | apply load_fusions_empty ].
Qed.

(** ** Lines of a file and items of a comprehension *)

Lemma uncommented_elem (f : list string) (l : string) :
  l ∈ f → Str.startswith "#" l = false → l ∈ uncommented f.
Proof.
  intros Hl Hc. apply list_elem_of_In, filter_In. split.
  - by apply list_elem_of_In.
  - by rewrite Hc.
Qed.

Lemma uncommented_app (f1 f2 : list string) :
  uncommented (f1 ++ f2) = uncommented f1 ++ uncommented f2.
Proof. apply List.filter_app. Qed.

Lemma for_each_not_ok {A B} (xs : list A) (f : A → result (list B)) x e :
  x ∈ xs → f x = Raise e → is_ok (for_each xs f) = false.
Proof.
  intros Hx Hfx. apply list_elem_of_split in Hx as (xs1 & xs2 & ->).
  rewrite for_each_app. simpl. rewrite Hfx.
  by destruct (for_each xs1 f).
Qed.

Lemma for_each_elem {A B} (xs : list A) (f : A → result (list B)) r x ys y :
  for_each xs f = Ok r → x ∈ xs → f x = Ok ys → y ∈ ys → y ∈ r.
Proof.
  intros Hr Hx Hfx Hy. apply list_elem_of_split in Hx as (xs1 & xs2 & ->).
  rewrite for_each_app in Hr. simpl in Hr. rewrite Hfx in Hr.
  destruct (for_each xs1 f) as [r1|]; simpl in Hr; [|done].
  destruct (for_each xs2 f) as [r2|]; simpl in Hr; [|done].
  injection Hr as <-. rewrite !elem_of_app. auto.
Qed.

(** ** Fusions and the gene whitelist *)

Lemma include_fusion_cases sw gw s g1 g2 :
  include_fusion sw gw s g1 g2 =
  if negb (include s sw) then Ok false
  else if negb (truthy gw) then Ok true
  else match mem g1 gw, mem g2 gw with
       | true, true => Ok true
       | false, false => Ok false
       | _, _ => Raise ValueError
       end.
Proof.
  unfold include_fusion, include.
  by destruct (truthy sw), (mem s sw), (truthy gw), (mem g1 gw), (mem g2 gw).
Qed.

Lemma truthy_nonempty (s : gset string) : s ≠ ∅ → truthy (Some s) = true.
Proof. intros Hs. by apply bool_decide_eq_true. Qed.

Lemma load_fusions_items f gw sw :
  load_fusions f gw sw = for_each (Str.split <$> uncommented f) (fusion_item gw sw).
Proof. reflexivity. Qed.

Lemma fusion_item_three gw sw s g1 g2 :
  include s sw = true →
  fusion_item gw sw [s; g1; g2] =
  if negb (truthy gw) then Ok [mkFusion s (g1, g2)]
  else match mem g1 gw, mem g2 gw with
       | true, true => Ok [mkFusion s (g1, g2)]
       | false, false => Ok []
       | _, _ => Raise ValueError
       end.
Proof.
  intros Hs. unfold fusion_item. simpl. rewrite include_fusion_cases, Hs. simpl.
  by destruct (truthy gw), (mem g1 gw), (mem g2 gw).
Qed.

(** C2: take a file with a fusion line [(sample, gene1, gene2)] whose sample
    passes the sample whitelist, and a non-empty gene whitelist. If exactly
    one of the two genes is in the whitelist, [load_fusions] raises (a
    [ValueError] when the line is the whole file). If both are, the fusion is
    in every result returned, and the line alone loads without an error. With
    no gene whitelist the line loads without an error. *)
Theorem load_fusions_gene_whitelist (f : list string) (line s g1 g2 : string)
    (gw : gset string) (sw : whitelist) :
  line ∈ f → Str.startswith "#" line = false → Str.split line = [s; g1; g2] →
  gw ≠ ∅ → include s sw = true →
  ((g1 ∈ gw ∧ g2 ∉ gw) ∨ (g2 ∈ gw ∧ g1 ∉ gw) →
     is_ok (load_fusions f (Some gw) sw) = false
     ∧ load_fusions [line] (Some gw) sw = Raise ValueError)
  ∧ (g1 ∈ gw → g2 ∈ gw →
     (∀ r, load_fusions f (Some gw) sw = Ok r → mkFusion s (g1, g2) ∈ r)
     ∧ load_fusions [line] (Some gw) sw = Ok [mkFusion s (g1, g2)])
  ∧ load_fusions [line] None sw = Ok [mkFusion s (g1, g2)].
Proof.
  intros Hline Hc Hsplit Hgw Hs.
  assert (Str.split line ∈ Str.split <$> uncommented f) as Harr.
  { apply list_elem_of_fmap_2. by apply uncommented_elem. }
  assert (uncommented [line] = [line]) as Hone.
  { unfold uncommented. cbn [List.filter]. by rewrite Hc. }
  pose proof (fusion_item_three (Some gw) sw s g1 g2 Hs) as Hitem.
  rewrite truthy_nonempty in Hitem by done. simpl in Hitem.
  rewrite !load_fusions_items, Hone. simpl. rewrite Hsplit in *.
  split; [|split].
  - intros Hxor.
    assert (fusion_item (Some gw) sw [s; g1; g2] = Raise ValueError) as Hraise.
    { rewrite Hitem.
      destruct Hxor as [[H1 H2]|[H2 H1]].
      - by rewrite (bool_decide_eq_true_2 (g1 ∈ gw)),
             (bool_decide_eq_false_2 (g2 ∈ gw)).
      - by rewrite (bool_decide_eq_true_2 (g2 ∈ gw)),
             (bool_decide_eq_false_2 (g1 ∈ gw)). }
    split.
    + eapply for_each_not_ok; eauto.
    + by rewrite Hraise.
  - intros H1 H2.
    assert (fusion_item (Some gw) sw [s; g1; g2] = Ok [mkFusion s (g1, g2)])
      as Hok.
    { rewrite Hitem.
      by rewrite (bool_decide_eq_true_2 (g1 ∈ gw)),
           (bool_decide_eq_true_2 (g2 ∈ gw)). }
    split.
    + intros r Hr. eapply for_each_elem; eauto. apply list_elem_of_here.
    + by rewrite Hok.
  - by rewrite (fusion_item_three None sw s g1 g2 Hs).
Qed.

(** The fusion [(A, B)] of sample [S1]: an error with the whitelist [{A}],
    loaded with the whitelist [{A, B}] and with none. *)
Lemma load_fusions_gene_whitelist_example :
  (is_ok (load_fusions fusion_example (Some {["A"]}) None) = false
   ∧ load_fusions fusion_example (Some {["A"]}) None = Raise ValueError)
  ∧ load_fusions fusion_example (Some {["A"; "B"]}) None
    = Ok [mkFusion "S1" ("A", "B")]
  ∧ load_fusions fusion_example None None = Ok [mkFusion "S1" ("A", "B")].
Proof.
  pose proof (load_fusions_gene_whitelist fusion_example
                (join_tab ["S1"; "A"; "B"] +:+ newline) "S1" "A" "B") as H.
  assert (join_tab ["S1"; "A"; "B"] +:+ newline ∈ fusion_example) as Hin
    by apply list_elem_of_here.
  assert (({["A"]} : gset string) ≠ ∅) as HA by by_compute.
  assert (({["A"; "B"]} : gset string) ≠ ∅) as HAB by by_compute.
  split; [|split].
  - apply (H {["A"]} None Hin eq_refl eq_refl HA eq_refl).
    left. split; by_compute.
  - apply (H {["A"; "B"]} None Hin eq_refl eq_refl HAB eq_refl); by_compute.
  - apply (H {["A"]} None Hin eq_refl eq_refl HA eq_refl).
Defined.

(** ** Facts about strings *)

Lemma app_nil (t : string) : "" +:+ t = t.
Proof. reflexivity. Qed.

Lemma app_cons (a : ascii) (s t : string) : String a s +:+ t = String a (s +:+ t).
Proof. reflexivity. Qed.

Lemma length_app (s t : string) :
  String.length (s +:+ t) = (String.length s + String.length t)%nat.
Proof.
  induction s as [|a s IH]; [done|]. rewrite app_cons. simpl. by rewrite IH.
Qed.

Lemma endswith_app (suf g : string) : Str.endswith suf (g +:+ suf) = true.
Proof.
  induction g as [|a g IH]; rewrite ?app_nil, ?app_cons.
  - destruct suf; simpl; [done|]. by rewrite Ascii.eqb_refl, String.eqb_refl.
  - cbn [Str.endswith]. rewrite IH. apply orb_true_r.
Qed.

Lemma endswith_inv (suf s : string) :
  Str.endswith suf s = true → ∃ p, s = p +:+ suf.
Proof.
  induction s as [|a s IH].
  - destruct suf; simpl; [by exists ""|done].
  - cbn [Str.endswith]. intros [->%String.eqb_eq|H]%orb_true_iff.
    + by exists "".
    + destruct (IH H) as [p ->]. by exists (String a p).
Qed.

Lemma app_inj_suffix (p q s t : string) :
  String.length s = String.length t → p +:+ s = q +:+ t → s = t.
Proof.
  intros Hlen. revert q.
  induction p as [|a p IH]; intros [|b q] H;
    rewrite ?app_nil, ?app_cons in H.
  - done.
  - apply (f_equal String.length) in H. simpl in H. rewrite length_app in H. lia.
  - apply (f_equal String.length) in H. simpl in H. rewrite length_app in H. lia.
  - injection H as _ H. eauto.
Qed.

(** A string has at most one suffix of a given length. *)
Lemma endswith_other (suf suf' g : string) :
  String.length suf = String.length suf' → suf ≠ suf' →
  Str.endswith suf (g +:+ suf') = false.
Proof.
  intros Hlen Hne. destruct (Str.endswith suf (g +:+ suf')) eqn:E; [|done].
  apply endswith_inv in E as [p E]. apply app_inj_suffix in E; [|done].
  by subst.
Qed.

Lemma split_by_nonempty sep s : ∃ piece rest, Str.split_by sep s = piece :: rest.
Proof.
  destruct s as [|c s]; simpl; [eauto|].
  destruct (sep c); [eauto|]. destruct (Str.split_by sep s); eauto.
Qed.

(** The first piece of [g + c + rest] split on [c] is [g] when [c] is not
    in [g]. *)
Lemma split_on_first (c : ascii) (g rest : string) :
  has_char c g = false →
  ∃ pieces, Str.split_on c (g +:+ String c rest) = g :: pieces.
Proof.
  unfold Str.split_on.
  induction g as [|a g IH]; rewrite ?app_nil, ?app_cons; simpl.
  - intros _. rewrite Ascii.eqb_refl. eauto.
  - intros [Ha Hg]%orb_false_iff. rewrite Ha.
    destruct (IH Hg) as [pieces ->]. eauto.
Qed.

(** [load_snvs] never raises: a line always has a first field. *)
Lemma load_snvs_total f gw sw : is_ok (load_snvs f gw sw) = true.
Proof.
  unfold load_snvs. apply for_each_total.
  intros arr (l & -> & _)%list_elem_of_fmap. unfold Str.split_on.
  destruct (split_by_nonempty (Ascii.eqb tab) (Str.rstrip l)) as (a0 & rest & ->).
  simpl. destruct (include a0 sw); [|done].
  apply for_each_total. intros gene _. by destruct (include gene gw).
Qed.

(** ** Copy-number alterations *)

Lemma index_cna_gene cna : index (Str.split_on lparen cna) 0 = Ok (cna_gene cna).
Proof.
  unfold cna_gene, Str.split_on.
  by destruct (split_by_nonempty (Ascii.eqb lparen) cna) as (g & rest & ->).
Qed.

Lemma cna_token_gene g ty :
  ty = AMP ∨ ty = DEL → has_char lparen g = false →
  cna_gene (cna_token g ty) = g.
Proof.
  intros Hty Hg. unfold cna_gene, cna_token.
  destruct Hty as [-> | ->].
  - destruct (split_on_first lparen g "A)" Hg) as [pieces Hp].
    change (String lparen "A)") with "(A)" in Hp. by rewrite Hp.
  - destruct (split_on_first lparen g "D)" Hg) as [pieces Hp].
    change (String lparen "D)") with "(D)" in Hp. by rewrite Hp.
Qed.

Lemma cna_token_type g ty :
  ty = AMP ∨ ty = DEL → get_mut_type (cna_token g ty) = Ok ty.
Proof.
  unfold get_mut_type, cna_token. intros [-> | ->].
  - by rewrite endswith_app.
  - by rewrite (endswith_other "(A)" "(D)"), endswith_app.
Qed.

Lemma load_cnas_rows f gw sw :
  load_cnas f gw sw =
  for_each ((λ l, Str.split_on tab (Str.rstrip l)) <$> uncommented f) (cna_row gw sw).
Proof. reflexivity. Qed.

Lemma cna_item_cases gw a0 cna :
  cna_item gw a0 cna =
  if include (cna_gene cna) gw then
    ty ← get_mut_type cna; Ok [mkMutation a0 (cna_gene cna) ty]
  else Ok [].
Proof. unfold cna_item. by rewrite index_cna_gene. Qed.

Lemma for_each_raise_inv {A B} (xs : list A) (f : A → result (list B)) e :
  for_each xs f = Raise e → ∃ x, x ∈ xs ∧ f x = Raise e.
Proof.
  induction xs as [|x xs IH]; simpl; [done|].
  destruct (f x) as [ys|e'] eqn:E; simpl.
  - destruct (for_each xs f) as [zs|e''] eqn:E'; simpl; [done|].
    intros [= ->]. destruct IH as (y & Hy & Hfy); [done|].
    exists y. split; [by apply list_elem_of_further|done].
  - intros [= ->]. exists x. split; [apply list_elem_of_here|done].
Qed.

(** The only exception of [load_cnas] is the [ValueError] of
    [get_mut_type]. *)
Lemma load_cnas_raises f gw sw e : load_cnas f gw sw = Raise e → e = ValueError.
Proof.
  rewrite load_cnas_rows. intros (arr & Harr & Hrow)%for_each_raise_inv.
  apply list_elem_of_fmap in Harr as (l & -> & _).
  unfold cna_row in Hrow.
  destruct (split_by_nonempty (Ascii.eqb tab) (Str.rstrip l)) as (a0 & rest & Hs).
  unfold Str.split_on in Hrow. rewrite Hs in Hrow. simpl in Hrow.
  destruct (include a0 sw); [|done].
  apply for_each_raise_inv in Hrow as (cna & _ & Hitem).
  rewrite cna_item_cases in Hitem.
  destruct (include (cna_gene cna) gw); [|done].
  unfold get_mut_type in Hitem.
  destruct (Str.endswith "(A)" cna); [done|].
  destruct (Str.endswith "(D)" cna); [done|].
  by injection Hitem.
Qed.

Lemma uncommented_one (line : string) :
  Str.startswith "#" line = false → uncommented [line] = [line].
Proof. intros Hc. unfold uncommented. cbn [List.filter]. by rewrite Hc. Qed.

Lemma not_ok_raise {A} (r : result A) : is_ok r = false → ∃ e, r = Raise e.
Proof. destruct r; [done|eauto]. Qed.

Lemma for_each_cna_tokens (s : string) (cnas : list (string * mut_type)) :
  Forall cna_ok cnas →
  for_each ((λ c, cna_token c.1 c.2) <$> cnas) (cna_item None s)
  = Ok (cna_mutation s <$> cnas).
Proof.
  induction 1 as [|[g ty] cnas [Hty Hg] _ IH]; [done|].
  cbn [fmap list_fmap for_each fst snd]. simpl in Hty, Hg.
  change (list_fmap _ _ ?f cnas) with (f <$> cnas). rewrite IH.
  rewrite cna_item_cases, include_none.
  by rewrite (cna_token_type g ty Hty), (cna_token_gene g ty Hty Hg).
Qed.

Lemma cna_item_bad gw s bad :
  Str.endswith "(A)" bad = false → Str.endswith "(D)" bad = false →
  include (cna_gene bad) gw = true → cna_item gw s bad = Raise ValueError.
Proof.
  intros HA HD Hinc. rewrite cna_item_cases, Hinc.
  unfold get_mut_type. by rewrite HA, HD.
Qed.

(** *** A line written as tab-separated fields *)

Lemma rstrip_newline (x : string) : Str.rstrip (x +:+ newline) = Str.rstrip x.
Proof.
  induction x as [|c x IH]; [done|].
  rewrite app_cons. cbn [Str.rstrip]. by rewrite IH.
Qed.

Lemma app_assoc_str (a b c : string) : (a +:+ b) +:+ c = a +:+ (b +:+ c).
Proof. induction a as [|x a IH]; [done|]. by rewrite !app_cons, IH. Qed.

Lemma app_not_empty (a b : string) : b ≠ "" → a +:+ b ≠ "".
Proof. destruct a; [done|]. by rewrite app_cons. Qed.

(** Text that ends in a part without trailing whitespace has none. *)
Lemma rstrip_app_fixed (a b : string) :
  Str.rstrip b = b → b ≠ "" → Str.rstrip (a +:+ b) = a +:+ b.
Proof.
  intros Hb Hne. induction a as [|c a IH]; [done|].
  rewrite app_cons. cbn [Str.rstrip]. rewrite IH.
  pose proof (app_not_empty a b Hne). by destruct (a +:+ b).
Qed.

Lemma has_char_app (c : ascii) (a b : string) :
  has_char c (a +:+ b) = has_char c a || has_char c b.
Proof.
  induction a as [|x a IH]; [done|].
  rewrite app_cons. simpl. by rewrite IH, orb_assoc.
Qed.

Lemma split_on_none (c : ascii) (x : string) :
  has_char c x = false → Str.split_on c x = [x].
Proof.
  unfold Str.split_on. induction x as [|a x IH]; simpl; [done|].
  intros [Ha Hx]%orb_false_iff. by rewrite Ha, IH.
Qed.

Lemma split_on_app (c : ascii) (x rest : string) :
  has_char c x = false →
  Str.split_on c (x +:+ String c rest) = x :: Str.split_on c rest.
Proof.
  unfold Str.split_on.
  induction x as [|a x IH]; rewrite ?app_nil, ?app_cons; simpl.
  - intros _. by rewrite Ascii.eqb_refl.
  - intros [Ha Hx]%orb_false_iff. by rewrite Ha, IH.
Qed.

(** Splitting the joined fields gives the fields back. *)
Lemma split_join_tab (x : string) (fields : list string) :
  Forall (λ y, has_char tab y = false) (x :: fields) →
  Str.split_on tab (join_tab (x :: fields)) = x :: fields.
Proof.
  revert x. induction fields as [|y fields IH]; intros x Hall.
  - apply split_on_none. by inversion Hall.
  - inversion Hall as [|? ? Hx Hrest]; subst.
    change (join_tab (x :: y :: fields))
      with (x +:+ String tab (join_tab (y :: fields))).
    by rewrite split_on_app, IH.
Qed.

(** Joined fields have no trailing whitespace when the fields after the
    first have none and are not empty. *)
Lemma rstrip_join_tab (x y : string) (fields : list string) :
  Forall (λ t, Str.rstrip t = t ∧ t ≠ "") (y :: fields) →
  Str.rstrip (join_tab (x :: y :: fields)) = join_tab (x :: y :: fields)
  ∧ join_tab (x :: y :: fields) ≠ "".
Proof.
  revert x y. induction fields as [|z fields IH]; intros x y Hall;
    inversion Hall as [|? ? [Hy Hne] Hrest]; subst.
  - change (join_tab [x; y]) with (x +:+ String tab y).
    assert (Str.rstrip (String tab y) = String tab y) as Hty.
    { cbn [Str.rstrip]. rewrite Hy. by destruct y. }
    split; [by apply rstrip_app_fixed|by apply app_not_empty].
  - change (join_tab (x :: y :: z :: fields))
      with (x +:+ String tab (join_tab (y :: z :: fields))).
    destruct (IH y z Hrest) as [Hfix Hne'].
    assert (Str.rstrip (String tab (join_tab (y :: z :: fields)))
            = String tab (join_tab (y :: z :: fields))) as Hty.
    { cbn [Str.rstrip]. rewrite Hfix. by destruct (join_tab (y :: z :: fields)). }
    split; [by apply rstrip_app_fixed|by apply app_not_empty].
Qed.

Lemma startswith_hash_app (s rest : string) :
  Str.startswith "#" s = false → Str.startswith "#" (s +:+ String tab rest) = false.
Proof.
  destruct s as [|a s]; [done|]. rewrite app_cons. cbn [Str.startswith].
  destruct (Ascii.eqb "#" a); [|done]. by destruct s.
Qed.

Lemma cna_token_fixed g ty :
  ty = AMP ∨ ty = DEL →
  Str.rstrip (cna_token g ty) = cna_token g ty ∧ cna_token g ty ≠ "".
Proof.
  unfold cna_token.
  intros [-> | ->]; (split; [by apply rstrip_app_fixed|by apply app_not_empty]).
Qed.

(** The fields of the line written for sample [s] and one or more CNAs. *)
Lemma cna_line_fields (s : string) (cnas : list (string * mut_type)) :
  cnas ≠ [] → has_char tab s = false → Str.startswith "#" s = false →
  Forall cna_ok cnas → Forall (λ c, has_char tab c.1 = false) cnas →
  let line := join_tab (s :: ((λ c, cna_token c.1 c.2) <$> cnas)) +:+ newline in
  Str.startswith "#" line = false
  ∧ Str.split_on tab (Str.rstrip line) = s :: ((λ c, cna_token c.1 c.2) <$> cnas).
Proof.
  intros Hne Hs Hc Hok Htab. destruct cnas as [|c cnas]; [done|].
  cbn [fmap list_fmap]. change (list_fmap _ _ ?f cnas) with (f <$> cnas).
  set (toks := (λ c, cna_token c.1 c.2) <$> cnas).
  split.
  - change (join_tab (s :: cna_token c.1 c.2 :: toks))
      with (s +:+ String tab (join_tab (cna_token c.1 c.2 :: toks))).
    rewrite app_assoc_str, app_cons. by apply startswith_hash_app.
  - rewrite rstrip_newline.
    destruct (rstrip_join_tab s (cna_token c.1 c.2) toks) as [-> _].
    { change (Forall (λ t, Str.rstrip t = t ∧ t ≠ "")
                ((λ c, cna_token c.1 c.2) <$> c :: cnas)).
      apply Forall_fmap. eapply Forall_impl; [exact Hok|].
      intros [g ty] [Hty _]. by apply cna_token_fixed. }
    apply split_join_tab. constructor; [done|].
    change (Forall (λ y, has_char tab y = false)
              ((λ c, cna_token c.1 c.2) <$> c :: cnas)).
    apply Forall_fmap. eapply Forall_impl.
    { apply Forall_and. split; [exact Hok|exact Htab]. }
    intros [g ty] [[Hty _] Hg]. simpl in *. unfold cna_token.
    rewrite has_char_app, Hg. by destruct Hty as [-> | ->].
Qed.

(** *** The claim *)

Lemma load_cnas_fields (line s : string) (cnas : list (string * mut_type)) :
  Str.startswith "#" line = false →
  Str.split_on tab (Str.rstrip line) = s :: ((λ c, cna_token c.1 c.2) <$> cnas) →
  Forall cna_ok cnas →
  load_cnas [line] None None = Ok (cna_mutation s <$> cnas).
Proof.
  intros Hc Hsplit Hok. rewrite load_cnas_rows, uncommented_one by done.
  cbn [fmap list_fmap for_each]. rewrite Hsplit.
  unfold cna_row. cbn [index lookup list_lookup mbind result_bind skipn].
  rewrite include_none, drop_0, for_each_cna_tokens by done.
  simpl. by rewrite app_nil_r.
Qed.

(** C6: for every line of a CNA file that is not a comment:
    - if its fields are a sample [s] and tokens [g(A)] or [g(D)], the gene
      names [g] free of parentheses, then with no whitelists the line loads
      as one Mutation per token, in order, of sample [s] and gene [g] (the
      suffix stripped), of type AMP for [(A)] and DEL for [(D)];
    - such are the fields of the line written as the sample, a tab before
      each token and a newline, when the sample and the genes have no tab;
    - if one of its tokens ends neither in [(A)] nor in [(D)], and the
      whitelists (if any) let the sample and the token through, then
      [load_cnas] on a file with this line raises [ValueError]: the token is
      neither given a type nor skipped. *)
Theorem load_cnas_tokens (f : list string) (line s bad : string)
    (cnas : list (string * mut_type)) (toks : list string) (gw sw : whitelist) :
  Str.startswith "#" line = false →
  (Str.split_on tab (Str.rstrip line) = s :: ((λ c, cna_token c.1 c.2) <$> cnas) →
   Forall cna_ok cnas →
   load_cnas [line] None None = Ok (cna_mutation s <$> cnas))
  ∧ (cnas ≠ [] → has_char tab s = false → Str.startswith "#" s = false →
     Forall cna_ok cnas → Forall (λ c, has_char tab c.1 = false) cnas →
     load_cnas [join_tab (s :: ((λ c, cna_token c.1 c.2) <$> cnas)) +:+ newline]
               None None
     = Ok (cna_mutation s <$> cnas))
  ∧ (line ∈ f → Str.split_on tab (Str.rstrip line) = s :: toks → bad ∈ toks →
     Str.endswith "(A)" bad = false → Str.endswith "(D)" bad = false →
     include s sw = true → include (cna_gene bad) gw = true →
     load_cnas f gw sw = Raise ValueError).
Proof.
  intros Hc. split; [|split].
  - by apply load_cnas_fields.
  - intros Hne Hs Hcs Hok Htab.
    destruct (cna_line_fields s cnas Hne Hs Hcs Hok Htab) as [Hc' Hsplit].
    by apply load_cnas_fields.
  - intros Hline Hsplit Hbad HA HD Hs Hg.
    assert (is_ok (cna_row gw sw (s :: toks)) = false) as Hrow.
    { unfold cna_row. cbn [index lookup list_lookup mbind result_bind skipn].
      rewrite Hs, drop_0. eapply for_each_not_ok; [done|]. by apply cna_item_bad. }
    apply not_ok_raise in Hrow as [e Hrow].
    assert (is_ok (load_cnas f gw sw) = false) as Hload.
    { rewrite load_cnas_rows. eapply for_each_not_ok; [|done].
      rewrite <- Hsplit.
      apply (list_elem_of_fmap_2 (λ l, Str.split_on tab (Str.rstrip l))).
      by apply uncommented_elem. }
    apply not_ok_raise in Hload as [e' Hload].
    by rewrite Hload, (load_cnas_raises _ _ _ _ Hload).
Qed.

(** The line [S1 G1(A) G2(D)] loads as an AMP of [G1] and a DEL of [G2] in
    sample [S1]; the token [G3(X)] raises [ValueError]. *)
Lemma load_cnas_tokens_example :
  load_cnas cna_example None None
    = Ok [mkMutation "S1" "G1" AMP; mkMutation "S1" "G2" DEL]
  ∧ load_cnas cna_bad_example None None = Raise ValueError.
Proof.
  assert (Forall cna_ok [("G1", AMP); ("G2", DEL)]) as Hok.
  { apply Forall_cons_2; [split; [by left | reflexivity]|].
    apply Forall_cons_2; [split; [by right | reflexivity]|].
    apply Forall_nil_2. }
  split.
  - refine (proj1 (proj2 (load_cnas_tokens [] "" "S1" "" [("G1", AMP); ("G2", DEL)]
                            [] None None eq_refl))
                  _ eq_refl eq_refl Hok _); [done|].
    apply Forall_cons_2; [reflexivity|].
    apply Forall_cons_2; [reflexivity|]. apply Forall_nil_2.
  - refine (proj2 (proj2 (load_cnas_tokens cna_bad_example
                            (join_tab ["S1"; "G3(X)"] +:+ newline)
                            "S1" "G3(X)" [] ["G3(X)"] None None eq_refl))
                  _ eq_refl _ eq_refl eq_refl eq_refl eq_refl);
      apply list_elem_of_here.
Defined.

(** ** Sets and dictionaries built from generators *)

Lemma set_of_not_ok {A} `{Countable K} (xs : list A) (f : A → result K) x e :
  x ∈ xs → f x = Raise e → is_ok (set_of xs f) = false.
Proof.
  intros Hx Hfx. induction xs as [|y xs IH]; [by inversion Hx|].
  simpl. inversion Hx as [|? ? ? Hx']; subst.
  - by rewrite Hfx.
  - specialize (IH Hx'). destruct (f y); simpl; [|done].
    by destruct (set_of xs f).
Qed.

Lemma set_of_raise_inv {A} `{Countable K} (xs : list A) (f : A → result K) e :
  set_of xs f = Raise e → ∃ x, x ∈ xs ∧ f x = Raise e.
Proof.
  induction xs as [|x xs IH]; simpl; [done|].
  destruct (f x) as [k|e'] eqn:E; simpl.
  - destruct (set_of xs f) as [s|e''] eqn:E'; simpl; [done|].
    intros [= ->]. destruct IH as (y & Hy & Hfy); [done|].
    exists y. split; [by apply list_elem_of_further|done].
  - intros [= ->]. exists x. split; [apply list_elem_of_here|done].
Qed.

Lemma set_of_elem {A} `{Countable K} (xs : list A) (f : A → result K) s k :
  set_of xs f = Ok s → k ∈ s ↔ ∃ x, x ∈ xs ∧ f x = Ok k.
Proof.
  revert s. induction xs as [|x xs IH]; simpl; intros s.
  - intros [= <-]. split.
    + intros Hk. by apply not_elem_of_empty in Hk.
    + intros (x & Hx & _). by inversion Hx.
  - destruct (f x) as [k'|] eqn:E; simpl; [|done].
    destruct (set_of xs f) as [s'|] eqn:E'; simpl; [|done].
    intros [= <-]. rewrite elem_of_union, elem_of_singleton, (IH s' eq_refl).
    split.
    + intros [->|(y & Hy & Hfy)].
      * exists x. split; [apply list_elem_of_here|done].
      * exists y. split; [by apply list_elem_of_further|done].
    + intros (y & Hy & Hfy). inversion Hy; subst.
      * left. congruence.
      * right. eauto.
Qed.

Lemma set_of_total {A} `{Countable K} (xs : list A) (f : A → result K) :
  (∀ x, x ∈ xs → is_ok (f x) = true) → is_ok (set_of xs f) = true.
Proof.
  induction xs as [|x xs IH]; intros Hf; simpl; [done|].
  pose proof (Hf x (list_elem_of_here _ _)) as Hx.
  destruct (f x); simpl in *; [|done].
  assert (is_ok (set_of xs f) = true) as Hxs.
  { apply IH. intros y Hy. apply Hf. by apply list_elem_of_further. }
  by destruct (set_of xs f).
Qed.

(** ** Protein interaction edges *)

Lemma load_ppi_edges_items f index2gene :
  load_ppi_edges f index2gene = set_of (Str.split <$> f) (ppi_item index2gene).
Proof. reflexivity. Qed.

Lemma ppi_item_edge index2gene line i j :
  edge_indices line = Some (i, j) →
  ppi_item index2gene (Str.split line) =
  match index2gene !! i, index2gene !! j with
  | Some g1, Some g2 => Ok (g1, g2)
  | _, _ => Raise KeyError
  end.
Proof.
  unfold edge_indices, ppi_item, int, getitem.
  destruct (Str.split line) as [|a0 [|a1 rest]]; try done. simpl.
  destruct (Str.int a0) as [i'|]; [|done].
  destruct (Str.int a1) as [j'|]; [|done].
  intros [= -> ->]. simpl.
  destruct (index2gene !! i); simpl; [|done].
  by destruct (index2gene !! j).
Qed.

(** C10: take an edge list whose lines each begin with two integer fields
    [(i, j)]. If for some line [i] or [j] is not a key of the mapping,
    [load_ppi_edges] raises [KeyError] and returns nothing. If all of them
    are keys, it returns a set, whose members are exactly the pairs
    [(index2gene[i], index2gene[j])] of the lines. *)
Theorem load_ppi_edges_lookup (f : list string) (edges : list (Z * Z))
    (index2gene : gmap Z string) :
  Forall2 (λ line e, edge_indices line = Some e) f edges →
  ((∃ e, e ∈ edges ∧ (index2gene !! e.1 = None ∨ index2gene !! e.2 = None)) →
   load_ppi_edges f index2gene = Raise KeyError)
  ∧ ((∀ e, e ∈ edges → is_Some (index2gene !! e.1) ∧ is_Some (index2gene !! e.2)) →
     ∃ s, load_ppi_edges f index2gene = Ok s
          ∧ ∀ g1 g2, (g1, g2) ∈ s ↔
              ∃ e, e ∈ edges ∧ index2gene !! e.1 = Some g1
                   ∧ index2gene !! e.2 = Some g2).
Proof.
  intros Hf. rewrite load_ppi_edges_items.
  assert (∀ arr, arr ∈ Str.split <$> f → ∃ e, e ∈ edges ∧
            ppi_item index2gene arr =
            match index2gene !! e.1, index2gene !! e.2 with
            | Some g1, Some g2 => Ok (g1, g2)
            | _, _ => Raise KeyError
            end) as Hitems.
  { intros arr (line & -> & Hline)%list_elem_of_fmap.
    apply list_elem_of_lookup in Hline as [n Hn].
    destruct (Forall2_lookup_l _ _ _ _ _ Hf Hn) as ([i j] & He & Hij).
    exists (i, j). split; [by eapply list_elem_of_lookup_2|].
    by apply ppi_item_edge. }
  assert (∀ e, e ∈ edges → ∃ line, line ∈ f ∧ edge_indices line = Some e)
    as Hedges.
  { intros e [n Hn]%list_elem_of_lookup.
    destruct (Forall2_lookup_r _ _ _ _ _ Hf Hn) as (line & Hl & Hij).
    exists line. split; [by eapply list_elem_of_lookup_2|done]. }
  split.
  - intros ([i j] & He & Hmiss). simpl in Hmiss.
    destruct (Hedges _ He) as (line & Hline & Hij).
    assert (ppi_item index2gene (Str.split line) = Raise KeyError) as Hraise.
    { rewrite (ppi_item_edge _ _ _ _ Hij).
      destruct Hmiss as [-> | ->]; [done|]. by destruct (index2gene !! i). }
    assert (is_ok (set_of (Str.split <$> f) (ppi_item index2gene)) = false)
      as Hno.
    { eapply set_of_not_ok; [|done]. by apply list_elem_of_fmap_2. }
    apply not_ok_raise in Hno as [e Hno]. rewrite Hno. f_equal.
    apply set_of_raise_inv in Hno as (arr & Harr & Hno).
    destruct (Hitems _ Harr) as (e' & _ & Hitem). rewrite Hitem in Hno.
    destruct (index2gene !! e'.1); [|congruence].
    destruct (index2gene !! e'.2); congruence.
  - intros Hall.
    assert (is_ok (set_of (Str.split <$> f) (ppi_item index2gene)) = true)
      as Hok.
    { apply set_of_total. intros arr Harr.
      destruct (Hitems _ Harr) as (e & He & ->).
      destruct (Hall _ He) as [[g1 ->] [g2 ->]]. done. }
    destruct (set_of (Str.split <$> f) (ppi_item index2gene)) as [s|] eqn:Es;
      [|done].
    exists s. split; [done|]. intros g1 g2.
    rewrite (set_of_elem _ _ _ _ Es). split.
    + intros (arr & Harr & Hitem).
      destruct (Hitems _ Harr) as (e & He & Hitem'). rewrite Hitem' in Hitem.
      exists e. split; [done|].
      destruct (index2gene !! e.1); [|done].
      destruct (index2gene !! e.2); [|done]. by injection Hitem as -> ->.
    + intros ([i j] & He & H1 & H2). simpl in H1, H2.
      destruct (Hedges _ He) as (line & Hline & Hij).
      exists (Str.split line). split; [by apply list_elem_of_fmap_2|].
      by rewrite (ppi_item_edge _ _ _ _ Hij), H1, H2.
Qed.

(** The edge [0 1]: a [KeyError] when the index has no gene [1], and the
    pair of the two names when it has both. *)
Lemma load_ppi_edges_lookup_example :
  load_ppi_edges ppi_example {[ 0 := "A" ]} = Raise KeyError
  ∧ ∃ s, load_ppi_edges ppi_example {[ 0 := "A"; 1 := "B" ]} = Ok s
         ∧ ∀ g1 g2, (g1, g2) ∈ s ↔
             ∃ e, e ∈ [(0, 1)]
                  ∧ ({[ 0 := "A"; 1 := "B" ]} : gmap Z string) !! e.1 = Some g1
                  ∧ ({[ 0 := "A"; 1 := "B" ]} : gmap Z string) !! e.2 = Some g2.
Proof.
  assert (Forall2 (λ line e, edge_indices line = Some e) ppi_example [(0, 1)])
    as Hf.
  { constructor; [reflexivity | constructor]. }
  split.
  - apply (proj1 (load_ppi_edges_lookup ppi_example [(0, 1)] {[ 0 := "A" ]} Hf)).
    exists (0, 1). split; [apply list_elem_of_here | right; reflexivity].
  - apply (proj2 (load_ppi_edges_lookup ppi_example [(0, 1)]
                    {[ 0 := "A"; 1 := "B" ]} Hf)).
    intros e ->%list_elem_of_singleton. split; by eexists.
Defined.

(** ** Lines that begin with [#] *)

Lemma startswith_hash (line : string) :
  Str.startswith "#" line = true → ∃ rest, line = String "#" rest.
Proof.
  destruct line as [|a rest]; cbn [Str.startswith]; [done|].
  destruct (Ascii.eqb "#" a) eqn:E; [|done].
  apply Ascii.eqb_eq in E as <-. eauto.
Qed.

(** The first field of such a line begins with [#] too. *)
Lemma split_hash (rest : string) :
  ∃ h t, Str.split (String "#" rest) = String "#" h :: t.
Proof.
  unfold Str.split. simpl.
  destruct (split_by_nonempty Str.isspace rest) as (piece & pieces & ->).
  simpl. eauto.
Qed.

Lemma int_hash (h : string) : Str.int (String "#" h) = None.
Proof.
  unfold Str.int. cbn [Str.int_rtrim]. by destruct (Str.int_rtrim h).
Qed.

Lemma uncommented_comment (f1 f2 : list string) (c : string) :
  Str.startswith "#" c = true →
  uncommented (f1 ++ c :: f2) = uncommented (f1 ++ f2).
Proof.
  intros Hc. rewrite !uncommented_app. f_equal.
  unfold uncommented. cbn [List.filter]. by rewrite Hc.
Qed.

Lemma dict_update_Z_not_ok {A V} (d : gmap Z V) (xs : list A)
    (item : A → result (Z * V)) x e :
  x ∈ xs → item x = Raise e → is_ok (dict_update_Z d xs item) = false.
Proof.
  intros Hx Hitem. revert d. induction xs as [|y xs IH]; intros d.
  { by inversion Hx. }
  simpl. apply elem_of_cons in Hx as [->|Hx'].
  - by rewrite Hitem.
  - destruct (item y) as [[k v]|]; simpl; [|done]. by apply IH.
Qed.

Lemma dict_update_keeps {A V} (d d' : gmap string V) (xs : list A)
    (item : A → result (option (string * V))) k :
  dict_update d xs item = Ok d' → is_Some (d !! k) → is_Some (d' !! k).
Proof.
  revert d. induction xs as [|y xs IH]; intros d; simpl.
  { by intros [= <-]. }
  destruct (item y) as [[[k' v']|]|]; simpl; [| |done].
  - intros Hd Hk. apply (IH _ Hd).
    destruct (decide (k' = k)) as [->|Hne].
    + rewrite lookup_insert_eq. eauto.
    + by rewrite lookup_insert_ne.
  - apply IH.
Qed.

Lemma dict_update_key {A V} (d d' : gmap string V) (xs : list A)
    (item : A → result (option (string * V))) x :
  dict_update d xs item = Ok d' → x ∈ xs →
  ∃ kv, item x = Ok kv ∧ ∀ k v, kv = Some (k, v) → is_Some (d' !! k).
Proof.
  intros Hd Hx. revert d Hd. induction xs as [|y xs IH]; intros d.
  { by inversion Hx. }
  simpl. apply elem_of_cons in Hx as [->|Hx'].
  - destruct (item y) as [kv|]; simpl; [|done]. intros Hd.
    exists kv. split; [done|]. intros k v ->.
    apply (dict_update_keeps _ _ _ _ _ Hd). rewrite lookup_insert_eq. eauto.
  - destruct (item y) as [kv|]; simpl; [|done]. by apply IH.
Qed.

Lemma gene_order_loop_below lines cid g2c c2g k :
  (k < cid)%nat → (gene_order_loop lines cid g2c c2g).2 !! k = c2g !! k.
Proof.
  revert cid g2c c2g. induction lines as [|line rest IH]; intros cid g2c c2g Hk.
  { done. }
  simpl. rewrite IH by lia. apply lookup_insert_ne. lia.
Qed.

(** Line [i] of the file, whatever it is, becomes chromosome [i]. *)
Lemma gene_order_loop_line lines cid g2c c2g i line :
  lines !! i = Some line →
  (gene_order_loop lines cid g2c c2g).2 !! (cid + i)%nat = Some (Str.split line).
Proof.
  revert cid g2c c2g i.
  induction lines as [|l rest IH]; intros cid g2c c2g [|i]; try done; simpl.
  - intros [= ->]. rewrite Nat.add_0_r, gene_order_loop_below by lia.
    apply lookup_insert_eq.
  - intros Hi. replace (cid + S i)%nat with (S cid + i)%nat by lia. by apply IH.
Qed.

(** C9, as stated, fails for the three parsers it names: a line beginning
    with [#] makes [load_index] raise, is loaded by [load_heat_tsv] (whatever
    [float] makes of its second field, the result is not that of the file
    without the line), and is a chromosome for [load_gene_order]. *)
Lemma comment_line_not_skipped :
  load_index comment_example = Raise ValueError
  ∧ load_index [] = Ok ∅
  ∧ (∀ float_of, load_heat_tsv float_of comment_heat_example
                 ≠ load_heat_tsv float_of [])
  ∧ load_gene_order comment_example
    = ({[ "#0" := 0%nat; "A" := 0%nat ]}, {[ 0%nat := ["#0"; "A"] ]})
  ∧ load_gene_order [] = (∅, ∅).
Proof.
  split; [by vm_compute|]. split; [done|]. split; [|split; [|done]].
  - intros float_of. unfold load_heat_tsv, to_float.
    change (Str.split <$> comment_heat_example) with [["#A"; "0.5"]]. simpl.
    destruct (float_of "0.5"); simpl; [|done]. intros H.
    apply (f_equal (λ r, match r with Ok d => d !! "#A" | Raise _ => None end))
      in H.
    by rewrite lookup_insert_eq in H.
  - vm_compute. reflexivity.
Qed.

Lemma load_index_comment (f : list string) (c : string) :
  c ∈ f → Str.startswith "#" c = true → is_ok (load_index f) = false.
Proof.
  intros Hc (rest & ->)%startswith_hash.
  destruct (split_hash rest) as (h & t & Hsplit).
  unfold load_index. eapply (dict_update_Z_not_ok _ _ _ (Str.split _)).
  - by apply list_elem_of_fmap_2.
  - rewrite Hsplit. simpl. unfold int. by rewrite int_hash.
Qed.

Lemma load_heat_tsv_comment float_of (f : list string) (c : string) d :
  c ∈ f → Str.startswith "#" c = true → load_heat_tsv float_of f = Ok d →
  ∃ key, index (Str.split c) 0 = Ok key ∧ Str.startswith "#" key = true
         ∧ is_Some (d !! key).
Proof.
  intros Hc (rest & ->)%startswith_hash Hd.
  destruct (split_hash rest) as (h & t & Hsplit).
  exists (String "#" h). rewrite Hsplit. split; [done|]. split; [by destruct h|].
  unfold load_heat_tsv in Hd.
  destruct (dict_update_key _ _ _ _ (Str.split (String "#" rest)) Hd)
    as (kv & Hitem & Hkey).
  { by apply list_elem_of_fmap_2. }
  rewrite Hsplit in Hitem. destruct t as [|a1 t]; simpl in Hitem; [done|].
  destruct (to_float float_of a1) as [x|]; simpl in Hitem; [|done].
  injection Hitem as <-. by eapply Hkey.
Qed.

(** C9, amended: the mutation parsers [load_snvs], [load_inactivating_snvs],
    [load_cnas] and [load_fusions] skip a line beginning with [#]: the
    result is that of the file without the line. [load_index],
    [load_heat_tsv] and [load_gene_order] do not skip it: [load_index]
    raises, [load_heat_tsv], when it returns, has the first field of the
    line as a key, and [load_gene_order] makes the line the chromosome of its
    line number. *)
Theorem comment_lines (float_of : string → option float) (f1 f2 : list string)
    (c : string) (gw sw : whitelist) :
  Str.startswith "#" c = true →
  (load_snvs (f1 ++ c :: f2) gw sw = load_snvs (f1 ++ f2) gw sw
   ∧ load_inactivating_snvs (f1 ++ c :: f2) gw sw
     = load_inactivating_snvs (f1 ++ f2) gw sw
   ∧ load_cnas (f1 ++ c :: f2) gw sw = load_cnas (f1 ++ f2) gw sw
   ∧ load_fusions (f1 ++ c :: f2) gw sw = load_fusions (f1 ++ f2) gw sw)
  ∧ is_ok (load_index (f1 ++ c :: f2)) = false
  ∧ (∀ d, load_heat_tsv float_of (f1 ++ c :: f2) = Ok d →
       ∃ key, index (Str.split c) 0 = Ok key ∧ Str.startswith "#" key = true
              ∧ is_Some (d !! key))
  ∧ (load_gene_order (f1 ++ c :: f2)).2 !! length f1 = Some (Str.split c).
Proof.
  intros Hc.
  assert (c ∈ f1 ++ c :: f2) as Hin.
  { apply elem_of_app. right. apply list_elem_of_here. }
  split; [|split; [|split]].
  - unfold load_snvs, load_inactivating_snvs, load_cnas, load_fusions.
    by rewrite (uncommented_comment f1 f2 c Hc).
  - by apply (load_index_comment _ c).
  - intros d Hd. by apply (load_heat_tsv_comment float_of (f1 ++ c :: f2)).
  - unfold load_gene_order.
    apply (gene_order_loop_line _ 0 ∅ ∅ (length f1) c).
    apply list_lookup_middle. done.
Qed.

(** The comment line [#A 0.5] after a line of data, in each kind of file. *)
Lemma comment_lines_example :
  (load_snvs (snv_example ++ [comment_line]) None None
     = load_snvs (snv_example ++ []) None None
   ∧ load_inactivating_snvs (snv_example ++ [comment_line]) None None
     = load_inactivating_snvs (snv_example ++ []) None None
   ∧ load_cnas (snv_example ++ [comment_line]) None None
     = load_cnas (snv_example ++ []) None None
   ∧ load_fusions (snv_example ++ [comment_line]) None None
     = load_fusions (snv_example ++ []) None None)
  ∧ is_ok (load_index (snv_example ++ [comment_line])) = false
  ∧ (∀ d, load_heat_tsv float_example (snv_example ++ [comment_line]) = Ok d →
       ∃ key, index (Str.split comment_line) 0 = Ok key
              ∧ Str.startswith "#" key = true ∧ is_Some (d !! key))
  ∧ (load_gene_order (snv_example ++ [comment_line])).2 !! length snv_example
    = Some (Str.split comment_line).
Proof.
  exact (comment_lines float_example snv_example [] comment_line None None
           eq_refl).
Defined.

(** ** The merge of the three oncodrive sources *)

Lemma foldl_insert_lookup {V} (F : string → V) (l : list string)
    (m0 : gmap string V) (g : string) :
  foldl (λ m k, <[k := F k]> m) m0 l !! g
  = if bool_decide (g ∈ l) then Some (F g) else m0 !! g.
Proof.
  revert m0. induction l as [|k l IH]; intros m0; cbn [foldl].
  - case_bool_decide as H; [by apply not_elem_of_nil in H|done].
  - rewrite IH. destruct (decide (g ∈ l)) as [Hl|Hl].
    + rewrite (bool_decide_eq_true_2 (g ∈ l)) by done.
      by rewrite (bool_decide_eq_true_2 (g ∈ k :: l))
        by (by apply list_elem_of_further).
    + rewrite (bool_decide_eq_false_2 (g ∈ l)) by done.
      destruct (decide (g = k)) as [->|Hne].
      * rewrite (bool_decide_eq_true_2 (k ∈ k :: l)) by apply list_elem_of_here.
        apply lookup_insert_eq.
      * rewrite (bool_decide_eq_false_2 (g ∈ k :: l)).
        -- by apply lookup_insert_ne.
        -- by intros [?|?]%elem_of_cons.
Qed.

Lemma oncodrive_merge_lookup fm amp del g :
  oncodrive_merge fm amp del !! g
  = if bool_decide (g ∈ dom del ∪ dom amp ∪ dom fm)
    then Some (merged_scores fm amp del g) else None.
Proof.
  unfold oncodrive_merge.
  rewrite (foldl_insert_lookup (merged_scores fm amp del)).
  rewrite lookup_empty.
  by rewrite (bool_decide_ext _ _ (elem_of_elements _ g)).
Qed.

Lemma oncodrive_merge_dom fm amp del :
  dom (oncodrive_merge fm amp del) = dom del ∪ dom amp ∪ dom fm.
Proof.
  apply set_eq. intros g. rewrite elem_of_dom, oncodrive_merge_lookup.
  case_bool_decide; [|by rewrite is_Some_alt]. split; [done|eauto].
Qed.

Lemma load_oncodrive_data_inv float_of f1 f2 f3 m :
  load_oncodrive_data float_of f1 f2 f3 = Ok m →
  ∃ fm amp del,
    oncodrive_fm float_of f1 = Ok fm ∧ oncodrive_cis float_of f2 = Ok amp
    ∧ oncodrive_cis float_of f3 = Ok del ∧ m = oncodrive_merge fm amp del.
Proof.
  unfold load_oncodrive_data.
  destruct (oncodrive_fm float_of f1) as [fm|]; simpl; [|done].
  destruct (oncodrive_cis float_of f2) as [amp|]; simpl; [|done].
  destruct (oncodrive_cis float_of f3) as [del|]; simpl; [|done].
  intros [= <-]. by exists fm, amp, del.
Qed.

(** C5: three empty sources merge to the empty mapping. Whenever
    [load_oncodrive_data] returns, the result is the merge of the three
    dictionaries parsed from its files: its key set is the union of their key
    sets, every gene has the three scores [del], [amp] and [fm], the score of
    a source being the source's own where it has the gene and the default
    [1] where it has not; and [1 == 1.0]. *)
Theorem load_oncodrive_data_merge (float_of : string → option float)
    (f1 f2 f3 : list string) (m : gmap string (gmap string pynum)) :
  load_oncodrive_data float_of [] [] [] = Ok ∅
  ∧ (load_oncodrive_data float_of f1 f2 f3 = Ok m →
     ∃ fm amp del,
       oncodrive_fm float_of f1 = Ok fm ∧ oncodrive_cis float_of f2 = Ok amp
       ∧ oncodrive_cis float_of f3 = Ok del
       ∧ dom m = dom del ∪ dom amp ∪ dom fm
       ∧ ∀ g, g ∈ dom m →
           ∃ scores, m !! g = Some scores
             ∧ dom scores = {[ "del"; "amp"; "fm" ]}
             ∧ (∀ x, fm !! g = Some x → scores !! "fm" = Some x)
             ∧ (∀ x, amp !! g = Some x → scores !! "amp" = Some x)
             ∧ (∀ x, del !! g = Some x → scores !! "del" = Some x)
             ∧ (fm !! g = None → scores !! "fm" = Some (PyInt 1))
             ∧ (amp !! g = None → scores !! "amp" = Some (PyInt 1))
             ∧ (del !! g = None → scores !! "del" = Some (PyInt 1)))
  ∧ num_eq (PyInt 1) (PyFloat 1) = true.
Proof.
  split; [done|]. split; [|done].
  intros (fm & amp & del & Hfm & Hamp & Hdel & ->)%load_oncodrive_data_inv.
  exists fm, amp, del. repeat (split; [done|]).
  split; [apply oncodrive_merge_dom|].
  intros g Hg. rewrite oncodrive_merge_dom in Hg.
  exists (merged_scores fm amp del g).
  rewrite oncodrive_merge_lookup, bool_decide_eq_true_2 by done.
  split; [done|]. unfold merged_scores, getdefault.
  split; [by rewrite !dom_insert_L, dom_singleton_L|].
  repeat split; intros; simplify_map_eq; done.
Qed.

(** Gene [G1] has only an [fm] score and gene [G2] only an [amp] score;
    the third source is empty. *)
Lemma load_oncodrive_data_merge_example :
  load_oncodrive_data float_example fm_example cis_amp_example []
  = Ok {[ "G1" := {[ "del" := PyInt 1; "amp" := PyInt 1; "fm" := PyFloat 0.5 ]};
          "G2" := {[ "del" := PyInt 1; "amp" := PyFloat 0.25; "fm" := PyInt 1 ]} ]}
  ∧ ∃ fm amp del,
      oncodrive_fm float_example fm_example = Ok fm
      ∧ oncodrive_cis float_example cis_amp_example = Ok amp
      ∧ oncodrive_cis float_example [] = Ok del
      ∧ dom ({[ "G1" := {[ "del" := PyInt 1; "amp" := PyInt 1;
                            "fm" := PyFloat 0.5 ]};
                "G2" := {[ "del" := PyInt 1; "amp" := PyFloat 0.25;
                            "fm" := PyInt 1 ]} ]}
               : gmap string (gmap string pynum))
        = dom del ∪ dom amp ∪ dom fm.
Proof.
  assert (load_oncodrive_data float_example fm_example cis_amp_example []
          = Ok {[ "G1" := {[ "del" := PyInt 1; "amp" := PyInt 1;
                             "fm" := PyFloat 0.5 ]};
                  "G2" := {[ "del" := PyInt 1; "amp" := PyFloat 0.25;
                             "fm" := PyInt 1 ]} ]}) as Hload.
  { vm_compute. reflexivity. }
  split; [exact Hload|].
  destruct (proj1 (proj2 (load_oncodrive_data_merge float_example fm_example
                            cis_amp_example [] _)) Hload)
    as (fm & amp & del & Hfm & Hamp & Hdel & Hdom & _).
  exists fm, amp, del. repeat split; assumption.
Defined.

(** ** The network bundle *)

Lemma dict_seq_lookup {V} (l : list V) (s n : nat) (m0 : gmap nat V) (i : nat) :
  foldl (λ d kv, <[kv.1 := kv.2]> d) m0 (zip (seq s n) l) !! i
  = if bool_decide (s ≤ i)%nat
    then match take n l !! (i - s)%nat with
         | Some x => Some x
         | None => m0 !! i
         end
    else m0 !! i.
Proof.
  revert s n m0. induction l as [|x l IH]; intros s [|n] m0; simpl.
  - by case_bool_decide.
  - by case_bool_decide.
  - by case_bool_decide.
  - rewrite IH. destruct (decide (i = s)) as [->|Hne].
    + rewrite bool_decide_eq_false_2 by lia.
      rewrite bool_decide_eq_true_2 by lia.
      rewrite Nat.sub_diag. simpl. apply lookup_insert_eq.
    + rewrite lookup_insert_ne by done. repeat case_bool_decide; try lia; [|done].
      by replace (i - s)%nat with (S (i - S s)) by lia.
Qed.

Lemma dict_zip_seq {V} (l : list V) (n : nat) :
  dict (zip (seq 0 n) l) = map_seq 0 (take n l).
Proof.
  apply map_eq. intros i. unfold dict.
  rewrite dict_seq_lookup, lookup_map_seq_0, bool_decide_eq_true_2 by lia.
  rewrite Nat.sub_0_r, lookup_empty. by destruct (take n l !! i).
Qed.

Lemma map_seq_size {V} (l : list V) (s : nat) :
  size (map_seq s l : gmap nat V) = length l.
Proof.
  revert s. induction l as [|x l IH]; intros s; simpl.
  - apply map_size_empty.
  - rewrite map_size_insert_None, IH; [done|].
    apply lookup_map_seq_None. lia.
Qed.

Lemma map_seq_img (l : list string) :
  map_img (map_seq 0 l : gmap nat string) = (list_to_set l : gset string).
Proof.
  apply set_eq. intros v.
  rewrite elem_of_map_img, elem_of_list_to_set, list_elem_of_lookup.
  by setoid_rewrite lookup_map_seq_0.
Qed.

Lemma add_edge_dom (G : Graph) u v : dom (add_edge G u v) = {[u; v]} ∪ dom G.
Proof.
  unfold add_edge. rewrite !dom_insert_L. apply set_eq. intros x.
  rewrite !elem_of_union, !elem_of_singleton. tauto.
Qed.

Lemma add_edges_from_nodes (G : Graph) (edges : list (string * string)) :
  nodes_of (add_edges_from G edges) = nodes_of G ∪ endpoints edges.
Proof.
  unfold nodes_of, add_edges_from, endpoints. revert G.
  induction edges as [|[u v] edges IH]; intros G; simpl.
  - by rewrite !(right_id_L ∅ (∪)).
  - rewrite IH, add_edge_dom. apply set_eq. intros x.
    rewrite !elem_of_union, !elem_of_singleton. tauto.
Qed.

(** What a successful call of [load_network] returns. *)
Lemma load_network_inv H infmat_name PPR idx G name :
  load_network H infmat_name = Ok (PPR, idx, G, name) →
  ∃ n rest, h_arrays H !! infmat_name = Some PPR ∧ shape PPR = n :: rest
            ∧ idx = map_seq 0 (take n (h_nodes H))
            ∧ G = add_edges_from ∅ (h_edges H) ∧ name = h_network_name H.
Proof.
  unfold load_network, getitem, index.
  destruct (h_arrays H !! infmat_name) as [A|]; simpl; [|done].
  destruct (shape A) as [|n rest] eqn:Hshape; simpl; [done|].
  intros [= <- <- <- <-]. exists n, rest. by rewrite dict_zip_seq, Hshape.
Qed.

(** C3, as stated, fails: [load_network] loads [net_isolated], the index
    names the genes [A], [B] and [C], and the graph has the nodes [A] and
    [B] only. *)
Lemma graph_nodes_differ_from_index :
  ∃ PPR idx G name,
    load_network net_isolated "PPR" = Ok (PPR, idx, G, name)
    ∧ (map_img idx : gset string) = {[ "A"; "B"; "C" ]}
    ∧ nodes_of G = {[ "A"; "B" ]}
    ∧ nodes_of G ≠ map_img idx.
Proof.
  exists (zeros [3; 3]%nat), (dict (zip (seq 0 3) ["A"; "B"; "C"])),
    (add_edges_from ∅ [("A", "B")]), "example".
  split; [reflexivity|].
  assert (map_img (dict (zip (seq 0 3) ["A"; "B"; "C"]) : gmap nat string)
          = ({[ "A"; "B"; "C" ]} : gset string)) as Himg.
  { rewrite dict_zip_seq, map_seq_img. by_compute. }
  assert (nodes_of (add_edges_from ∅ [("A", "B")]) = {[ "A"; "B" ]}) as Hnodes.
  { by_compute. }
  split; [exact Himg|]. split; [exact Hnodes|].
  rewrite Himg, Hnodes. by_compute.
Qed.

(** C3, amended: for every bundle that [load_network] loads, the node set
    of the graph is exactly the set of names in the edge list, and the value
    set of the index is the set of the first [shape[0]] node names of the
    bundle; so the graph has exactly the nodes of the index when the names in
    the edge list are exactly those node names. *)
Theorem load_network_graph_nodes (H : hdf5) (infmat_name name : string)
    (PPR : ndarray) (idx : gmap nat string) (G : Graph) :
  load_network H infmat_name = Ok (PPR, idx, G, name) →
  ∃ n rest, shape PPR = n :: rest
    ∧ nodes_of G = endpoints (h_edges H)
    ∧ (map_img idx : gset string) = list_to_set (take n (h_nodes H))
    ∧ (endpoints (h_edges H) = list_to_set (take n (h_nodes H)) →
       nodes_of G = map_img idx).
Proof.
  intros (n & rest & _ & Hshape & -> & -> & _)%load_network_inv.
  exists n, rest. split; [done|].
  assert (nodes_of (add_edges_from ∅ (h_edges H)) = endpoints (h_edges H)) as HG.
  { rewrite add_edges_from_nodes. unfold nodes_of.
    by rewrite dom_empty_L, (left_id_L ∅ (∪)). }
  rewrite HG, map_seq_img. by repeat split.
Qed.

(** There the graph has exactly the nodes of the index. *)
Lemma load_network_graph_nodes_example :
  nodes_of (add_edges_from ∅ (h_edges net_connected))
  = map_img (dict (zip (seq 0 3) (h_nodes net_connected)) : gmap nat string).
Proof.
  destruct (load_network_graph_nodes net_connected "PPR" "example"
              (zeros [3; 3]%nat) _ _ eq_refl)
    as (n & rest & Hshape & _ & _ & Hsame).
  injection Hshape as <- <-. apply Hsame. by_compute.
Defined.

(** C4, as stated, fails: [load_network] loads [net_ragged]; the matrix has
    shape [(2, 3)], the index has one entry, and the node [X] of the edge
    list is not a value of the index. *)
Lemma index_size_differs_from_shape :
  ∃ PPR idx G name,
    load_network net_ragged "PPR" = Ok (PPR, idx, G, name)
    ∧ shape PPR = [2; 3]%nat
    ∧ size idx = 1%nat
    ∧ ("X", "Y") ∈ h_edges net_ragged
    ∧ "X" ∉ (map_img idx : gset string).
Proof.
  exists (zeros [2; 3]%nat), (dict (zip (seq 0 2) ["A"])),
    (add_edges_from ∅ [("X", "Y")]), "example".
  split; [reflexivity|]. split; [reflexivity|].
  rewrite dict_zip_seq, map_seq_size, map_seq_img.
  split; [reflexivity|]. split; [apply list_elem_of_here|]. by_compute.
Qed.

(** C4, amended: for every bundle that [load_network] loads, the index maps
    each position below [min(shape[0], len(nodes))] to the node name at that
    position and has no other entry, so it has [min(shape[0], len(nodes))]
    entries. If moreover the matrix has shape [(n, n)], the bundle has [n]
    node names and every name in the edge list is one of them, then the
    index has [n] entries and every node of every edge is a value of the
    index. *)
Theorem load_network_index (H : hdf5) (infmat_name name : string)
    (PPR : ndarray) (idx : gmap nat string) (G : Graph) :
  load_network H infmat_name = Ok (PPR, idx, G, name) →
  ∃ n rest, shape PPR = n :: rest
    ∧ (∀ i, idx !! i = take n (h_nodes H) !! i)
    ∧ size idx = (n `min` length (h_nodes H))%nat
    ∧ (rest = [n] → length (h_nodes H) = n →
       endpoints (h_edges H) ⊆ list_to_set (h_nodes H) →
       size idx = n
       ∧ ∀ e, e ∈ h_edges H →
           e.1 ∈ (map_img idx : gset string) ∧ e.2 ∈ (map_img idx : gset string)).
Proof.
  intros (n & rest & _ & Hshape & -> & -> & _)%load_network_inv.
  exists n, rest. split; [done|].
  split; [intros i; apply lookup_map_seq_0|].
  rewrite map_seq_size, length_take. split; [done|].
  intros _ Hlen Hsub. split; [lia|].
  rewrite map_seq_img, firstn_all2 by lia. intros [u v] He.
  split; apply Hsub; unfold endpoints; rewrite elem_of_union, !elem_of_list_to_set.
  - left. by apply (list_elem_of_fmap_2 fst _ (u, v)).
  - right. by apply (list_elem_of_fmap_2 snd _ (u, v)).
Qed.

(** In [net_connected] the index has three entries, as many as the matrix
    has rows and columns, and the nodes of its edges are values of the
    index. *)
Lemma load_network_index_example :
  size (dict (zip (seq 0 3) (h_nodes net_connected)) : gmap nat string) = 3%nat
  ∧ ∀ e, e ∈ h_edges net_connected →
      e.1 ∈ (map_img (dict (zip (seq 0 3) (h_nodes net_connected))
                      : gmap nat string) : gset string)
      ∧ e.2 ∈ (map_img (dict (zip (seq 0 3) (h_nodes net_connected))
                        : gmap nat string) : gset string).
Proof.
  destruct (load_network_index net_connected "PPR" "example"
              (zeros [3; 3]%nat) _ _ eq_refl)
    as (n & rest & Hshape & _ & _ & Hsquare).
  injection Hshape as <- <-. apply Hsquare; [reflexivity..|by_compute].
Defined.

(** ** The sample types of a mutation heat file *)

Lemma if_param_cases {A} fs heat_params key (load : list string → result A) dflt :
  if_param fs heat_params key load dflt =
  (c ← jgetitem heat_params key;
   if jtruthy c then f ← open fs c; load (lines f) else Ok dflt).
Proof.
  unfold if_param. destruct (jgetitem heat_params key) as [c|]; [|done].
  simpl. by destruct (jtruthy c).
Qed.

Lemma heat_fn_of_object heat_params name :
  jgetitem heat_params "name" = Ok name →
  (if jcontains heat_params "heat_fn"
   then jgetitem heat_params "heat_fn" else Ok JNull) = Ok (heat_fn_of heat_params).
Proof.
  destruct heat_params as [| | | | |ms]; try done. intros _.
  unfold jcontains, jgetitem, heat_fn_of, jget.
  destruct (member "heat_fn" ms) as [v|] eqn:E.
  - by rewrite bool_decide_eq_true_2 by eauto.
  - rewrite bool_decide_eq_false_2; [done|]. by intros [? ?].
Qed.

(** With a sample type file named in the parameters, [load_heat_file] does
    not return. *)
Lemma load_heat_file_sample_type_file float_of fs heat_file f obj heat_params :
  fs !! heat_file = Some f → document f = Some obj →
  jgetitem obj "parameters" = Ok heat_params →
  jeq_str (heat_fn_of heat_params) "load_mutation_heat" = true →
  jtruthy (jget heat_params "sample_type_file") = true →
  is_ok (load_heat_file float_of fs heat_file true) = false.
Proof.
  intros Hf Hdoc Hparams Hfn Htype. unfold load_heat_file, open, json_load.
  rewrite Hf. simpl. rewrite Hdoc. simpl. rewrite Hparams. simpl.
  destruct (jgetitem heat_params "name") as [name|] eqn:Hname; simpl; [|done].
  destruct (jgetitem obj "heat") as [heat|]; simpl; [|done].
  rewrite (heat_fn_of_object _ _ Hname). simpl. rewrite Hfn.
  destruct (if_param fs heat_params "sample_file" _ _) as [samples|];
    simpl; [|done].
  destruct (if_param fs heat_params "gene_file" _ _) as [genes|];
    simpl; [|done].
  destruct (if_param fs heat_params "snv_file" _ _) as [snvs|]; simpl; [|done].
  destruct (if_param fs heat_params "cna_file" _ _) as [cnas|]; simpl; [|done].
  by rewrite Htype.
Qed.

(** Without one, the sample types it returns map to ["Cancer"] the samples
    of the sample whitelist or, when that is absent or empty, the samples of
    the loaded SNVs and CNAs. *)
Lemma load_heat_file_default_types float_of fs heat_file f obj heat_params
    heat heat_name snvs cnas sampleToType :
  fs !! heat_file = Some f → document f = Some obj →
  jgetitem obj "parameters" = Ok heat_params →
  jeq_str (heat_fn_of heat_params) "load_mutation_heat" = true →
  load_heat_file float_of fs heat_file true
    = Ok (heat, heat_name, (snvs, cnas, sampleToType)) →
  jtruthy (jget heat_params "sample_type_file") = false
  ∧ ∃ samples : whitelist,
      if_param fs heat_params "sample_file" (λ f, Some <$> load_samples f) None
        = Ok samples
      ∧ sampleToType
        = gset_to_gmap "Cancer"
            (if truthy samples then default ∅ samples
             else list_to_set (sample <$> snvs) ∪ list_to_set (sample <$> cnas)).
Proof.
  intros Hf Hdoc Hparams Hfn. unfold load_heat_file, open, json_load.
  rewrite Hf. simpl. rewrite Hdoc. simpl. rewrite Hparams. simpl.
  destruct (jgetitem heat_params "name") as [name|] eqn:Hname; simpl; [|done].
  destruct (jgetitem obj "heat") as [heat'|]; simpl; [|done].
  rewrite (heat_fn_of_object _ _ Hname). simpl. rewrite Hfn.
  destruct (if_param fs heat_params "sample_file" _ _) as [samples|];
    simpl; [|done].
  destruct (if_param fs heat_params "gene_file" _ _) as [genes|];
    simpl; [|done].
  destruct (if_param fs heat_params "snv_file" _ _) as [snvs'|]; simpl; [|done].
  destruct (if_param fs heat_params "cna_file" _ _) as [cnas'|]; simpl; [|done].
  destruct (jtruthy (jget heat_params "sample_type_file")); [done|].
  intros [= <- <- <- <- <-]. split; [done|]. by exists samples.
Qed.

(** With no sample type file the samples of the mutations are typed
    ["Cancer"]. *)
Lemma load_heat_file_without_types float_of :
  load_heat_file float_of (heat_fs JNull) "heat.json" true
  = Ok (HeatJson (JObj [("G1", JNum (PyFloat 0.5))]), JStr "demo",
        ([mkMutation "S1" "G1" SNV; mkMutation "S1" "G2" SNV],
         [mkMutation "S1" "G1" AMP; mkMutation "S1" "G2" DEL],
         {[ "S1" := "Cancer" ]})).
Proof. vm_compute. reflexivity. Qed.

(** C7, the failing input: the parameters name the sample type file
    [types.tsv], which exists and types sample [S1]; [load_heat_file] raises
    [NameError] where the claim has it return the mapping of that file. *)
Theorem load_heat_file_with_types_raises (float_of : string → option float) :
  load_heat_file float_of (heat_fs (JStr "types.tsv")) "heat.json" true
  = Raise NameError.
Proof. vm_compute. reflexivity. Qed.

(** ** The heat document written with a run *)

(** [load_heat_json] reads the heat from the key under which the run wrote
    it. *)
Lemma load_heat_json_written (fs : filesystem) (path : string) (text : list string)
    (heat : json) (heat_file : string) :
  load_heat_json (<[path := mkFile text (Some (heat_dict heat heat_file))]> fs) path
  = Ok (heat, JObj [("heat_file", JStr heat_file)]).
Proof.
  unfold load_heat_json, open. by rewrite lookup_insert_eq.
Qed.

(** ** Two files of the format descriptions *)

(** The SNV file [S1 G1 G2] with no whitelists, and the gene order file of
    the lines [A B] and [C]. *)
Lemma load_snvs_scenario :
  load_snvs snv_example None None
  = Ok [mkMutation "S1" "G1" SNV; mkMutation "S1" "G2" SNV].
Proof. reflexivity. Qed.

Lemma load_gene_order_scenario :
  load_gene_order ["A B" +:+ newline; "C" +:+ newline]
  = ({[ "A" := 0%nat; "B" := 0%nat; "C" := 1%nat ]},
     {[ 0%nat := ["A"; "B"]; 1%nat := ["C"] ]}).
Proof. vm_compute. reflexivity. Qed.

(** * Further properties *)

(** ** More on comprehensions *)

Lemma is_ok_inv {A} (r : result A) : is_ok r = true → ∃ a, r = Ok a.
Proof. destruct r; [eauto|done]. Qed.

Lemma for_each_none {A B} (xs : list A) :
  for_each xs (λ _, Ok []) = Ok ([] : list B).
Proof. induction xs as [|x xs IH]; simpl; [done|]. by rewrite IH. Qed.

(** A body that keeps, item by item, what passes a test keeps what passes
    the test of the whole. *)
Lemma for_each_filter {A B} (P : B → bool) (xs : list A)
    (f g : A → result (list B)) (all : list B) :
  (∀ x ys, x ∈ xs → f x = Ok ys → g x = Ok (List.filter P ys)) →
  for_each xs f = Ok all → for_each xs g = Ok (List.filter P all).
Proof.
  revert all. induction xs as [|x xs IH]; intros all Hfg; simpl.
  - by intros [= <-].
  - destruct (f x) as [ys|e] eqn:Hx; simpl; [|done].
    destruct (for_each xs f) as [zs|e] eqn:Hxs; simpl; [|done].
    intros [= <-]. rewrite (Hfg x ys); [|apply list_elem_of_here|done]. simpl.
    rewrite (IH zs); [|intros y ys' Hy; apply Hfg; by apply list_elem_of_further|done].
    simpl. by rewrite List.filter_app.
Qed.

(** Two bodies that raise alike raise alike in a comprehension. *)
Lemma for_each_raise_same {A B} (xs : list A) (f g : A → result (list B)) e :
  (∀ x, x ∈ xs → match f x with
                  | Ok _ => is_ok (g x) = true
                  | Raise e' => g x = Raise e'
                  end) →
  for_each xs f = Raise e → for_each xs g = Raise e.
Proof.
  induction xs as [|x xs IH]; intros Hfg; simpl; [done|].
  pose proof (Hfg x (list_elem_of_here _ _)) as Hx.
  destruct (f x) as [ys|e'] eqn:E; simpl.
  - destruct (g x) as [ys'|?]; [|done]. simpl.
    destruct (for_each xs f) as [zs|e''] eqn:E'; simpl; [done|].
    intros [= ->]. rewrite IH; [done| |done].
    intros y Hy. apply Hfg. by apply list_elem_of_further.
  - intros [= ->]. by rewrite Hx.
Qed.

Lemma for_each_elem_inv {A B} (xs : list A) (f : A → result (list B)) r y :
  for_each xs f = Ok r → y ∈ r → ∃ x ys, x ∈ xs ∧ f x = Ok ys ∧ y ∈ ys.
Proof.
  revert r. induction xs as [|x xs IH]; intros r; simpl.
  - intros [= <-] Hy. by apply elem_of_nil in Hy.
  - destruct (f x) as [ys|e] eqn:Hx; simpl; [|done].
    destruct (for_each xs f) as [zs|e] eqn:Hxs; simpl; [|done].
    intros [= <-] [Hy|Hy]%elem_of_app.
    + exists x, ys. split; [apply list_elem_of_here|done].
    + destruct (IH zs eq_refl Hy) as (x' & ys' & Hx' & Hfx' & Hy').
      exists x', ys'. split; [by apply list_elem_of_further|done].
Qed.

Lemma uncommented_inv (f : list string) (l : string) :
  l ∈ uncommented f → l ∈ f ∧ Str.startswith "#" l = false.
Proof.
  unfold uncommented. rewrite !list_elem_of_In, List.filter_In.
  intros [Hl Hc]. split; [done|]. by destruct (Str.startswith "#" l).
Qed.

(** ** The whitelists as a filter *)

Lemma snv_row_all (a0 : string) (genes : list string) :
  for_each genes (λ gene, Ok [mkMutation a0 gene SNV])
  = Ok ((λ gene, mkMutation a0 gene SNV) <$> genes).
Proof. induction genes as [|g genes IH]; simpl; [done|]. by rewrite IH. Qed.

Lemma snv_row_filter gw sw (a0 : string) (genes : list string) :
  (if include a0 sw
   then for_each genes (λ gene,
          if include gene gw then Ok [mkMutation a0 gene SNV] else Ok [])
   else Ok [])
  = Ok (List.filter (passes gw sw) ((λ gene, mkMutation a0 gene SNV) <$> genes)).
Proof.
  induction genes as [|g genes IH]; simpl.
  - by destruct (include a0 sw).
  - unfold passes at 1. simpl. destruct (include a0 sw); simpl; [|done].
    simpl in IH. rewrite IH. by destruct (include g gw).
Qed.

(** X1: [load_snvs] never raises, and its whitelists act as a filter: the
    result is the list loaded without whitelists, in the same order, restricted
    to the mutations whose sample and gene both pass. *)
Theorem load_snvs_filter (f : list string) (gw sw : whitelist) :
  ∃ all, Unfiltered.snvs f = Ok all
         ∧ load_snvs f gw sw = Ok (List.filter (passes gw sw) all).
Proof.
  destruct (is_ok_inv (Unfiltered.snvs f)) as [all Hall].
  { rewrite <- load_snvs_unfiltered. apply load_snvs_total. }
  exists all. split; [done|]. revert Hall. unfold Unfiltered.snvs, load_snvs.
  apply for_each_filter. intros arr ys _.
  destruct (index arr 0) as [a0|e]; simpl; [|done].
  rewrite snv_row_all. intros [= <-]. apply snv_row_filter.
Qed.

(** X2: the whitelists of [load_inactivating_snvs] act as a filter and do
    not change whether the call returns: it raises, and then [IndexError],
    exactly when the file read without whitelists does, which needs a line
    that does not begin with [#] and has fewer than two fields (a blank line
    is one). *)
Theorem load_inactivating_snvs_filter (f : list string) (gw sw : whitelist) :
  match Unfiltered.inactivating_snvs f with
  | Ok all =>
      load_inactivating_snvs f gw sw = Ok (List.filter (passes gw sw) all)
      ∧ ∀ line, line ∈ f → Str.startswith "#" line = false →
                is_Some (two_fields line)
  | Raise e =>
      e = IndexError
      ∧ load_inactivating_snvs f gw sw = Raise IndexError
      ∧ ∃ line, line ∈ f ∧ Str.startswith "#" line = false
                ∧ two_fields line = None
  end.
Proof.
  destruct (Unfiltered.inactivating_snvs f) as [all|e] eqn:Hall.
  - split.
    + revert Hall. unfold Unfiltered.inactivating_snvs, load_inactivating_snvs.
      apply for_each_filter. intros arr ys _.
      destruct arr as [|a0 [|a1 arr]]; simpl; [done..|].
      intros [= <-]. unfold passes. simpl.
      destruct (include a1 sw); simpl; [|done]. by destruct (include a0 gw).
    + intros line Hl Hc. unfold two_fields.
      destruct (Str.split line) as [|a0 [|a1 arr]] eqn:Hs; [| |by eexists].
      * assert (is_ok (Unfiltered.inactivating_snvs f) = false) as Hno;
          [|by rewrite Hall in Hno].
        unfold Unfiltered.inactivating_snvs.
        apply for_each_not_ok with (x := Str.split line) (e := IndexError).
        { apply list_elem_of_fmap_2. by apply uncommented_elem. }
        by rewrite Hs.
      * assert (is_ok (Unfiltered.inactivating_snvs f) = false) as Hno;
          [|by rewrite Hall in Hno].
        unfold Unfiltered.inactivating_snvs.
        apply for_each_not_ok with (x := Str.split line) (e := IndexError).
        { apply list_elem_of_fmap_2. by apply uncommented_elem. }
        by rewrite Hs.
  - pose proof Hall as Hraise. unfold Unfiltered.inactivating_snvs in Hraise.
    apply for_each_raise_inv in Hraise as (arr & Harr & Hrow).
    apply list_elem_of_fmap in Harr as (line & -> & [Hl Hc]%uncommented_inv).
    assert (e = IndexError ∧ two_fields line = None) as [-> Htwo].
    { unfold two_fields.
      destruct (Str.split line) as [|a0 [|a1 arr]]; simpl in Hrow;
        [by injection Hrow|by injection Hrow|done]. }
    split; [done|]. split; [|by exists line].
    revert Hall. unfold Unfiltered.inactivating_snvs, load_inactivating_snvs.
    apply for_each_raise_same. intros arr _.
    destruct arr as [|a0 [|a1 arr]]; simpl; [done..|].
    destruct (include a1 sw); simpl; [|done]. by destruct (include a0 gw).
Qed.

Lemma split_by_first (sep : ascii → bool) (s piece : string) (rest : list string) :
  Str.split_by sep s = piece :: rest →
  ∀ c, sep c = true → has_char c piece = false.
Proof.
  revert piece rest. induction s as [|a s IH]; intros piece rest; simpl.
  - by intros [= <- <-].
  - destruct (sep a) eqn:Ha.
    + by intros [= <- <-].
    + destruct (Str.split_by sep s) as [|p ps]; intros [= <- <-] c Hc; simpl.
      * destruct (Ascii.eqb_spec c a) as [->|]; [congruence|done].
      * rewrite (IH p ps eq_refl c Hc).
        destruct (Ascii.eqb_spec c a) as [->|]; [congruence|done].
Qed.

Lemma cna_gene_no_paren (cna : string) : has_char lparen (cna_gene cna) = false.
Proof.
  unfold cna_gene, Str.split_on.
  destruct (Str.split_by (Ascii.eqb lparen) cna) as [|g rest] eqn:Hs; [done|].
  apply (split_by_first _ _ _ _ Hs). apply Ascii.eqb_refl.
Qed.

Lemma get_mut_type_inv (cna : string) (ty : mut_type) :
  get_mut_type cna = Ok ty → ty = AMP ∨ ty = DEL.
Proof.
  unfold get_mut_type. destruct (Str.endswith "(A)" cna); [intros [= <-]; by left|].
  destruct (Str.endswith "(D)" cna); [intros [= <-]; by right|done].
Qed.

(** X3: when the file loads without whitelists, the whitelists of
    [load_cnas] act as a filter on that list. *)
Theorem load_cnas_filter (f : list string) (gw sw : whitelist) (all : list Mutation) :
  Unfiltered.cnas f = Ok all →
  load_cnas f gw sw = Ok (List.filter (passes gw sw) all).
Proof.
  rewrite load_cnas_rows. unfold Unfiltered.cnas.
  apply for_each_filter. intros arr ys _. unfold cna_row.
  destruct (index arr 0) as [a0|e]; simpl; [|done].
  destruct (include a0 sw) eqn:Hs.
  - apply for_each_filter. intros cna zs _. rewrite cna_item_cases, index_cna_gene.
    simpl. destruct (get_mut_type cna) as [ty|e]; simpl; [|done].
    intros [= <-]. unfold passes. simpl. rewrite Hs. simpl.
    by destruct (include (cna_gene cna) gw).
  - intros Hys. rewrite <- (for_each_none (drop 1 arr)). revert Hys.
    apply for_each_filter. intros cna zs _. rewrite index_cna_gene. simpl.
    destruct (get_mut_type cna) as [ty|e]; simpl; [|done].
    intros [= <-]. unfold passes. simpl. by rewrite Hs.
Qed.

Lemma load_cnas_filter_example :
  load_cnas cna_example (Some {["G2"]}) None
  = Ok (List.filter (passes (Some {["G2"]}) None)
          [mkMutation "S1" "G1" AMP; mkMutation "S1" "G2" DEL]).
Proof. apply (load_cnas_filter cna_example). vm_compute. reflexivity. Defined.

Lemma load_cnas_elem (f : list string) (gw sw : whitelist)
    (r : list Mutation) (m : Mutation) :
  load_cnas f gw sw = Ok r → m ∈ r →
  (mtype m = AMP ∨ mtype m = DEL)
  ∧ has_char lparen (gene m) = false
  ∧ passes gw sw m = true
  ∧ ∃ line tok,
      line ∈ f ∧ Str.startswith "#" line = false
      ∧ index (Str.split_on tab (Str.rstrip line)) 0 = Ok (sample m)
      ∧ tok ∈ drop 1 (Str.split_on tab (Str.rstrip line))
      ∧ gene m = cna_gene tok
      ∧ get_mut_type tok = Ok (mtype m).
Proof.
  rewrite load_cnas_rows. intros Hr Hm.
  destruct (for_each_elem_inv _ _ _ _ Hr Hm) as (arr & ys & Harr & Hrow & Hy).
  apply list_elem_of_fmap in Harr as (line & -> & [Hl Hc]%uncommented_inv).
  unfold cna_row in Hrow.
  destruct (index (Str.split_on tab (Str.rstrip line)) 0) as [a0|e] eqn:H0;
    simpl in Hrow; [|done].
  destruct (include a0 sw) eqn:Hs.
  2:{ injection Hrow as <-. by apply elem_of_nil in Hy. }
  destruct (for_each_elem_inv _ _ _ _ Hrow Hy) as (tok & zs & Htok & Hitem & Hz).
  rewrite cna_item_cases in Hitem.
  destruct (include (cna_gene tok) gw) eqn:Hg.
  2:{ injection Hitem as <-. by apply elem_of_nil in Hz. }
  destruct (get_mut_type tok) as [ty|e] eqn:Hty; simpl in Hitem; [|done].
  injection Hitem as <-. apply list_elem_of_singleton in Hz as ->. simpl.
  split; [by apply (get_mut_type_inv tok)|].
  split; [apply cna_gene_no_paren|].
  split; [unfold passes; simpl; by rewrite Hs, Hg|].
  exists line, tok. by rewrite Hty.
Qed.

(** X4: every mutation that [load_cnas] returns is an amplification or a
    deletion of a gene whose name has no parenthesis, passes both whitelists,
    and comes from a token of a line of the file that does not begin with
    [#]: the gene is the text of the token before its first parenthesis, the
    sample the first field of the line. *)
Theorem load_cnas_sound (f : list string) (gw sw : whitelist)
    (r : list Mutation) (m : Mutation) :
  load_cnas f gw sw = Ok r → m ∈ r →
  (mtype m = AMP ∨ mtype m = DEL)
  ∧ has_char lparen (gene m) = false
  ∧ passes gw sw m = true
  ∧ ∃ line tok,
      line ∈ f ∧ Str.startswith "#" line = false
      ∧ index (Str.split_on tab (Str.rstrip line)) 0 = Ok (sample m)
      ∧ tok ∈ drop 1 (Str.split_on tab (Str.rstrip line))
      ∧ gene m = cna_gene tok
      ∧ get_mut_type tok = Ok (mtype m).
Proof. apply load_cnas_elem. Qed.

Lemma load_snvs_elem (f : list string) (gw sw : whitelist)
    (r : list Mutation) (m : Mutation) :
  load_snvs f gw sw = Ok r → m ∈ r → mtype m = SNV ∧ passes gw sw m = true.
Proof.
  unfold load_snvs. intros Hr Hm.
  destruct (for_each_elem_inv _ _ _ _ Hr Hm) as (arr & ys & _ & Hrow & Hy).
  destruct (index arr 0) as [a0|e]; simpl in Hrow; [|done].
  destruct (include a0 sw) eqn:Hs.
  2:{ injection Hrow as <-. by apply elem_of_nil in Hy. }
  destruct (for_each_elem_inv _ _ _ _ Hrow Hy) as (g & zs & _ & Hitem & Hz).
  destruct (include g gw) eqn:Hg.
  2:{ injection Hitem as <-. by apply elem_of_nil in Hz. }
  injection Hitem as <-. apply list_elem_of_singleton in Hz as ->.
  split; [done|]. unfold passes. simpl. by rewrite Hs, Hg.
Qed.

Lemma load_cnas_sound_example :
  (AMP = AMP ∨ AMP = DEL)
  ∧ has_char lparen "G1" = false
  ∧ passes None None (mkMutation "S1" "G1" AMP) = true
  ∧ ∃ line tok,
      line ∈ cna_example ∧ Str.startswith "#" line = false
      ∧ index (Str.split_on tab (Str.rstrip line)) 0 = Ok "S1"
      ∧ tok ∈ drop 1 (Str.split_on tab (Str.rstrip line))
      ∧ "G1" = cna_gene tok
      ∧ get_mut_type tok = Ok AMP.
Proof.
  apply (load_cnas_sound cna_example None None
           [mkMutation "S1" "G1" AMP; mkMutation "S1" "G2" DEL]
           (mkMutation "S1" "G1" AMP)).
  - vm_compute. reflexivity.
  - apply list_elem_of_here.
Defined.

(** ** Fusions *)

(** X5: [include_fusion] does not depend on the order of the two genes. *)
Theorem include_fusion_sym (sw gw : whitelist) (s g1 g2 : string) :
  include_fusion sw gw s g1 g2 = include_fusion sw gw s g2 g1.
Proof.
  rewrite !include_fusion_cases.
  destruct (include s sw), (truthy gw), (mem g1 gw), (mem g2 gw); reflexivity.
Qed.

Lemma include_fusion_star_inv sw gw (arr : list string) (keep : bool) :
  include_fusion_star sw gw (take 4 arr) = Ok keep →
  ∃ s g1 g2, arr = [s; g1; g2].
Proof.
  destruct arr as [|s [|g1 [|g2 [|x arr]]]]; simpl; try done.
  intros _. by exists s, g1, g2.
Qed.

(** X6: every fusion that [load_fusions] returns comes from a line of exactly
    three fields that does not begin with [#]; its sample passes the sample
    whitelist and both its genes pass the gene whitelist. *)
Theorem load_fusions_sound (f : list string) (gw sw : whitelist)
    (r : list Fusion) (fu : Fusion) :
  load_fusions f gw sw = Ok r → fu ∈ r →
  include (fsample fu) sw = true
  ∧ include (genes fu).1 gw = true
  ∧ include (genes fu).2 gw = true
  ∧ ∃ line, line ∈ f ∧ Str.startswith "#" line = false
            ∧ Str.split line = [fsample fu; (genes fu).1; (genes fu).2].
Proof.
  rewrite load_fusions_items. intros Hr Hfu.
  destruct (for_each_elem_inv _ _ _ _ Hr Hfu) as (arr & ys & Harr & Hrow & Hy).
  apply list_elem_of_fmap in Harr as (line & Hsplit & [Hl Hc]%uncommented_inv).
  unfold fusion_item in Hrow.
  destruct (include_fusion_star sw gw (take 4 arr)) as [keep|e] eqn:Hk;
    simpl in Hrow; [|done].
  destruct (include_fusion_star_inv _ _ _ _ Hk) as (s & g1 & g2 & ->).
  simpl in Hk. rewrite include_fusion_cases in Hk. unfold include at 2 3.
  destruct keep; simpl in Hrow.
  2:{ injection Hrow as <-. by apply elem_of_nil in Hy. }
  injection Hrow as <-. apply list_elem_of_singleton in Hy as ->. simpl.
  destruct (include s sw); simpl in Hk; [|done].
  destruct (truthy gw); simpl in Hk.
  - destruct (mem g1 gw), (mem g2 gw); try done.
    repeat split; try done. exists line. by rewrite <- Hsplit.
  - repeat split; try done. exists line. by rewrite <- Hsplit.
Qed.

Lemma load_fusions_sound_example :
  include "S1" None = true
  ∧ include "A" (Some {["A"; "B"]}) = true
  ∧ include "B" (Some {["A"; "B"]}) = true
  ∧ ∃ line, line ∈ fusion_example ∧ Str.startswith "#" line = false
            ∧ Str.split line = ["S1"; "A"; "B"].
Proof.
  apply (load_fusions_sound fusion_example (Some {["A"; "B"]}) None
           [mkFusion "S1" ("A", "B")] (mkFusion "S1" ("A", "B"))).
  - vm_compute. reflexivity.
  - apply list_elem_of_here.
Defined.

(** X7: a line of [load_fusions] that does not begin with [#] and whose
    number of fields is not three (a blank line, a fourth column) makes the
    call fail whatever the whitelists are, with [TypeError] when it is the
    first such line and no earlier line raises. *)
Theorem load_fusions_malformed (f : list string) (line : string) (gw sw : whitelist) :
  line ∈ f → Str.startswith "#" line = false → length (Str.split line) ≠ 3%nat →
  is_ok (load_fusions f gw sw) = false
  ∧ load_fusions [line] gw sw = Raise TypeError.
Proof.
  intros Hl Hc Hn.
  assert (fusion_item gw sw (Str.split line) = Raise TypeError) as Hitem.
  { unfold fusion_item.
    destruct (Str.split line) as [|s [|g1 [|g2 [|x arr]]]]; simpl in *; done. }
  rewrite !load_fusions_items. split.
  - apply for_each_not_ok with (x := Str.split line) (e := TypeError); [|done].
    apply list_elem_of_fmap_2. by apply uncommented_elem.
  - rewrite uncommented_one by done. simpl. by rewrite Hitem.
Qed.

Lemma load_fusions_malformed_example :
  is_ok (load_fusions (fusion_example ++ [newline]) None None) = false
  ∧ load_fusions [newline] None None = Raise TypeError.
Proof.
  apply (load_fusions_malformed (fusion_example ++ [newline]) newline None None).
  - apply elem_of_app. right. apply list_elem_of_here.
  - reflexivity.
  - vm_compute. discriminate.
Defined.

(** X8: [load_fusions] raises [TypeError] or [ValueError] only: the first
    for a line whose number of fields is not three, the second for a line of
    three fields whose sample passes and of whose genes exactly one is in a
    gene whitelist that is not empty. *)
Theorem load_fusions_raises (f : list string) (gw sw : whitelist) (e : exn) :
  load_fusions f gw sw = Raise e →
  ∃ line, line ∈ f ∧ Str.startswith "#" line = false
    ∧ ((e = TypeError ∧ length (Str.split line) ≠ 3%nat)
       ∨ (e = ValueError ∧ truthy gw = true
          ∧ ∃ s g1 g2, Str.split line = [s; g1; g2] ∧ include s sw = true
                       ∧ mem g1 gw ≠ mem g2 gw)).
Proof.
  rewrite load_fusions_items. intros (arr & Harr & Hrow)%for_each_raise_inv.
  apply list_elem_of_fmap in Harr as (line & -> & [Hl Hc]%uncommented_inv).
  exists line. split; [done|]. split; [done|].
  unfold fusion_item in Hrow.
  destruct (Str.split line) as [|s [|g1 [|g2 [|x arr]]]]; simpl in Hrow;
    try (left; split; [by injection Hrow|by simpl]).
  right. rewrite include_fusion_cases in Hrow.
  destruct (include s sw) eqn:Hs; simpl in Hrow; [|done].
  destruct (truthy gw) eqn:Ht; simpl in Hrow; [|done].
  destruct (mem g1 gw) eqn:H1, (mem g2 gw) eqn:H2; simpl in Hrow; try done.
  - injection Hrow as <-. split; [done|]. split; [done|].
    exists s, g1, g2. rewrite H1, H2. by repeat split.
  - injection Hrow as <-. split; [done|]. split; [done|].
    exists s, g1, g2. rewrite H1, H2. by repeat split.
Qed.

Lemma load_fusions_raises_example :
  ∃ line, line ∈ fusion_example ∧ Str.startswith "#" line = false
    ∧ ((ValueError = TypeError ∧ length (Str.split line) ≠ 3%nat)
       ∨ (ValueError = ValueError ∧ truthy (Some {["A"]}) = true
          ∧ ∃ s g1 g2, Str.split line = [s; g1; g2] ∧ include s None = true
                       ∧ mem g1 (Some {["A"]}) ≠ mem g2 (Some {["A"]}))).
Proof.
  apply (load_fusions_raises fusion_example (Some {["A"]}) None ValueError).
  vm_compute. reflexivity.
Defined.

(** ** Fields separated by whitespace *)

Lemma split_by_space_app (w rest : string) (c : ascii) :
  has_space w = false → Str.isspace c = true →
  Str.split_by Str.isspace (w +:+ String c rest)
  = w :: Str.split_by Str.isspace rest.
Proof.
  intros Hw Hc. induction w as [|a w IH].
  - rewrite app_nil. cbn [Str.split_by]. by rewrite Hc.
  - cbn [has_space] in Hw. apply orb_false_iff in Hw as [Ha Hw].
    rewrite app_cons. cbn [Str.split_by]. by rewrite Ha, (IH Hw).
Qed.

Lemma split_app_space (w rest : string) (c : ascii) :
  has_space w = false → Str.isspace c = true →
  Str.split (w +:+ String c rest)
  = (if Str.nonempty w then [w] else []) ++ Str.split rest.
Proof.
  intros Hw Hc. unfold Str.split. rewrite split_by_space_app by done.
  cbn [List.filter]. by destruct (Str.nonempty w).
Qed.

Lemma split_join_words (ws : list string) :
  Forall word ws → Str.split (join_tab ws +:+ newline) = ws.
Proof.
  induction ws as [|x ws IH]; [done|].
  intros [[Hx Hs] Hws]%Forall_cons_1. destruct ws as [|y ws].
  - cbn [join_tab]. unfold newline. rewrite split_app_space by done.
    by destruct x.
  - change (join_tab (x :: y :: ws)) with (x +:+ String tab (join_tab (y :: ws))).
    rewrite app_assoc_str, app_cons. rewrite split_app_space by done.
    rewrite (IH Hws). by destruct x.
Qed.

Lemma split_by_rstrip (s : string) :
  ∃ k, Str.split_by Str.isspace s
       = Str.split_by Str.isspace (Str.rstrip s) ++ replicate k "".
Proof.
  induction s as [|c s [k IH]]; [by exists 0%nat|].
  cbn [Str.rstrip]. destruct (Str.rstrip s) as [|b r] eqn:Hr.
  - cbn [Str.split_by] in *. rewrite IH. destruct (Str.isspace c) eqn:Hc.
    + by exists (S k).
    + exists k. cbn [Str.split_by]. by rewrite Hc.
  - exists k. cbn [Str.split_by] in *. rewrite IH.
    destruct (Str.isspace c); [done|].
    by destruct (Str.isspace b); [|destruct (Str.split_by Str.isspace r)].
Qed.

Lemma filter_nonempty_replicate (k : nat) :
  List.filter Str.nonempty (replicate k "") = [].
Proof. induction k as [|k IH]; [done|]. by cbn. Qed.

(** [l.rstrip().split()] is [l.split()]. *)
Lemma split_rstrip (s : string) : Str.split (Str.rstrip s) = Str.split s.
Proof.
  unfold Str.split. destruct (split_by_rstrip s) as [k ->].
  by rewrite List.filter_app, filter_nonempty_replicate, app_nil_r.
Qed.

Lemma split_lstrip (s : string) : Str.split (Str.lstrip s) = Str.split s.
Proof.
  induction s as [|c s IH]; [done|]. cbn [Str.lstrip].
  destruct (Str.isspace c) eqn:Hc; [|done].
  rewrite IH. unfold Str.split. cbn [Str.split_by]. by rewrite Hc.
Qed.

Lemma split_strip (s : string) : Str.split (Str.strip s) = Str.split s.
Proof. unfold Str.strip. by rewrite split_lstrip, split_rstrip. Qed.

Lemma split_by_pieces (s x : string) :
  x ∈ Str.split_by Str.isspace s → has_space x = false.
Proof.
  revert x. induction s as [|c s IH]; intros x; cbn [Str.split_by].
  - by intros ->%list_elem_of_singleton.
  - destruct (Str.isspace c) eqn:Hc.
    + intros [->|Hx]%elem_of_cons; [done|by apply IH].
    + destruct (Str.split_by Str.isspace s) as [|p ps].
      * intros ->%list_elem_of_singleton. cbn [has_space]. by rewrite Hc.
      * intros [->|Hx]%elem_of_cons.
        -- cbn [has_space]. rewrite Hc. apply IH, list_elem_of_here.
        -- by apply IH, list_elem_of_further.
Qed.

(** Every field of [s.split()] is a word. *)
Lemma split_words (s x : string) : x ∈ Str.split s → word x.
Proof.
  unfold Str.split. rewrite list_elem_of_In, List.filter_In, <- list_elem_of_In.
  intros [Hx Hn]. split; [by destruct x|by apply (split_by_pieces s)].
Qed.

Lemma lstrip_head (s : string) :
  match Str.lstrip s with
  | "" => True
  | String c _ => Str.isspace c = false
  end.
Proof.
  induction s as [|c s IH]; [done|]. cbn [Str.lstrip].
  by destruct (Str.isspace c) eqn:Hc.
Qed.

(** A line is blank for [strip] exactly when it has no field. *)
Lemma strip_empty (s : string) : Str.strip s = "" ↔ Str.split s = [].
Proof.
  rewrite <- (split_strip s). split; [by intros ->|].
  unfold Str.strip. pose proof (lstrip_head (Str.rstrip s)) as Hh.
  destruct (Str.lstrip (Str.rstrip s)) as [|c t]; [done|].
  unfold Str.split. cbn [Str.split_by]. rewrite Hh.
  by destruct (Str.split_by Str.isspace t).
Qed.

Lemma rstrip_lstrip (s : string) :
  Str.rstrip (Str.lstrip s) = Str.lstrip (Str.rstrip s).
Proof.
  induction s as [|c s IH]; [done|]. cbn [Str.lstrip Str.rstrip].
  destruct (Str.isspace c) eqn:Hc.
  - rewrite IH. destruct (Str.rstrip s); [done|]. cbn [Str.lstrip]. by rewrite Hc.
  - cbn [Str.rstrip]. destruct (Str.rstrip s); cbn [Str.lstrip]; by rewrite Hc.
Qed.

Lemma rstrip_idemp (s : string) : Str.rstrip (Str.rstrip s) = Str.rstrip s.
Proof.
  induction s as [|c s IH]; [done|]. cbn [Str.rstrip].
  destruct (Str.rstrip s) as [|b r] eqn:Hr.
  - destruct (Str.isspace c) eqn:Hc; [done|]. cbn [Str.rstrip]. by rewrite Hc.
  - cbn [Str.rstrip] in *. rewrite IH. done.
Qed.

Lemma lstrip_idemp (s : string) : Str.lstrip (Str.lstrip s) = Str.lstrip s.
Proof.
  induction s as [|c s IH]; [done|]. cbn [Str.lstrip].
  destruct (Str.isspace c) eqn:Hc; [done|]. cbn [Str.lstrip]. by rewrite Hc.
Qed.

Lemma strip_idemp (s : string) : Str.strip (Str.strip s) = Str.strip s.
Proof.
  unfold Str.strip. by rewrite rstrip_lstrip, rstrip_idemp, lstrip_idemp.
Qed.

Lemma strip_newline (g : string) : Str.strip (g +:+ newline) = Str.strip g.
Proof. unfold Str.strip. by rewrite rstrip_newline. Qed.

(** ** Text written and read back *)

Lemma lines_of_line (body rest : string) :
  has_line_end body = false →
  lines_of ((body +:+ newline) +:+ rest) = (body +:+ newline) :: lines_of rest.
Proof.
  rewrite app_assoc_str.
  induction body as [|c body IH]; [done|].
  rewrite !app_cons. cbn [has_line_end lines_of].
  intros [[Hn Hr]%orb_false_iff Hb]%orb_false_iff. by rewrite Hn, Hr, (IH Hb).
Qed.

(** Lines written one by one, each closed by its newline and free of other
    line ends, are the lines read back. *)
Lemma lines_of_written (bodies : list string) :
  Forall (λ b, has_line_end b = false) bodies →
  lines_of (written ((λ b, b +:+ newline) <$> bodies))
  = (λ b, b +:+ newline) <$> bodies.
Proof.
  induction bodies as [|b bodies IH]; [done|].
  intros [Hb Hbs]%Forall_cons_1. cbn [fmap list_fmap written foldr].
  rewrite lines_of_line by done. f_equal. by apply IH.
Qed.

Lemma has_space_line_end (s : string) :
  has_space s = false → has_line_end s = false.
Proof.
  induction s as [|c s IH]; [done|]. cbn [has_space has_line_end].
  intros [Hc Hs]%orb_false_iff. rewrite (IH Hs).
  destruct (Ascii.eqb_spec c "010") as [->|]; [done|].
  by destruct (Ascii.eqb_spec c "013") as [->|].
Qed.

Lemma has_line_end_app (a b : string) :
  has_line_end (a +:+ b) = has_line_end a || has_line_end b.
Proof.
  induction a as [|c a IH]; [by rewrite app_nil|].
  rewrite app_cons. cbn [has_line_end]. rewrite IH. by rewrite !orb_assoc.
Qed.

Lemma has_line_end_join (ws : list string) :
  Forall word ws → has_line_end (join_tab ws) = false.
Proof.
  induction ws as [|x ws IH]; [done|].
  intros [[_ Hx] Hws]%Forall_cons_1. apply has_space_line_end in Hx.
  destruct ws as [|y ws]; [done|].
  change (join_tab (x :: y :: ws)) with (x +:+ String tab (join_tab (y :: ws))).
  rewrite has_line_end_app, Hx. cbn [has_line_end]. by rewrite (IH Hws).
Qed.

(** ** Samples and genes *)

Lemma load_samples_item (line : string) :
  index (Str.split (Str.rstrip line)) 0
  = match Str.split line with
    | name :: _ => Ok name
    | [] => Raise IndexError
    end.
Proof. rewrite split_rstrip. by destruct (Str.split line). Qed.

(** X9: [load_samples] raises, and then [IndexError], exactly when the file
    has a line without a field (a blank line, also at the end of the file);
    otherwise it returns the first fields of the lines, each of which is not
    empty and free of whitespace. *)
Theorem load_samples_first_fields (sample_file : list string) :
  match load_samples sample_file with
  | Ok s =>
      (∀ line, line ∈ sample_file → Str.split line ≠ [])
      ∧ (∀ name, name ∈ s ↔
           ∃ line rest, line ∈ sample_file ∧ Str.split line = name :: rest)
      ∧ (∀ name, name ∈ s → word name)
  | Raise e =>
      e = IndexError ∧ ∃ line, line ∈ sample_file ∧ Str.split line = []
  end.
Proof.
  destruct (load_samples sample_file) as [s|e] eqn:Hload; unfold load_samples in Hload.
  - assert (∀ name, name ∈ s ↔
              ∃ line rest, line ∈ sample_file ∧ Str.split line = name :: rest) as Hs.
    { intros name. rewrite (set_of_elem _ _ _ _ Hload). split.
      - intros (line & Hl & Hitem). rewrite load_samples_item in Hitem.
        destruct (Str.split line) as [|n rest] eqn:E; [done|].
        injection Hitem as ->. by exists line, rest.
      - intros (line & rest & Hl & Hsplit). exists line. split; [done|].
        by rewrite load_samples_item, Hsplit. }
    split; [|split; [done|]].
    + intros line Hl Hsplit.
      assert (is_ok (set_of sample_file
                (λ l, index (Str.split (Str.rstrip l)) 0)) = false) as Hno;
        [|by rewrite Hload in Hno].
      apply set_of_not_ok with (x := line) (e := IndexError); [done|].
      by rewrite load_samples_item, Hsplit.
    + intros name (line & rest & Hl & Hsplit)%Hs.
      apply (split_words line). rewrite Hsplit. apply list_elem_of_here.
  - apply set_of_raise_inv in Hload as (line & Hl & Hitem).
    rewrite load_samples_item in Hitem.
    destruct (Str.split line) as [|n rest] eqn:E; [|done].
    injection Hitem as <-. split; [done|]. by exists line.
Qed.

(** X10: [load_genes] never raises; every name it returns has no
    whitespace at either end, and the empty name is among them exactly when
    the file has a line without a field: a blank line is read as a gene with
    the empty name. *)
Theorem load_genes_names (gene_file : list string) :
  (∀ name, name ∈ load_genes gene_file → Str.strip name = name)
  ∧ ("" ∈ load_genes gene_file ↔
       ∃ line, line ∈ gene_file ∧ Str.split line = []).
Proof.
  unfold load_genes. split.
  - intros name (line & -> & _)%elem_of_list_to_set%list_elem_of_fmap.
    apply strip_idemp.
  - rewrite elem_of_list_to_set, list_elem_of_fmap. split.
    + intros (line & Hs & Hl). exists line. split; [done|]. by apply strip_empty.
    + intros (line & Hl & Hs). exists line. split; [|done].
      symmetry. by apply strip_empty.
Qed.

(** X11: the genes written by [write_gene_list] are the genes that
    [load_genes] reads back from the file, when no name has whitespace at
    either end or a line end inside. *)
Theorem write_gene_list_load_genes (genelist : list string) :
  Forall (λ g, Str.strip g = g ∧ has_line_end g = false) genelist →
  load_genes (lines_of (written (write_gene_list genelist)))
  = list_to_set genelist.
Proof.
  intros Hg. unfold write_gene_list, load_genes.
  rewrite lines_of_written by (eapply Forall_impl; [exact Hg|by intros g [_ ?]]).
  f_equal. rewrite <- list_fmap_compose.
  induction Hg as [|g gs [Hs _] _ IH]; [done|].
  cbn [fmap list_fmap compose]. rewrite strip_newline, Hs. f_equal. exact IH.
Qed.

Lemma write_gene_list_load_genes_example :
  load_genes (lines_of (written (write_gene_list ["TP53"; "BRCA1"])))
  = list_to_set ["TP53"; "BRCA1"].
Proof.
  apply (write_gene_list_load_genes ["TP53"; "BRCA1"]).
  repeat constructor.
Defined.

(** ** Gene order *)

Lemma gene_order_loop_chromo lines cid g2c c2g k :
  (cid ≤ k)%nat →
  (gene_order_loop lines cid g2c c2g).2 !! k
  = match lines !! (k - cid)%nat with
    | Some line => Some (Str.split line)
    | None => c2g !! k
    end.
Proof.
  revert cid g2c c2g. induction lines as [|line rest IH]; intros cid g2c c2g Hk.
  - done.
  - cbn [gene_order_loop]. destruct (decide (k = cid)) as [->|Hne].
    + rewrite gene_order_loop_below by lia. rewrite Nat.sub_diag.
      by rewrite lookup_insert_eq.
    + rewrite IH by lia. replace (k - cid)%nat with (S (k - S cid)) by lia.
      cbn [lookup list_lookup]. rewrite lookup_insert_ne by done. done.
Qed.

Lemma gene_order_loop_gene lines cid g2c c2g (g : string) :
  ((∀ j line, lines !! j = Some line → g ∉ Str.split line)
   ∧ (gene_order_loop lines cid g2c c2g).1 !! g = g2c !! g)
  ∨ (∃ i line, lines !! i = Some line ∧ g ∈ Str.split line
       ∧ (∀ j line', (i < j)%nat → lines !! j = Some line' → g ∉ Str.split line')
       ∧ (gene_order_loop lines cid g2c c2g).1 !! g = Some (cid + i)%nat).
Proof.
  revert cid g2c c2g. induction lines as [|line rest IH]; intros cid g2c c2g.
  - left. split; [|done]. intros j line Hj. by destruct j.
  - cbn [gene_order_loop].
    destruct (IH (S cid)
                (foldl (λ d gene, <[gene := cid]> d) g2c (Str.split line))
                (<[cid := Str.split line]> c2g))
      as [[Hnone Hval]|(i & l & Hi & Hg & Hlast & Hval)].
    + rewrite (foldl_insert_lookup (λ _, cid)) in Hval.
      destruct (decide (g ∈ Str.split line)) as [Hin|Hout].
      * right. exists 0%nat, line. rewrite bool_decide_eq_true_2 in Hval by done.
        split; [done|]. split; [done|]. split; [|by rewrite Nat.add_0_r].
        intros j line' Hj Hl. destruct j as [|j]; [lia|]. by apply (Hnone j).
      * left. rewrite bool_decide_eq_false_2 in Hval by done. split; [|done].
        intros j line' Hl. destruct j as [|j]; [by injection Hl as <-|].
        by apply (Hnone j).
    + right. exists (S i), l. split; [done|]. split; [done|].
      split; [|by rewrite Hval, Nat.add_succ_r].
      intros j line' Hj Hl. destruct j as [|j]; [lia|].
      apply (Hlast j); [lia|done].
Qed.

(** X12: what [load_gene_order] returns: the list under chromosome [i] is
    the list of fields of line [i] (counted from zero), blank lines included,
    and a gene is mapped to the number of the last line it occurs in. *)
Theorem load_gene_order_lines (gene_order_file : list string) :
  (∀ i, (load_gene_order gene_order_file).2 !! i
        = Str.split <$> gene_order_file !! i)
  ∧ (∀ g i, (load_gene_order gene_order_file).1 !! g = Some i ↔
       (∃ line, gene_order_file !! i = Some line ∧ g ∈ Str.split line)
       ∧ ∀ j line, (i < j)%nat → gene_order_file !! j = Some line →
                   g ∉ Str.split line).
Proof.
  unfold load_gene_order. split.
  - intros i. rewrite gene_order_loop_chromo by lia. rewrite Nat.sub_0_r.
    by destruct (gene_order_file !! i).
  - intros g i.
    destruct (gene_order_loop_gene gene_order_file 0%nat ∅ ∅ g)
      as [[Hnone Hval]|(k & l & Hk & Hg & Hlast & Hval)]; rewrite Hval.
    + rewrite lookup_empty. split; [done|].
      intros [(line & Hl & Hin) _]. by destruct (Hnone i line).
    + rewrite Nat.add_0_l. split.
      * intros [= <-]. split; [by exists l|done].
      * intros [(line & Hl & Hin) Hafter].
        destruct (Nat.lt_trichotomy i k) as [Hlt|[->|Hgt]]; [|done|].
        -- by destruct (Hafter k l).
        -- by destruct (Hlast i line).
Qed.

(** X13: the components written by [write_components_as_tsv] are read back
    by [load_gene_order], when every gene name is not empty and free of
    whitespace: chromosome [i] is the component written on line [i], and a
    gene is mapped to the last component that has it. *)
Theorem write_components_load_gene_order (ccs : list (list string)) :
  Forall (Forall word) ccs →
  (load_gene_order (lines_of (written (write_components_as_tsv ccs)))).2
  = map_seq 0 ccs
  ∧ ∀ g i,
      (load_gene_order (lines_of (written (write_components_as_tsv ccs)))).1 !! g
      = Some i ↔
      (∃ cc, ccs !! i = Some cc ∧ g ∈ cc)
      ∧ ∀ j cc, (i < j)%nat → ccs !! j = Some cc → g ∉ cc.
Proof.
  intros Hw. unfold write_components_as_tsv.
  change ((λ cc, join_tab cc +:+ newline) <$> ccs)
    with ((λ b, b +:+ newline) ∘ join_tab <$> ccs).
  rewrite (list_fmap_compose join_tab (λ b, b +:+ newline)).
  rewrite lines_of_written.
  2:{ apply Forall_fmap. eapply Forall_impl; [exact Hw|].
      intros cc Hcc. by apply has_line_end_join. }
  rewrite <- list_fmap_compose.
  assert (∀ i, Str.split <$> ((λ b, b +:+ newline) ∘ join_tab <$> ccs) !! i
               = ccs !! i) as Hline.
  { intros i. rewrite list_lookup_fmap. destruct (ccs !! i) as [cc|] eqn:E; [|done].
    cbn. f_equal. apply split_join_words.
    by apply (Forall_lookup_1 _ _ _ _ Hw E). }
  destruct (load_gene_order_lines ((λ b, b +:+ newline) ∘ join_tab <$> ccs))
    as [Hc Hg].
  split.
  - apply map_eq. intros i. by rewrite Hc, Hline, lookup_map_seq_0.
  - intros g i. rewrite Hg. clear Hc Hg.
    assert (∀ j cc, ccs !! j = Some cc →
              ∃ line, ((λ b, b +:+ newline) ∘ join_tab <$> ccs) !! j = Some line
                      ∧ Str.split line = cc) as Hfw.
    { intros j cc Hj. pose proof (Hline j) as Hlj. rewrite Hj in Hlj.
      destruct (((λ b, b +:+ newline) ∘ join_tab <$> ccs) !! j) as [line|];
        [|done].
      exists line. split; [done|]. by injection Hlj. }
    assert (∀ j line, ((λ b, b +:+ newline) ∘ join_tab <$> ccs) !! j = Some line →
              ccs !! j = Some (Str.split line)) as Hbw.
    { intros j line Hj. rewrite <- Hline, Hj. done. }
    split.
    + intros [(line & Hl & Hin) Hafter]. split.
      * exists (Str.split line). split; [by apply Hbw|done].
      * intros j cc Hij Hj. destruct (Hfw j cc Hj) as (line' & Hl' & <-).
        by apply (Hafter j).
    + intros [(cc & Hi & Hin) Hafter]. split.
      * destruct (Hfw i cc Hi) as (line & Hl & <-). by exists line.
      * intros j line Hij Hj. apply (Hafter j); [done|]. by apply Hbw.
Qed.

Lemma write_components_load_gene_order_example :
  (load_gene_order
     (lines_of (written (write_components_as_tsv [["A"; "B"]; []; ["C"]])))).2
  = map_seq 0 [["A"; "B"]; []; ["C"]]
  ∧ ∀ g i,
      (load_gene_order
         (lines_of (written (write_components_as_tsv [["A"; "B"]; []; ["C"]])))).1
        !! g = Some i ↔
      (∃ cc, [["A"; "B"]; []; ["C"]] !! i = Some cc ∧ g ∈ cc)
      ∧ ∀ j cc, (i < j)%nat → [["A"; "B"]; []; ["C"]] !! j = Some cc → g ∉ cc.
Proof.
  apply (write_components_load_gene_order [["A"; "B"]; []; ["C"]]).
  repeat constructor; done.
Defined.

(** ** Dictionaries built from a generator *)

Lemma dict_update_fmap {A B V} (h : A → B) (d : gmap string V) (xs : list A)
    (item : B → result (option (string * V))) :
  dict_update d (h <$> xs) item = dict_update d xs (item ∘ h).
Proof.
  revert d. induction xs as [|x xs IH]; intros d; simpl; [done|].
  destruct (item (h x)) as [kv|e]; simpl; [|done]. apply IH.
Qed.

Lemma dict_update_raise_inv {A V} (d : gmap string V) (xs : list A)
    (item : A → result (option (string * V))) e :
  dict_update d xs item = Raise e → ∃ x, x ∈ xs ∧ item x = Raise e.
Proof.
  revert d. induction xs as [|x xs IH]; intros d; simpl; [done|].
  destruct (item x) as [kv|e'] eqn:E; simpl.
  - intros (y & Hy & Hfy)%IH. exists y. split; [by apply list_elem_of_further|done].
  - intros [= ->]. exists x. split; [apply list_elem_of_here|done].
Qed.

Lemma dict_update_last {A V} (d d' : gmap string V) (xs : list A)
    (item : A → result (option (string * V))) (k : string) :
  dict_update d xs item = Ok d' →
  ((∀ j x v, xs !! j = Some x → item x ≠ Ok (Some (k, v))) ∧ d' !! k = d !! k)
  ∨ (∃ n x v, xs !! n = Some x ∧ item x = Ok (Some (k, v))
       ∧ (∀ j y v', (n < j)%nat → xs !! j = Some y → item y ≠ Ok (Some (k, v')))
       ∧ d' !! k = Some v).
Proof.
  revert d. induction xs as [|x xs IH]; intros d; simpl.
  - intros [= <-]. left. split; [|done]. intros j x v Hj. by destruct j.
  - destruct (item x) as [kv|e] eqn:E; simpl; [|done]. intros Hd.
    destruct (IH _ Hd) as [[Hnone Hval]|(n & y & v & Hn & Hy & Hlast & Hval)].
    + destruct kv as [[k0 v0]|].
      * destruct (decide (k0 = k)) as [->|Hne].
        -- right. exists 0%nat, x, v0. rewrite lookup_insert_eq in Hval.
           split; [done|]. split; [done|]. split; [|done].
           intros j y v' Hj Hy. destruct j as [|j]; [lia|]. by apply (Hnone j).
        -- left. rewrite lookup_insert_ne in Hval by done. split; [|done].
           intros j y v' Hy. destruct j as [|j]; [|by apply (Hnone j)].
           injection Hy as <-. rewrite E. congruence.
      * left. split; [|done].
        intros j y v' Hy. destruct j as [|j]; [|by apply (Hnone j)].
        injection Hy as <-. by rewrite E.
    + right. exists (S n), y, v. split; [done|]. split; [done|]. split; [|done].
      intros j z v' Hj Hz. destruct j as [|j]; [lia|]. apply (Hlast j); [lia|done].
Qed.

(** A dictionary built from items that each give one entry or raise. *)
Lemma dict_update_entries {A V} (xs : list A)
    (item : A → result (option (string * V))) (entry : A → option (string * V)) :
  (∀ x, match entry x with
        | Some kv => item x = Ok (Some kv)
        | None => is_ok (item x) = false
        end) →
  match dict_update ∅ xs item with
  | Ok d => (∀ x, x ∈ xs → is_Some (entry x))
            ∧ ∀ k v, d !! k = Some v ↔ last_entry entry xs k v
  | Raise e => ∃ x, x ∈ xs ∧ item x = Raise e ∧ entry x = None
  end.
Proof.
  intros Hitem. destruct (dict_update ∅ xs item) as [d|e] eqn:Hd.
  - split.
    + intros x Hx. destruct (dict_update_key _ _ _ _ x Hd Hx) as (kv & Hkv & _).
      pose proof (Hitem x) as Hix. destruct (entry x); [done|]. by rewrite Hkv in Hix.
    + intros k v. unfold last_entry.
      destruct (dict_update_last _ _ _ _ k Hd)
        as [[Hnone Hval]|(n & x & v0 & Hn & Hx & Hlast & Hval)]; rewrite Hval.
      * rewrite lookup_empty. split; [done|]. intros (n & x & Hn & He & _).
        pose proof (Hitem x) as Hix. rewrite He in Hix. by destruct (Hnone n x v).
      * split.
        -- intros [= <-]. exists n, x. split; [done|].
           pose proof (Hitem x) as Hix. destruct (entry x) as [kv|] eqn:He.
           ++ rewrite Hx in Hix. injection Hix as <-. split; [done|].
              intros j y v' Hj Hy Hey. pose proof (Hitem y) as Hiy.
              rewrite Hey in Hiy. by destruct (Hlast j y v').
           ++ by rewrite Hx in Hix.
        -- intros (n' & x' & Hn' & He' & Hlast').
           pose proof (Hitem x') as Hix'. rewrite He' in Hix'.
           destruct (Nat.lt_trichotomy n n') as [Hlt|[->|Hgt]].
           ++ by destruct (Hlast n' x' v).
           ++ rewrite Hn in Hn'. injection Hn' as <-. rewrite Hx in Hix'.
              congruence.
           ++ pose proof (Hitem x) as Hix. rewrite Hx in Hix.
              destruct (entry x) as [kv|] eqn:He; [|done].
              injection Hix as <-. by destruct (Hlast' n x v0).
  - apply dict_update_raise_inv in Hd as (x & Hx & Hix). exists x.
    split; [done|]. split; [done|]. pose proof (Hitem x) as Hix'.
    destruct (entry x); [by rewrite Hix in Hix'|done].
Qed.

Ltac entries_of entry :=
  rewrite dict_update_fmap;
  match goal with
  | |- context [dict_update ∅ ?f ?it] =>
      let H := fresh "Hent" in
      assert (∀ x, match entry x with
                   | Some kv => it x = Ok (Some kv)
                   | None => is_ok (it x) = false
                   end) as H;
      [|apply (dict_update_entries f it entry) in H;
        destruct (dict_update ∅ f it)]
  end.

(** X14: [load_sample_types] raises, and then [IndexError], exactly when
    a line has fewer than two fields; otherwise a sample has the type given
    on the last line that names it. Lines that begin with [#] are read like
    any other. *)
Theorem load_sample_types_entries (type_file : list string) :
  match load_sample_types type_file with
  | Ok d =>
      (∀ line, line ∈ type_file → is_Some (two_fields line))
      ∧ ∀ s t, d !! s = Some t ↔ last_entry two_fields type_file s t
  | Raise e =>
      e = IndexError ∧ ∃ line, line ∈ type_file ∧ two_fields line = None
  end.
Proof.
  unfold load_sample_types. entries_of two_fields.
  - intros line. unfold two_fields, compose.
    by destruct (Str.split line) as [|a0 [|a1 arr]].
  - done.
  - destruct Hent as (line & Hl & Hraise & Hnone). split; [|by exists line].
    unfold two_fields, compose in *.
    destruct (Str.split line) as [|a0 [|a1 arr]]; simpl in Hraise; congruence.
Qed.

(** X15: [load_gene_lengths] returns exactly when every line has two
    fields of which the second reads as an integer; a gene then has the
    length given on the last line that names it. It raises [IndexError] or
    [ValueError] otherwise. *)
Theorem load_gene_lengths_entries (gene_lengths_file : list string) :
  match load_gene_lengths gene_lengths_file with
  | Ok d =>
      (∀ line, line ∈ gene_lengths_file → is_Some (length_entry line))
      ∧ ∀ g n, d !! g = Some n ↔ last_entry length_entry gene_lengths_file g n
  | Raise e =>
      (e = IndexError ∨ e = ValueError)
      ∧ ∃ line, line ∈ gene_lengths_file ∧ length_entry line = None
  end.
Proof.
  unfold load_gene_lengths. entries_of length_entry.
  - intros line. unfold length_entry, compose, int.
    destruct (Str.split line) as [|a0 [|a1 arr]]; [done..|]. simpl.
    by destruct (Str.int a1).
  - done.
  - destruct Hent as (line & Hl & Hraise & Hnone). split; [|by exists line].
    unfold compose, int in Hraise.
    destruct (Str.split line) as [|a0 [|a1 arr]]; simpl in Hraise;
      [left; congruence..|].
    destruct (Str.int a1); simpl in Hraise; [done|]. right. congruence.
Qed.

(** X16: the three loaders of a table of scores, [load_heat_tsv],
    [load_display_score_tsv] and [load_gene_specific_bmrs], compute the same
    function: it returns exactly when every line has two fields of which the
    second is accepted by [float]; a gene then has the score given on the last
    line that names it. It raises [IndexError] or [ValueError] otherwise. *)
Theorem load_scores_entries (float_of : string → option float)
    (score_file : list string) :
  load_display_score_tsv float_of score_file = load_heat_tsv float_of score_file
  ∧ load_gene_specific_bmrs float_of score_file = load_heat_tsv float_of score_file
  ∧ match load_heat_tsv float_of score_file with
    | Ok d =>
        (∀ line, line ∈ score_file → is_Some (score_entry float_of line))
        ∧ ∀ g x, d !! g = Some x ↔
                 last_entry (score_entry float_of) score_file g x
    | Raise e =>
        (e = IndexError ∨ e = ValueError)
        ∧ ∃ line, line ∈ score_file ∧ score_entry float_of line = None
    end.
Proof.
  split; [done|]. split; [done|].
  unfold load_heat_tsv. entries_of (score_entry float_of).
  - intros line. unfold score_entry, compose, to_float.
    destruct (Str.split line) as [|a0 [|a1 arr]]; [done..|]. simpl.
    by destruct (float_of a1).
  - done.
  - destruct Hent as (line & Hl & Hraise & Hnone). split; [|by exists line].
    unfold compose, to_float in Hraise.
    destruct (Str.split line) as [|a0 [|a1 arr]]; simpl in Hraise;
      [left; congruence..|].
    destruct (float_of a1); simpl in Hraise; [done|]. right. congruence.
Qed.

(** ** The gene index and the edge list *)

Lemma dict_update_Z_fmap {A B V} (h : A → B) (d : gmap Z V) (xs : list A)
    (item : B → result (Z * V)) :
  dict_update_Z d (h <$> xs) item = dict_update_Z d xs (item ∘ h).
Proof.
  revert d. induction xs as [|x xs IH]; intros d; simpl; [done|].
  destruct (item (h x)) as [[k v]|e]; simpl; [|done]. apply IH.
Qed.

Lemma dict_update_Z_raise_inv {A V} (d : gmap Z V) (xs : list A)
    (item : A → result (Z * V)) e :
  dict_update_Z d xs item = Raise e → ∃ x, x ∈ xs ∧ item x = Raise e.
Proof.
  revert d. induction xs as [|x xs IH]; intros d; simpl; [done|].
  destruct (item x) as [[k v]|e'] eqn:E; simpl.
  - intros (y & Hy & Hfy)%IH. exists y. split; [by apply list_elem_of_further|done].
  - intros [= ->]. exists x. split; [apply list_elem_of_here|done].
Qed.

Lemma dict_update_Z_last {A V} (d d' : gmap Z V) (xs : list A)
    (item : A → result (Z * V)) (k : Z) :
  dict_update_Z d xs item = Ok d' →
  ((∀ j x v, xs !! j = Some x → item x ≠ Ok (k, v)) ∧ d' !! k = d !! k)
  ∨ (∃ n x v, xs !! n = Some x ∧ item x = Ok (k, v)
       ∧ (∀ j y v', (n < j)%nat → xs !! j = Some y → item y ≠ Ok (k, v'))
       ∧ d' !! k = Some v).
Proof.
  revert d. induction xs as [|x xs IH]; intros d; simpl.
  - intros [= <-]. left. split; [|done]. intros j x v Hj. by destruct j.
  - destruct (item x) as [[k0 v0]|e] eqn:E; simpl; [|done]. intros Hd.
    destruct (IH _ Hd) as [[Hnone Hval]|(n & y & v & Hn & Hy & Hlast & Hval)].
    + destruct (decide (k0 = k)) as [->|Hne].
      * right. exists 0%nat, x, v0. rewrite lookup_insert_eq in Hval.
        split; [done|]. split; [done|]. split; [|done].
        intros j y v' Hj Hy. destruct j as [|j]; [lia|]. by apply (Hnone j).
      * left. rewrite lookup_insert_ne in Hval by done. split; [|done].
        intros j y v' Hy. destruct j as [|j]; [|by apply (Hnone j)].
        injection Hy as <-. rewrite E. congruence.
    + right. exists (S n), y, v. split; [done|]. split; [done|]. split; [|done].
      intros j z v' Hj Hz. destruct j as [|j]; [lia|]. apply (Hlast j); [lia|done].
Qed.

Lemma load_index_items (f : list string) :
  load_index f = dict_update_Z ∅ f (index_item ∘ Str.split).
Proof. unfold load_index. by rewrite dict_update_Z_fmap. Qed.

Lemma load_index_item (line : string) :
  match index_entry line with
  | Some kv => (index_item ∘ Str.split) line = Ok kv
  | None => ∃ e, (e = IndexError ∨ e = ValueError)
                 ∧ (index_item ∘ Str.split) line = Raise e
  end.
Proof.
  unfold index_entry, index_item, compose, int.
  destruct (Str.split line) as [|a0 [|a1 arr]]; simpl.
  - exists IndexError. split; [by left|done].
  - destruct (Str.int a0); simpl.
    + exists IndexError. split; [by left|done].
    + exists ValueError. split; [by right|done].
  - destruct (Str.int a0); simpl; [done|].
    exists ValueError. split; [by right|done].
Qed.

(** X17: [load_index] returns exactly when every line has two fields of
    which the first reads as an integer; an index then has the name given on
    the last line that carries it. It raises [IndexError] or [ValueError]
    otherwise. *)
Theorem load_index_entries (index_file : list string) :
  match load_index index_file with
  | Ok d =>
      (∀ line, line ∈ index_file → is_Some (index_entry line))
      ∧ ∀ i g, d !! i = Some g ↔ last_entry index_entry index_file i g
  | Raise e =>
      (e = IndexError ∨ e = ValueError)
      ∧ ∃ line, line ∈ index_file ∧ index_entry line = None
  end.
Proof.
  rewrite load_index_items.
  destruct (dict_update_Z _ _ _) as [d|e] eqn:Hd.
  - split.
    + intros line Hl. pose proof (load_index_item line) as Hitem.
      destruct (index_entry line); [done|]. destruct Hitem as (e & _ & Hraise).
      pose proof (dict_update_Z_not_ok ∅ index_file _ line e Hl Hraise) as Hno.
      by rewrite Hd in Hno.
    + intros i g. unfold last_entry.
      destruct (dict_update_Z_last _ _ _ _ i Hd)
        as [[Hnone Hval]|(n & x & v0 & Hn & Hx & Hlast & Hval)]; rewrite Hval.
      * rewrite lookup_empty. split; [done|]. intros (n & x & Hn & He & _).
        pose proof (load_index_item x) as Hix. rewrite He in Hix.
        by destruct (Hnone n x g).
      * split.
        -- intros [= <-]. exists n, x. split; [done|].
           pose proof (load_index_item x) as Hix.
           destruct (index_entry x) as [kv|] eqn:He.
           ++ rewrite Hx in Hix. injection Hix as <-. split; [done|].
              intros j y v' Hj Hy Hey. pose proof (load_index_item y) as Hiy.
              rewrite Hey in Hiy. by destruct (Hlast j y v').
           ++ destruct Hix as (e & _ & Hraise). by rewrite Hx in Hraise.
        -- intros (n' & x' & Hn' & He' & Hlast').
           pose proof (load_index_item x') as Hix'. rewrite He' in Hix'.
           destruct (Nat.lt_trichotomy n n') as [Hlt|[->|Hgt]].
           ++ by destruct (Hlast n' x' g).
           ++ rewrite Hn in Hn'. injection Hn' as <-. rewrite Hx in Hix'.
              congruence.
           ++ pose proof (load_index_item x) as Hix.
              destruct (index_entry x) as [kv|] eqn:He.
              ** rewrite Hx in Hix. injection Hix as <-.
                 by destruct (Hlast' n x v0).
              ** destruct Hix as (e & _ & Hraise). by rewrite Hx in Hraise.
  - apply dict_update_Z_raise_inv in Hd as (line & Hl & Hraise).
    pose proof (load_index_item line) as Hitem.
    destruct (index_entry line) as [kv|] eqn:He; [by rewrite Hraise in Hitem|].
    destruct Hitem as (e' & He' & Hraise'). rewrite Hraise in Hraise'.
    injection Hraise' as ->. split; [done|]. by exists line.
Qed.

Lemma set_of_size {A} `{Countable K} (xs : list A) (f : A → result K) s :
  set_of xs f = Ok s → (size s ≤ length xs)%nat.
Proof.
  revert s. induction xs as [|x xs IH]; intros s; simpl.
  - intros [= <-]. by rewrite size_empty.
  - destruct (f x) as [k|e]; simpl; [|done].
    destruct (set_of xs f) as [s'|e]; simpl; [|done]. intros [= <-].
    rewrite size_union_alt, size_singleton.
    pose proof (IH s' eq_refl).
    pose proof (subseteq_size (s' ∖ {[k]}) s') as Hsub.
    assert (s' ∖ {[k]} ⊆ s') as Hd by (intros y [Hy _]%elem_of_difference; done).
    specialize (Hsub Hd). lia.
Qed.

(** X18: when [load_ppi_edges] returns, every line of the edge list has two
    fields that read as integers, an edge of the result is the pair of names
    that the index gives for the two integers of some line, in the order of
    the line, both names are values of the index, and there are at most as many
    edges as lines. *)
Theorem load_ppi_edges_sound (edge_list_file : list string)
    (index2gene : gmap Z string) (s : gset (string * string)) :
  load_ppi_edges edge_list_file index2gene = Ok s →
  (∀ line, line ∈ edge_list_file → is_Some (edge_indices line))
  ∧ (∀ g1 g2, (g1, g2) ∈ s ↔
       ∃ line i j, line ∈ edge_list_file ∧ edge_indices line = Some (i, j)
                   ∧ index2gene !! i = Some g1 ∧ index2gene !! j = Some g2)
  ∧ (∀ g1 g2, (g1, g2) ∈ s →
       g1 ∈ (map_img index2gene : gset string)
       ∧ g2 ∈ (map_img index2gene : gset string))
  ∧ (size s ≤ length edge_list_file)%nat.
Proof.
  rewrite load_ppi_edges_items. intros Hs.
  assert (∀ line, line ∈ edge_list_file →
            ∃ i j g1 g2, edge_indices line = Some (i, j)
              ∧ index2gene !! i = Some g1 ∧ index2gene !! j = Some g2
              ∧ ppi_item index2gene (Str.split line) = Ok (g1, g2)) as Hline.
  { intros line Hl.
    destruct (ppi_item index2gene (Str.split line)) as [[g1 g2]|e] eqn:Hitem.
    - unfold ppi_item, edge_indices, int, getitem in *.
      destruct (Str.split line) as [|a0 [|a1 arr]]; simpl in Hitem; [done| |].
      + destruct (Str.int a0) as [i|]; simpl in Hitem; [|done].
        by destruct (index2gene !! i).
      + destruct (Str.int a0) as [i|]; simpl in Hitem; [|done].
        destruct (index2gene !! i) as [h1|] eqn:Hi; simpl in Hitem; [|done].
        destruct (Str.int a1) as [j|]; simpl in Hitem; [|done].
        destruct (index2gene !! j) as [h2|] eqn:Hj; simpl in Hitem; [|done].
        injection Hitem as <- <-. by exists i, j, h1, h2.
    - assert (is_ok (set_of (Str.split <$> edge_list_file)
                            (ppi_item index2gene)) = false) as Hno;
        [|by rewrite Hs in Hno].
      apply set_of_not_ok with (x := Str.split line) (e := e); [|done].
      by apply list_elem_of_fmap_2. }
  assert (∀ g1 g2, (g1, g2) ∈ s ↔
            ∃ line i j, line ∈ edge_list_file ∧ edge_indices line = Some (i, j)
              ∧ index2gene !! i = Some g1 ∧ index2gene !! j = Some g2) as Hedge.
  { intros g1 g2. rewrite (set_of_elem _ _ _ _ Hs). split.
    - intros (arr & (line & -> & Hl)%list_elem_of_fmap & Hitem).
      destruct (Hline line Hl) as (i & j & h1 & h2 & He & Hi & Hj & Hitem').
      rewrite Hitem in Hitem'. injection Hitem' as -> ->. by exists line, i, j.
    - intros (line & i & j & Hl & He & Hi & Hj). exists (Str.split line).
      split; [by apply list_elem_of_fmap_2|].
      by rewrite (ppi_item_edge _ _ _ _ He), Hi, Hj. }
  split; [|split; [done|split]].
  - intros line Hl. destruct (Hline line Hl) as (i & j & _ & _ & -> & _). by eexists.
  - intros g1 g2 (line & i & j & _ & _ & Hi & Hj)%Hedge.
    rewrite !elem_of_map_img. split; [by exists i|by exists j].
  - apply set_of_size in Hs. by rewrite length_fmap in Hs.
Qed.

Lemma load_ppi_edges_sound_example :
  (∀ line, line ∈ ppi_example → is_Some (edge_indices line))
  ∧ (∀ g1 g2, (g1, g2) ∈ ({[ ("A", "B") ]} : gset (string * string)) ↔
       ∃ line i j, line ∈ ppi_example ∧ edge_indices line = Some (i, j)
                   ∧ ({[ 0 := "A"; 1 := "B" ]} : gmap Z string) !! i = Some g1
                   ∧ ({[ 0 := "A"; 1 := "B" ]} : gmap Z string) !! j = Some g2)
  ∧ (∀ g1 g2, (g1, g2) ∈ ({[ ("A", "B") ]} : gset (string * string)) →
       g1 ∈ (map_img ({[ 0 := "A"; 1 := "B" ]} : gmap Z string) : gset string)
       ∧ g2 ∈ (map_img ({[ 0 := "A"; 1 := "B" ]} : gmap Z string) : gset string))
  ∧ (size ({[ ("A", "B") ]} : gset (string * string)) ≤ length ppi_example)%nat.
Proof.
  apply (load_ppi_edges_sound ppi_example {[ 0 := "A"; 1 := "B" ]}
           {[ ("A", "B") ]}).
  vm_compute. reflexivity.
Defined.

(** ** Display names *)

Lemma dict_update_all {A V} (d : gmap string V) (xs : list A)
    (item : A → result (option (string * V))) (kv : A → string * V) :
  (∀ x, x ∈ xs → item x = Ok (Some (kv x))) →
  dict_update d xs item = Ok (foldl (λ d kv, <[kv.1 := kv.2]> d) d (kv <$> xs)).
Proof.
  revert d. induction xs as [|x xs IH]; intros d Hitem; simpl; [done|].
  rewrite (Hitem x) by apply list_elem_of_here. simpl.
  destruct (kv x) as [k v] eqn:E. simpl. apply IH.
  intros y Hy. apply Hitem. by apply list_elem_of_further.
Qed.

Lemma dict_update_not_ok {A V} (d : gmap string V) (xs : list A)
    (item : A → result (option (string * V))) x e :
  x ∈ xs → item x = Raise e → is_ok (dict_update d xs item) = false.
Proof.
  intros Hx Hraise. destruct (dict_update d xs item) as [d'|] eqn:Hd; [|done].
  destruct (dict_update_key _ _ _ _ x Hd Hx) as (kv & Hkv & _). congruence.
Qed.

Lemma name_line_fields (k v : string) :
  has_char tab k = false → has_char tab v = false →
  Str.split_on tab (name_line (k, v)) = [k; v +:+ newline].
Proof.
  intros Hk Hv. unfold name_line.
  change (join_tab [(k, v).1; (k, v).2]) with (k +:+ String tab v).
  rewrite app_assoc_str, app_cons, split_on_app by done.
  rewrite split_on_none; [done|]. by rewrite has_char_app, Hv.
Qed.

(** X19: [load_display_name_tsv] keeps the end of the line in the name: from
    a table with one key and one name per line, separated by a tab, it returns
    each name with the newline that ends its line. *)
Theorem load_display_name_tsv_newline (names : list (string * string)) :
  Forall (λ kv, has_char tab kv.1 = false ∧ has_char tab kv.2 = false) names →
  load_display_name_tsv (name_line <$> names)
  = Ok (dict ((λ kv, (kv.1, kv.2 +:+ newline)) <$> names)).
Proof.
  intros Hnames. unfold load_display_name_tsv, dict.
  rewrite dict_update_fmap.
  rewrite (dict_update_all _ _ _ (λ kv, (kv.1, kv.2 +:+ newline))); [done|].
  intros [k v] Hkv. unfold compose.
  rewrite Forall_forall in Hnames. destruct (Hnames _ Hkv) as [Hk Hv].
  by rewrite name_line_fields.
Qed.

Lemma load_display_name_tsv_newline_example :
  load_display_name_tsv (name_line <$> [("TP53", "p53")])
  = Ok (dict ((λ kv, (kv.1, kv.2 +:+ newline)) <$> [("TP53", "p53")])).
Proof.
  apply (load_display_name_tsv_newline [("TP53", "p53")]).
  repeat constructor.
Defined.

(** X20: a line without a tab, such as a blank line, makes
    [load_display_name_tsv] fail, with the [ValueError] of [dict] for an item
    that is not a pair. *)
Theorem load_display_name_tsv_no_tab (d_name_file : list string) (line : string) :
  line ∈ d_name_file → has_char tab line = false →
  is_ok (load_display_name_tsv d_name_file) = false
  ∧ load_display_name_tsv [line] = Raise ValueError.
Proof.
  intros Hl Ht. unfold load_display_name_tsv. split.
  - apply dict_update_not_ok with (x := line) (e := ValueError); [done|].
    by rewrite split_on_none.
  - simpl. by rewrite split_on_none.
Qed.

Lemma load_display_name_tsv_no_tab_example :
  is_ok (load_display_name_tsv ((name_line <$> [("TP53", "p53")]) ++ [newline]))
  = false
  ∧ load_display_name_tsv [newline] = Raise ValueError.
Proof.
  apply (load_display_name_tsv_no_tab _ newline).
  - apply elem_of_app. right. apply list_elem_of_here.
  - reflexivity.
Defined.

(** ** Score tables with many columns *)

Lemma index_short {A} (arr : list A) (i : nat) :
  (length arr ≤ i)%nat → index arr i = Raise IndexError.
Proof. intros Hi. unfold index. by rewrite lookup_ge_None_2. Qed.

Lemma index_inv {A} (arr : list A) (i : nat) (x : A) :
  index arr i = Ok x → arr !! i = Some x.
Proof. unfold index. destruct (arr !! i); [by intros [= ->]|done]. Qed.

Lemma to_float_inv float_of (s : string) (x : float) :
  to_float float_of s = Ok x → float_of s = Some x.
Proof. unfold to_float. destruct (float_of s); [by intros [= ->]|done]. Qed.

Lemma dict_update_from {A V} (d d' : gmap string V) (xs : list A)
    (item : A → result (option (string * V))) (k : string) (v : V) :
  dict_update d xs item = Ok d' → d' !! k = Some v →
  d !! k = Some v ∨ ∃ x, x ∈ xs ∧ item x = Ok (Some (k, v)).
Proof.
  intros Hd Hk.
  destruct (dict_update_last _ _ _ _ k Hd)
    as [[_ Hval]|(n & x & v0 & Hn & Hx & _ & Hval)].
  - left. by rewrite <- Hval.
  - right. exists x. split; [by apply (list_elem_of_lookup_2 _ n)|]. congruence.
Qed.

(** X21: [load_music_scores] needs thirteen columns on every line that does
    not begin with [#]: a shorter line makes it fail. When it returns, the
    scores of a gene are the three entries [FDR_CT], [FDR_FCPT] and [FDR_LRT],
    read from columns 12, 10 and 11 of a line whose first column is the
    gene. *)
Theorem load_music_scores_columns (float_of : string → option float)
    (scores_file : list string) :
  (∀ line, line ∈ scores_file → Str.startswith "#" line = false →
           (length (columns line) < 13)%nat →
           is_ok (load_music_scores float_of scores_file) = false)
  ∧ (∀ d g scores,
       load_music_scores float_of scores_file = Ok d → d !! g = Some scores →
       ∃ line ct fcpt lrt,
         line ∈ scores_file ∧ Str.startswith "#" line = false
         ∧ columns line !! 0%nat = Some g
         ∧ columns line !! 12%nat ≫= float_of = Some ct
         ∧ columns line !! 10%nat ≫= float_of = Some fcpt
         ∧ columns line !! 11%nat ≫= float_of = Some lrt
         ∧ scores = {[ "FDR_CT" := ct; "FDR_FCPT" := fcpt; "FDR_LRT" := lrt ]}).
Proof.
  unfold load_music_scores. split.
  - intros line Hl Hc Hn.
    apply dict_update_not_ok with (x := columns line) (e := IndexError).
    { apply list_elem_of_fmap_2. by apply uncommented_elem. }
    destruct (index (columns line) 0) as [a0|e] eqn:H0; cbn [mbind result_bind].
    + unfold FDR_CT. by rewrite (index_short (columns line) 12) by lia.
    + unfold index in H0. destruct (columns line !! 0%nat); [done|]. congruence.
  - intros d g scores Hd Hg.
    destruct (dict_update_from _ _ _ _ _ _ Hd Hg) as [Hempty|(arr & Harr & Hitem)];
      [by rewrite lookup_empty in Hempty|].
    apply list_elem_of_fmap in Harr as (line & -> & [Hl Hc]%uncommented_inv).
    fold (columns line) in Hitem. unfold FDR_CT, FDR_FCPT, FDR_LRT in Hitem.
    destruct (index (columns line) 0) as [a0|] eqn:H0; simpl in Hitem; [|done].
    destruct (index (columns line) 12) as [c12|] eqn:H12; simpl in Hitem; [|done].
    destruct (to_float float_of c12) as [ct|] eqn:Hct; simpl in Hitem; [|done].
    destruct (index (columns line) 10) as [c10|] eqn:H10; simpl in Hitem; [|done].
    destruct (to_float float_of c10) as [fcpt|] eqn:Hfcpt; simpl in Hitem; [|done].
    destruct (index (columns line) 11) as [c11|] eqn:H11; simpl in Hitem; [|done].
    destruct (to_float float_of c11) as [lrt|] eqn:Hlrt; simpl in Hitem; [|done].
    injection Hitem as -> <-. exists line, ct, fcpt, lrt.
    rewrite (index_inv _ _ _ H0), (index_inv _ _ _ H12), (index_inv _ _ _ H10),
      (index_inv _ _ _ H11). simpl.
    rewrite (to_float_inv _ _ _ Hct), (to_float_inv _ _ _ Hfcpt),
      (to_float_inv _ _ _ Hlrt). done.
Qed.

(** X22: [load_mutsig_scores] takes the p-value and the q-value from the last
    two columns that are left after the whitespace at the end of the line is
    removed: a line with a single column makes it fail, and when it returns,
    the scores of a gene are the entries [pval] and [qval] read from the last
    but one and the last column of a line whose first column is the gene. *)
Theorem load_mutsig_scores_columns (float_of : string → option float)
    (scores_file : list string) :
  (∀ line, line ∈ scores_file → Str.startswith "#" line = false →
           (length (columns line) < 2)%nat →
           is_ok (load_mutsig_scores float_of scores_file) = false)
  ∧ (∀ d g scores,
       load_mutsig_scores float_of scores_file = Ok d → d !! g = Some scores →
       ∃ line pval qval,
         line ∈ scores_file ∧ Str.startswith "#" line = false
         ∧ (2 ≤ length (columns line))%nat
         ∧ columns line !! 0%nat = Some g
         ∧ columns line !! (length (columns line) - 2)%nat ≫= float_of = Some pval
         ∧ columns line !! (length (columns line) - 1)%nat ≫= float_of = Some qval
         ∧ scores = {[ "pval" := pval; "qval" := qval ]}).
Proof.
  unfold load_mutsig_scores. split.
  - intros line Hl Hc Hn.
    apply dict_update_not_ok with (x := columns line) (e := IndexError).
    { apply list_elem_of_fmap_2. by apply uncommented_elem. }
    destruct (index (columns line) 0) as [a0|e] eqn:H0; cbn [mbind result_bind].
    + unfold index_back.
      by rewrite (bool_decide_eq_false_2 (2 ≤ length (columns line))%nat) by lia.
    + unfold index in H0. destruct (columns line !! 0%nat); [done|]. congruence.
  - intros d g scores Hd Hg.
    destruct (dict_update_from _ _ _ _ _ _ Hd Hg) as [Hempty|(arr & Harr & Hitem)];
      [by rewrite lookup_empty in Hempty|].
    apply list_elem_of_fmap in Harr as (line & -> & [Hl Hc]%uncommented_inv).
    fold (columns line) in Hitem. unfold index_back in Hitem.
    destruct (index (columns line) 0) as [a0|] eqn:H0; simpl in Hitem; [|done].
    destruct (bool_decide (2 ≤ length (columns line))%nat) eqn:H2;
      simpl in Hitem; [|done].
    apply bool_decide_eq_true_1 in H2.
    destruct (index (columns line) (length (columns line) - 2)) as [p|] eqn:Hp;
      simpl in Hitem; [|done].
    destruct (to_float float_of p) as [pval|] eqn:Hpval; simpl in Hitem; [|done].
    rewrite (bool_decide_eq_true_2 (1 ≤ length (columns line))%nat) in Hitem by lia.
    destruct (index (columns line) (length (columns line) - 1)) as [q|] eqn:Hq;
      simpl in Hitem; [|done].
    destruct (to_float float_of q) as [qval|] eqn:Hqval; simpl in Hitem; [|done].
    injection Hitem as -> <-. exists line, pval, qval.
    rewrite (index_inv _ _ _ H0), (index_inv _ _ _ Hp), (index_inv _ _ _ Hq).
    simpl. rewrite (to_float_inv _ _ _ Hpval), (to_float_inv _ _ _ Hqval). done.
Qed.

(** ** Heat files *)

Lemma split_by_piece_free (sep : ascii → bool) (s x : string) :
  x ∈ Str.split_by sep s → ∀ c, sep c = true → has_char c x = false.
Proof.
  revert x. induction s as [|a s IH]; intros x; cbn [Str.split_by].
  - by intros ->%list_elem_of_singleton.
  - destruct (sep a) eqn:Ha.
    + intros [->|Hx]%elem_of_cons; [done|by apply IH].
    + assert (∀ c, sep c = true → Ascii.eqb c a = false) as Hne.
      { intros c Hc. destruct (Ascii.eqb_spec c a) as [->|]; congruence. }
      destruct (Str.split_by sep s) as [|p ps].
      * intros ->%list_elem_of_singleton c Hc. cbn [has_char]. by rewrite Hne.
      * intros [->|Hx]%elem_of_cons c Hc.
        -- cbn [has_char]. rewrite Hne by done. by apply IH, Hc; left.
        -- apply IH; [by right|done].
Qed.

Lemma split_by_prefix (sep : ascii → bool) (s p : string) (rest : list string) :
  Str.split_by sep s = p :: rest → ∃ t, s = p +:+ t.
Proof.
  revert p rest. induction s as [|a s IH]; intros p rest; cbn [Str.split_by].
  - intros [= <- <-]. by exists "".
  - destruct (sep a).
    + intros [= <- <-]. by exists (String a s).
    + destruct (Str.split_by sep s) as [|q qs] eqn:Hs.
      * destruct (split_by_nonempty sep s) as (q & qs & Hs'). congruence.
      * intros [= <- <-]. destruct (IH q qs eq_refl) as [t ->].
        exists t. by rewrite app_cons.
Qed.

Lemma index_last_inv {A} (arr : list A) (x : A) :
  index_last arr = Ok x → x ∈ arr.
Proof.
  unfold index_last. destruct (last arr) as [y|] eqn:E; [|done].
  intros [= <-]. apply last_Some in E as [l' ->].
  apply elem_of_app. right. apply list_elem_of_here.
Qed.

Lemma index_last_nonempty sep s : is_ok (index_last (Str.split_by sep s)) = true.
Proof.
  destruct (split_by_nonempty sep s) as (p & ps & ->). unfold index_last.
  destruct (last (p :: ps)) eqn:E; [done|]. by apply last_None in E.
Qed.

(** X23: what [load_heat_file] returns for a file of tab-separated scores
    ([json_heat] false): the scores of [load_heat_tsv], a name that has
    neither a slash nor a dot, and the empty mutation data; it raises only
    when the file is missing or [load_heat_tsv] raises, never while it derives
    the name from the path. *)
Theorem load_heat_file_tsv (float_of : string → option float) (fs : filesystem)
    (heat_file : string) :
  match load_heat_file float_of fs heat_file false with
  | Ok (heat, name, mutations) =>
      mutations = ([], [], ∅)
      ∧ ∃ f d n, fs !! heat_file = Some f
          ∧ load_heat_tsv float_of (lines f) = Ok d
          ∧ heat = HeatTsv d ∧ name = JStr n
          ∧ has_char "/" n = false ∧ has_char "." n = false
  | Raise e =>
      (e = FileNotFoundError ∧ fs !! heat_file = None)
      ∨ ∃ f, fs !! heat_file = Some f
             ∧ load_heat_tsv float_of (lines f) = Raise e
  end.
Proof.
  unfold load_heat_file, open.
  destruct (fs !! heat_file) as [f|]; cbn [mbind result_bind]; [|by left].
  destruct (load_heat_tsv float_of (lines f)) as [d|e] eqn:Hd;
    cbn [mbind result_bind]; [|right; by exists f].
  destruct (index_last (Str.split_on "/" heat_file)) as [base|] eqn:Hbase.
  2:{ pose proof (index_last_nonempty (Ascii.eqb "/") heat_file) as Hok.
      unfold Str.split_on in Hbase. by rewrite Hbase in Hok. }
  cbn [mbind result_bind]. unfold Str.split_on at 1.
  destruct (Str.split_by (Ascii.eqb ".") base) as [|n rest] eqn:Hn.
  { destruct (split_by_nonempty (Ascii.eqb ".") base) as (? & ? & ?). congruence. }
  cbn. split; [done|]. exists f, d, n. do 4 (split; [done|]). split.
  - destruct (split_by_prefix _ _ _ _ Hn) as [t ->].
    apply index_last_inv in Hbase.
    pose proof (split_by_piece_free (Ascii.eqb "/") heat_file _ Hbase "/"%char
                  (Ascii.eqb_refl _)) as Hfree.
    rewrite has_char_app in Hfree. by apply orb_false_iff in Hfree as [? _].
  - apply (split_by_first _ _ _ _ Hn). apply Ascii.eqb_refl.
Qed.

Lemma split_by_app_sep (sep : ascii → bool) (a b : string) (c : ascii) :
  sep c = true →
  ∃ p pre, Str.split_by sep (a +:+ String c b) = p :: pre ++ Str.split_by sep b.
Proof.
  intros Hc. induction a as [|x a (p & pre & IH)].
  - exists "", []. rewrite app_nil. cbn [Str.split_by]. by rewrite Hc.
  - rewrite app_cons. cbn [Str.split_by]. rewrite IH. destruct (sep x).
    + by exists "", (p :: pre).
    + by exists (String x p), pre.
Qed.

(** X24: the name that [load_heat_file] gives to a file of tab-separated
    scores is what stands between the last slash of the path and the first dot
    after it. *)
Theorem load_heat_file_tsv_name (float_of : string → option float)
    (fs : filesystem) (dir stem ext : string) (f : file) (d : gmap string float) :
  has_char "/" stem = false → has_char "." stem = false →
  has_char "/" ext = false →
  fs !! (dir +:+ String "/" (stem +:+ String "." ext)) = Some f →
  load_heat_tsv float_of (lines f) = Ok d →
  load_heat_file float_of fs (dir +:+ String "/" (stem +:+ String "." ext)) false
  = Ok (HeatTsv d, JStr stem, ([], [], ∅)).
Proof.
  intros Hs1 Hs2 He Hf Hd. unfold load_heat_file, open. rewrite Hf.
  cbn [mbind result_bind]. rewrite Hd. cbn [mbind result_bind].
  assert (index_last (Str.split_on "/" (dir +:+ String "/" (stem +:+ String "." ext)))
          = Ok (stem +:+ String "." ext)) as ->.
  { unfold Str.split_on.
    destruct (split_by_app_sep (Ascii.eqb "/") dir (stem +:+ String "." ext) "/")
      as (p & pre & ->); [done|].
    fold (Str.split_on "/" (stem +:+ String "." ext)).
    rewrite split_on_none.
    - unfold index_last. by rewrite app_comm_cons, last_snoc.
    - rewrite has_char_app, Hs1. cbn [has_char]. by rewrite He. }
  cbn [mbind result_bind].
  destruct (split_on_first "." stem ext Hs2) as [pieces ->]. done.
Qed.

Lemma load_heat_file_tsv_name_example :
  load_heat_file float_example
    {[ "data" +:+ String "/" ("heat" +:+ String "." "tsv")
       := mkFile [join_tab ["G1"; "0.5"] +:+ newline] None ]}
    ("data" +:+ String "/" ("heat" +:+ String "." "tsv")) false
  = Ok (HeatTsv {[ "G1" := 0.5%float ]}, JStr "heat", ([], [], ∅)).
Proof.
  apply (load_heat_file_tsv_name float_example _ "data" "heat" "tsv"
           (mkFile [join_tab ["G1"; "0.5"] +:+ newline] None)).
  - reflexivity.
  - reflexivity.
  - reflexivity.
  - vm_compute. reflexivity.
  - vm_compute. reflexivity.
Defined.

Lemma if_param_inv {A} fs heat_params key (load : list string → result A) dflt r :
  if_param fs heat_params key load dflt = Ok r →
  r = dflt ∨ ∃ f, load (lines f) = Ok r.
Proof.
  rewrite if_param_cases.
  destruct (jgetitem heat_params key) as [c|]; simpl; [|done].
  destruct (jtruthy c); [|intros [= <-]; by left].
  destruct (open fs c) as [f|]; simpl; [|done]. intros Hr. right. by exists f.
Qed.

Lemma mem_truthy (x : string) (w : whitelist) :
  truthy w = true → include x w = true → x ∈ default ∅ w.
Proof.
  unfold include. intros ->. destruct w as [s|]; [|done]. simpl.
  apply bool_decide_eq_true_1.
Qed.

(** X25: the mutation data that [load_heat_file] returns for a JSON heat
    file: every type in [sampleToType] is ["Cancer"] (no sample type file is
    ever read), every sample of a returned mutation has a type, the first list
    holds SNVs only and the second amplifications and deletions only. *)
Theorem load_heat_file_json_mutations (float_of : string → option float)
    (fs : filesystem) (heat_file : string) (heat : heat_scores) (name : json)
    (snvs cnas : list Mutation) (sampleToType : gmap string string) :
  load_heat_file float_of fs heat_file true
    = Ok (heat, name, (snvs, cnas, sampleToType)) →
  (∀ s t, sampleToType !! s = Some t → t = "Cancer")
  ∧ (∀ m, m ∈ snvs ++ cnas → is_Some (sampleToType !! sample m))
  ∧ (∀ m, m ∈ snvs → mtype m = SNV)
  ∧ (∀ m, m ∈ cnas → mtype m = AMP ∨ mtype m = DEL).
Proof.
  unfold load_heat_file, open, json_load.
  destruct (fs !! heat_file) as [f|]; simpl; [|done].
  destruct (document f) as [obj|]; simpl; [|done].
  destruct (jgetitem obj "parameters") as [heat_params|]; simpl; [|done].
  destruct (jgetitem heat_params "name") as [nm|] eqn:Hname; simpl; [|done].
  destruct (jgetitem obj "heat") as [h|]; simpl; [|done].
  rewrite (heat_fn_of_object _ _ Hname). simpl.
  destruct (jeq_str (heat_fn_of heat_params) "load_mutation_heat").
  2:{ intros [= <- <- <- <- <-]. split; [by intros s t; rewrite lookup_empty|].
      split; [by intros m Hm; apply elem_of_nil in Hm|].
      split; intros m Hm; by apply elem_of_nil in Hm. }
  destruct (if_param fs heat_params "sample_file" _ _) as [samples|];
    simpl; [|done].
  destruct (if_param fs heat_params "gene_file" _ _) as [genes|];
    simpl; [|done].
  destruct (if_param fs heat_params "snv_file" _ _) as [snvs'|] eqn:Hsnvs;
    simpl; [|done].
  destruct (if_param fs heat_params "cna_file" _ _) as [cnas'|] eqn:Hcnas;
    simpl; [|done].
  destruct (jtruthy (jget heat_params "sample_type_file")); [done|].
  intros [= <- <- <- <- <-].
  assert (∀ m, m ∈ snvs' → mtype m = SNV ∧ include (sample m) samples = true)
    as Hs.
  { intros m Hm. apply if_param_inv in Hsnvs as [->|[f' Hload]];
      [by apply elem_of_nil in Hm|].
    destruct (load_snvs_elem _ _ _ _ _ Hload Hm) as [Hty Hpass].
    split; [done|]. unfold passes in Hpass. by apply andb_true_iff in Hpass as [? _]. }
  assert (∀ m, m ∈ cnas' →
            (mtype m = AMP ∨ mtype m = DEL) ∧ include (sample m) samples = true)
    as Hc.
  { intros m Hm. apply if_param_inv in Hcnas as [->|[f' Hload]];
      [by apply elem_of_nil in Hm|].
    destruct (load_cnas_elem _ _ _ _ _ Hload Hm) as (Hty & _ & Hpass & _).
    split; [done|]. unfold passes in Hpass. by apply andb_true_iff in Hpass as [? _]. }
  split; [|split; [|split]].
  - intros s t [_ <-]%lookup_gset_to_gmap_Some. done.
  - intros m Hm. apply elem_of_app in Hm.
    assert (include (sample m) samples = true) as Hin.
    { destruct Hm as [Hm|Hm]; [by apply Hs|by apply Hc]. }
    exists "Cancer". apply lookup_gset_to_gmap_Some. split; [|done].
    destruct (truthy samples) eqn:Ht; [by apply mem_truthy|].
    apply elem_of_union. destruct Hm as [Hm|Hm]; [left|right];
      apply elem_of_list_to_set, list_elem_of_fmap; by exists m.
  - intros m Hm. by apply Hs.
  - intros m Hm. by apply Hc.
Qed.

Lemma load_heat_file_json_mutations_example :
  (∀ s t, ({[ "S1" := "Cancer" ]} : gmap string string) !! s = Some t →
          t = "Cancer")
  ∧ (∀ m, m ∈ [mkMutation "S1" "G1" SNV; mkMutation "S1" "G2" SNV]
            ++ [mkMutation "S1" "G1" AMP; mkMutation "S1" "G2" DEL] →
          is_Some (({[ "S1" := "Cancer" ]} : gmap string string) !! sample m))
  ∧ (∀ m, m ∈ [mkMutation "S1" "G1" SNV; mkMutation "S1" "G2" SNV] →
          mtype m = SNV)
  ∧ (∀ m, m ∈ [mkMutation "S1" "G1" AMP; mkMutation "S1" "G2" DEL] →
          mtype m = AMP ∨ mtype m = DEL).
Proof.
  exact (load_heat_file_json_mutations float_example (heat_fs JNull) "heat.json"
           _ _ _ _ _ (load_heat_file_without_types float_example)).
Defined.

(** ** The network file *)

(** X26: the [keys] of [load_hdf5]: an empty list selects every dataset,
    as [None] does; a list that is not empty and lacks one of ["nodes"],
    ["network_name"] and ["edges"] makes the call raise [KeyError]; and what
    is returned holds these three datasets of the file and the numeric
    datasets that are selected. *)
Theorem load_hdf5_keys (f : h5file) (keys : list string) :
  load_hdf5 f (Some []) = load_hdf5 f None
  ∧ (keys ≠ [] →
     "nodes" ∉ keys ∨ "network_name" ∉ keys ∨ "edges" ∉ keys →
     load_hdf5 f (Some keys) = Raise KeyError)
  ∧ (∀ H, load_hdf5 f (Some keys) = Ok H →
       f_nodes f = Some (h_nodes H)
       ∧ f_network_name f = Some (h_network_name H)
       ∧ f_edges f = Some (h_edges H)
       ∧ ∀ k a, h_arrays H !! k = Some a ↔
                f_arrays f !! k = Some a ∧ selected (Some keys) k = true).
Proof.
  split; [done|]. split.
  - intros Hne Hmiss. unfold load_hdf5.
    destruct (selected (Some keys) "nodes") eqn:E1,
             (selected (Some keys) "network_name") eqn:E2,
             (selected (Some keys) "edges") eqn:E3;
      destruct (f_nodes f), (f_network_name f), (f_edges f); try done.
    all: exfalso; destruct keys as [|k ks]; [done|]; cbn [selected] in *;
      apply bool_decide_eq_true_1 in E1, E2, E3; tauto.
  - intros H. unfold load_hdf5.
    destruct (selected (Some keys) "nodes"); [|done].
    destruct (f_nodes f) as [nodes|]; [|done]. cbn [mbind result_bind].
    destruct (selected (Some keys) "network_name"); [|done].
    destruct (f_network_name f) as [nm|]; [|done]. cbn [mbind result_bind].
    destruct (selected (Some keys) "edges"); [|done].
    destruct (f_edges f) as [edges|]; [|done]. cbn [mbind result_bind].
    intros [= <-]. cbn. do 3 (split; [done|]).
    intros k a. by rewrite map_lookup_filter_Some.
Qed.

Lemma add_edge_adj (G : Graph) (a b u v : string) :
  v ∈ default ∅ (add_edge G a b !! u) ↔
  v ∈ default ∅ (G !! u) ∨ (u = a ∧ v = b) ∨ (u = b ∧ v = a).
Proof.
  unfold add_edge. destruct (decide (u = b)) as [->|Hub].
  - rewrite lookup_insert_eq. simpl.
    rewrite elem_of_union, elem_of_singleton.
    destruct (decide (b = a)) as [->|Hba].
    + rewrite lookup_insert_eq. simpl.
      rewrite elem_of_union, elem_of_singleton. intuition congruence.
    + rewrite lookup_insert_ne by done. intuition congruence.
  - rewrite lookup_insert_ne by done. destruct (decide (u = a)) as [->|Hua].
    + rewrite lookup_insert_eq. simpl.
      rewrite elem_of_union, elem_of_singleton. intuition congruence.
    + rewrite lookup_insert_ne by done. intuition congruence.
Qed.

Lemma add_edges_from_adj (G : Graph) (edges : list (string * string)) (u v : string) :
  v ∈ default ∅ (add_edges_from G edges !! u) ↔
  v ∈ default ∅ (G !! u) ∨ (u, v) ∈ edges ∨ (v, u) ∈ edges.
Proof.
  unfold add_edges_from. revert G.
  induction edges as [|[a b] edges IH]; intros G; cbn [foldl].
  - rewrite !elem_of_nil. tauto.
  - rewrite IH, add_edge_adj, !elem_of_cons. cbn. intuition congruence.
Qed.

(** X27: what [load_network] does for a network file and the name of one
    of its numeric datasets, case by case. When ["nodes"], ["network_name"],
    ["edges"] and the matrix are all in the file and the matrix has a first
    dimension [n], it returns the matrix, the index that numbers the first [n]
    node names from zero, the network name, and an undirected graph in which
    two nodes are neighbours exactly when the file lists them as an edge, in
    either order. When they are all in the file and the matrix has no
    dimension it raises [IndexError]; when one of them is missing it raises
    [KeyError]. *)
Theorem load_network_file_graph (f : h5file) (infmat_name : string) :
  infmat_name ∉ ["nodes"; "network_name"; "edges"] →
  match f_nodes f, f_network_name f, f_edges f, f_arrays f !! infmat_name with
  | Some nodes, Some name, Some edges, Some PPR =>
      match shape PPR with
      | [] => load_network_file f infmat_name = Raise IndexError
      | n :: _ =>
          ∃ G, load_network_file f infmat_name
               = Ok (PPR, map_seq 0 (take n nodes), G, name)
               ∧ ∀ u v, v ∈ default ∅ (G !! u) ↔
                        (u, v) ∈ edges ∨ (v, u) ∈ edges
      end
  | _, _, _, _ => load_network_file f infmat_name = Raise KeyError
  end.
Proof.
  intros _. unfold load_network_file, load_hdf5. cbn [selected].
  destruct (f_nodes f) as [nodes|]; cbn [mbind result_bind].
  2:{ by destruct (f_network_name f), (f_edges f), (f_arrays f !! infmat_name). }
  destruct (f_network_name f) as [name|]; cbn [mbind result_bind].
  2:{ by destruct (f_edges f), (f_arrays f !! infmat_name). }
  destruct (f_edges f) as [edges|]; cbn [mbind result_bind].
  2:{ by destruct (f_arrays f !! infmat_name). }
  unfold load_network, getitem. cbn [h_arrays h_nodes h_edges h_network_name].
  assert (filter (λ kv : string * ndarray, true = true) (f_arrays f) = f_arrays f)
    as ->.
  { apply map_eq. intros k. apply option_eq. intros a.
    rewrite map_lookup_filter_Some. tauto. }
  destruct (f_arrays f !! infmat_name) as [PPR|]; cbn [mbind result_bind];
    [|done].
  destruct (shape PPR) as [|n rest]; cbn; [done|].
  exists (add_edges_from ∅ edges). rewrite dict_zip_seq. split; [done|].
  intros u v. rewrite add_edges_from_adj, lookup_empty. cbn.
  rewrite elem_of_empty. tauto.
Qed.

Lemma load_network_file_graph_example :
  ∃ G, load_network_file net_file "PPR"
       = Ok (zeros [3; 3]%nat, map_seq 0 (take 3 ["A"; "B"; "C"]), G, "example")
       ∧ ∀ u v, v ∈ default ∅ (G !! u) ↔
                (u, v) ∈ [("A", "B"); ("C", "A")]
                ∨ (v, u) ∈ [("A", "B"); ("C", "A")].
Proof. apply (load_network_file_graph net_file "PPR"). by_compute. Defined.

(** ** More on heat files and on Oncodrive scores *)

(** X28: the heat and the name that [load_heat_file] returns for a JSON heat
    file are the values stored under ["heat"] and under ["name"] of the
    parameters, and unless the parameters name [load_mutation_heat] as the heat
    function the mutation data are the empty default. *)
Theorem load_heat_file_json_document (float_of : string → option float)
    (fs : filesystem) (heat_file : string) (heat : heat_scores) (name : json)
    (mutations : list Mutation * list Mutation * gmap string string) :
  load_heat_file float_of fs heat_file true = Ok (heat, name, mutations) →
  ∃ f obj heat_params h,
    fs !! heat_file = Some f ∧ document f = Some obj
    ∧ jgetitem obj "parameters" = Ok heat_params
    ∧ jgetitem heat_params "name" = Ok name
    ∧ jgetitem obj "heat" = Ok h ∧ heat = HeatJson h
    ∧ (jeq_str (heat_fn_of heat_params) "load_mutation_heat" = false →
       mutations = ([], [], ∅)).
Proof.
  unfold load_heat_file, open, json_load.
  destruct (fs !! heat_file) as [f|] eqn:Hf; simpl; [|done].
  destruct (document f) as [obj|] eqn:Hdoc; simpl; [|done].
  destruct (jgetitem obj "parameters") as [heat_params|] eqn:Hp; simpl; [|done].
  destruct (jgetitem heat_params "name") as [nm|] eqn:Hname; simpl; [|done].
  destruct (jgetitem obj "heat") as [h|] eqn:Hh; simpl; [|done].
  rewrite (heat_fn_of_object _ _ Hname). simpl.
  destruct (jeq_str (heat_fn_of heat_params) "load_mutation_heat") eqn:Hfn.
  - destruct (if_param fs heat_params "sample_file" _ _) as [samples|];
      simpl; [|done].
    destruct (if_param fs heat_params "gene_file" _ _) as [genes|];
      simpl; [|done].
    destruct (if_param fs heat_params "snv_file" _ _) as [snvs|]; simpl; [|done].
    destruct (if_param fs heat_params "cna_file" _ _) as [cnas|]; simpl; [|done].
    destruct (jtruthy (jget heat_params "sample_type_file")); [done|].
    intros [= <- <- <-]. exists f, obj, heat_params, h.
    do 6 (split; [done|]). intros Hother. congruence.
  - intros [= <- <- <-]. by exists f, obj, heat_params, h.
Qed.

Lemma load_heat_file_json_document_example :
  ∃ f obj heat_params h,
    plain_heat_fs !! "heat.json" = Some f ∧ document f = Some obj
    ∧ jgetitem obj "parameters" = Ok heat_params
    ∧ jgetitem heat_params "name" = Ok (JStr "demo")
    ∧ jgetitem obj "heat" = Ok h
    ∧ HeatJson (JObj [("G1", JNum (PyFloat 0.5))]) = HeatJson h
    ∧ (jeq_str (heat_fn_of heat_params) "load_mutation_heat" = false →
       (([], [], ∅) : list Mutation * list Mutation * gmap string string)
       = ([], [], ∅)).
Proof.
  apply (load_heat_file_json_document float_example plain_heat_fs "heat.json").
  vm_compute. reflexivity.
Defined.

(** X29: the fm scores of [load_oncodrive_data] need three columns on every
    line that does not begin with [#], after the whitespace at the end of the
    line is removed: a shorter line (one whose third column is empty and last,
    for instance) makes the call fail. A gene gets an fm score only from a
    line whose third column is none of the empty string, [-0] and [-], and the
    score is the float read from that column. *)
Theorem oncodrive_fm_columns (float_of : string → option float)
    (fm_scores cis_amp_scores cis_del_scores : list string) :
  (∀ line, line ∈ fm_scores → Str.startswith "#" line = false →
           (length (columns line) < 3)%nat →
           is_ok (load_oncodrive_data float_of fm_scores cis_amp_scores
                                      cis_del_scores) = false)
  ∧ (∀ gene2fm g x,
       oncodrive_fm float_of fm_scores = Ok gene2fm → gene2fm !! g = Some x →
       ∃ line tok y,
         line ∈ fm_scores ∧ Str.startswith "#" line = false
         ∧ columns line !! 1%nat = Some g ∧ columns line !! 2%nat = Some tok
         ∧ tok ≠ "" ∧ tok ≠ "-0" ∧ tok ≠ "-"
         ∧ float_of tok = Some y ∧ x = PyFloat y).
Proof.
  split.
  - intros line Hl Hc Hn. unfold load_oncodrive_data.
    assert (is_ok (oncodrive_fm float_of fm_scores) = false) as Hno.
    { unfold oncodrive_fm.
      apply dict_update_not_ok with (x := columns line) (e := IndexError).
      { apply list_elem_of_fmap_2. by apply uncommented_elem. }
      by rewrite (index_short (columns line) 2) by lia. }
    by destruct (oncodrive_fm float_of fm_scores).
  - intros gene2fm g x Hd Hg. unfold oncodrive_fm in Hd.
    destruct (dict_update_from _ _ _ _ _ _ Hd Hg) as [Hempty|(arr & Harr & Hitem)];
      [by rewrite lookup_empty in Hempty|].
    apply list_elem_of_fmap in Harr as (line & -> & [Hl Hc]%uncommented_inv).
    fold (columns line) in Hitem.
    destruct (index (columns line) 2) as [tok|] eqn:H2;
      cbn [mbind result_bind] in Hitem; [|done].
    destruct (String.eqb_spec tok "") as [->|Hn1];
      cbn [negb andb] in Hitem; [done|].
    destruct (String.eqb_spec tok "-0") as [->|Hn2];
      cbn [negb andb] in Hitem; [done|].
    destruct (String.eqb_spec tok "-") as [->|Hn3];
      cbn [negb andb] in Hitem; [done|].
    destruct (index (columns line) 1) as [a1|] eqn:H1;
      cbn [mbind result_bind] in Hitem; [|done].
    destruct (to_float float_of tok) as [y|] eqn:Hy;
      cbn [mbind result_bind] in Hitem; [|done].
    injection Hitem as -> <-. exists line, tok, y.
    rewrite (index_inv _ _ _ H1), (index_inv _ _ _ H2), (to_float_inv _ _ _ Hy).
    done.
Qed.

(** ** The heat JSON file written and read back *)

(** A float that is not NaN is equal to itself; a score that is not
    negative is not NaN. *)
Lemma SFcompare_refl (sf : spec_float) :
  sf ≠ S754_nan → SFcompare sf sf = Some Eq.
Proof.
  destruct sf as [s|s| |s m e]; intros H; simpl.
  - reflexivity.
  - by destruct s.
  - done.
  - rewrite Z.compare_refl, Pos.compare_cont_refl. by destruct s.
Qed.

Lemma float_eqb_nonneg (x : float) :
  (0 <=? x)%float = true → (x =? x)%float = true.
Proof.
  intros H. rewrite FloatAxioms.leb_spec in H. rewrite FloatAxioms.eqb_spec.
  unfold SFleb, SFeqb in *.
  destruct (Prim2SF x) as [s|s| |s m e] eqn:E.
  - reflexivity.
  - by destruct s.
  - by destruct (Prim2SF 0).
  - by rewrite SFcompare_refl.
Qed.

Lemma member_nodup (k : string) (ms : list (string * json)) :
  NoDup ms.*1 → member k ms = (list_to_map ms : gmap string json) !! k.
Proof.
  induction ms as [|[k' v] ms IH]; [done|].
  intros [Hk' Hms]%NoDup_cons. cbn [member list_to_map foldr].
  rewrite (IH Hms). destruct (decide (k' = k)) as [->|Hne].
  - rewrite lookup_insert_eq.
    rewrite (not_elem_of_list_to_map_1 (M := gmap string) ms k Hk').
    by rewrite bool_decide_eq_true_2.
  - rewrite lookup_insert_ne by done.
    destruct (list_to_map ms !! k); [done|].
    by rewrite bool_decide_eq_false_2.
Qed.

Lemma num_eq_nonnegative (x : pynum) : nonnegative x = true → num_eq x x = true.
Proof.
  destruct x as [z|x]; simpl.
  - intros _. apply Z.eqb_refl.
  - apply float_eqb_nonneg.
Qed.

(** The members of [heat_object]: no key is repeated, and each is read
    back with its score. *)
Lemma jgetitem_heat_object (heat : gmap string pynum) (g : string) :
  jgetitem (heat_object heat) g
  = match heat !! g with
    | Some x => Ok (JNum x)
    | None => Raise KeyError
    end.
Proof.
  unfold heat_object, jgetitem.
  rewrite member_nodup by apply NoDup_fst_map_to_list.
  rewrite list_to_map_to_list, lookup_fmap. by destruct (heat !! g).
Qed.

Lemma jcontains_heat_object (heat : gmap string pynum) (g : string) :
  jcontains (heat_object heat) g = true ↔ g ∈ dom heat.
Proof.
  unfold heat_object, jcontains.
  rewrite member_nodup by apply NoDup_fst_map_to_list.
  rewrite list_to_map_to_list, lookup_fmap, bool_decide_eq_true, elem_of_dom.
  by rewrite fmap_is_Some.
Qed.

(** C8: the round trip of a heat through the heat JSON file of a run, with
    [json.dump] modelled from the library's documentation. For every
    gene-to-score dictionary whose scores are not negative, after
    [output_hotnet2_run] has written it under the key ["heat"],
    [load_heat_json] returns from that file a heat with exactly the same genes
    and, for each gene, a number that is equal ([==]) to the score that was
    written; it holds nothing else. *)
Theorem heat_json_round_trip (fs : filesystem) (path heat_file : string)
    (text : list string) (heat : gmap string pynum) :
  (∀ g x, heat !! g = Some x → nonnegative x = true) →
  ∃ reloaded parameters,
    load_heat_json (write_heat_json fs path text heat heat_file) path
      = Ok (reloaded, parameters)
    ∧ (∀ g, jcontains reloaded g = true ↔ g ∈ dom heat)
    ∧ (∀ g x, heat !! g = Some x →
         ∃ y, jgetitem reloaded g = Ok (JNum y) ∧ num_eq y x = true)
    ∧ (∀ g v, jgetitem reloaded g = Ok v →
         ∃ x, heat !! g = Some x ∧ v = JNum x).
Proof.
  intros Hheat. exists (heat_object heat), (JObj [("heat_file", JStr heat_file)]).
  split; [apply load_heat_json_written|]. split; [apply jcontains_heat_object|].
  split.
  - intros g x Hg. exists x. rewrite jgetitem_heat_object, Hg.
    split; [done|]. by apply num_eq_nonnegative, (Hheat g).
  - intros g v. rewrite jgetitem_heat_object.
    destruct (heat !! g) as [x|]; [|done]. intros [= <-]. by exists x.
Qed.

Lemma heat_json_round_trip_example :
  ∃ reloaded parameters,
    load_heat_json
      (write_heat_json ∅ "heat.json" [] {[ "G1" := PyFloat 0.5 ]} "heat.tsv")
      "heat.json"
      = Ok (reloaded, parameters)
    ∧ (∀ g, jcontains reloaded g = true ↔
            g ∈ dom ({[ "G1" := PyFloat 0.5 ]} : gmap string pynum))
    ∧ (∀ g x, ({[ "G1" := PyFloat 0.5 ]} : gmap string pynum) !! g = Some x →
         ∃ y, jgetitem reloaded g = Ok (JNum y) ∧ num_eq y x = true)
    ∧ (∀ g v, jgetitem reloaded g = Ok v →
         ∃ x, ({[ "G1" := PyFloat 0.5 ]} : gmap string pynum) !! g = Some x
              ∧ v = JNum x).
Proof.
  apply (heat_json_round_trip ∅ "heat.json" "heat.tsv" [] {[ "G1" := PyFloat 0.5 ]}).
  intros g x [<- <-]%lookup_singleton_Some. reflexivity.
Defined.
